(** * migo: a file-based SQL migrator (main.go)

    Shallow embedding of the migration reconciliation logic of [main.go]:
    the source reader ([parseMigrationFile], [loadMigrations]), the history
    accessor ([appliedMigrations], the [schema_migrations] table) and the
    four drivers ([applyMigrations] for [up] and [up-to],
    [rollbackLastMigration] for [down], [showMigrationInfo] for [info]).

    Conventions of the model.
    - A Go [string] or [[]byte] is a [string] of 8-bit characters.
    - An [int64] is a [Z]; the only place where the source can overflow
      ([parseInt64]) has its behaviour written out.
    - The migrations directory is the list of its entries, in the order in
      which [os.ReadDir] enumerates them. It is flat: a sub-directory is an
      entry that cannot be read, and nothing below it is modelled.
    - The table [schema_migrations] has [version] as its primary key: it is
      a finite map from versions to the remaining columns. The table exists
      ([ensureMigrationTable] has run) and the queries on it succeed.
    - The database is an external collaborator: whether it accepts a
      statement, in the state it is in, is an oracle, and the statements it
      executed are kept in a trace. A migration script changes the schema,
      not the rows of [schema_migrations].
    - [log.Fatal] ends the process: every driver returns an outcome together
      with the database as the process leaves it. *)

From Stdlib Require Import ZArith String Ascii List Sorted Permutation Lia.
From Stdlib Require Import DecimalString DecimalZ DecimalPos DecimalFacts.
From stdpp Require Import gmap strings list fin_maps.

Local Open Scope string_scope.

(** ** crypto/sha256 and encoding/hex *)

Module SHA256.
Local Open Scope Z_scope.

Definition add32 (x y : Z) : Z := (x + y) mod 2 ^ 32.
Definition not32 (x : Z) : Z := Z.lxor x 0xffffffff.
Definition rotr (n x : Z) : Z :=
  Z.lor (Z.shiftr x n) ((Z.shiftl x (32 - n)) mod 2 ^ 32).
Definition shr (n x : Z) : Z := Z.shiftr x n.

Definition Ch (x y z : Z) : Z := Z.lxor (Z.land x y) (Z.land (not32 x) z).
Definition Maj (x y z : Z) : Z :=
  Z.lxor (Z.lxor (Z.land x y) (Z.land x z)) (Z.land y z).
Definition bsig0 (x : Z) : Z := Z.lxor (Z.lxor (rotr 2 x) (rotr 13 x)) (rotr 22 x).
Definition bsig1 (x : Z) : Z := Z.lxor (Z.lxor (rotr 6 x) (rotr 11 x)) (rotr 25 x).
Definition ssig0 (x : Z) : Z := Z.lxor (Z.lxor (rotr 7 x) (rotr 18 x)) (shr 3 x).
Definition ssig1 (x : Z) : Z := Z.lxor (Z.lxor (rotr 17 x) (rotr 19 x)) (shr 10 x).

(** The constants of FIPS 180-4: the first 32 bits of the fractional
    parts of the cube roots, for [K], and of the square roots, for the
    initial hash value, of the first primes. *)
Definition is_prime (n : nat) : bool :=
  forallb (fun d => negb (n mod d =? 0)%nat) (seq 2 (n - 2)).

Definition primes : list Z := map Z.of_nat (List.filter is_prime (seq 2 310)).

(** The integer cube root, one bit after the other from bit [bits - 1]. *)
Fixpoint cube_root (bits : nat) (n r : Z) : Z :=
  match bits with
  | O => r
  | S b =>
      let r' := r + 2 ^ Z.of_nat b in
      cube_root b n (if r' * r' * r' <=? n then r' else r)
  end.

Definition K : list Z :=
  Eval vm_compute in map (fun p => cube_root 35 (p * 2 ^ 96) 0 mod 2 ^ 32) primes.

Definition H0 : list Z :=
  Eval vm_compute in map (fun p => Z.sqrt (p * 2 ^ 64) mod 2 ^ 32) (firstn 8 primes).

(** The eight working variables, and the chaining value between blocks. *)
Record state : Type := State {
  sa : Z; sb : Z; sc : Z; sd : Z; se : Z; sf : Z; sg : Z; sh : Z }.

Definition init : state :=
  State (nth 0 H0 0) (nth 1 H0 0) (nth 2 H0 0) (nth 3 H0 0)
        (nth 4 H0 0) (nth 5 H0 0) (nth 6 H0 0) (nth 7 H0 0).

(** Padding: a [0x80] byte, zero bytes up to 56 modulo 64, and the length
    of the message in bits as a big-endian 64-bit integer. *)
Definition be_bytes (n : nat) (x : Z) : list Z :=
  map (fun i => (Z.shiftr x (8 * Z.of_nat i)) mod 256) (rev (seq 0 n)).

Definition pad (msg : list Z) : list Z :=
  let len := Z.of_nat (length msg) in
  let zeros := Z.to_nat ((55 - len) mod 64) in
  msg ++ [0x80] ++ repeat 0 zeros ++ be_bytes 8 ((8 * len) mod 2 ^ 64).

Fixpoint be_words (n : nat) (bs : list Z) : list Z :=
  match n, bs with
  | S n', b3 :: b2 :: b1 :: b0 :: rest =>
      (b3 * 2 ^ 24 + b2 * 2 ^ 16 + b1 * 2 ^ 8 + b0) :: be_words n' rest
  | _, _ => []
  end.

(** Message schedule: [w] holds the words computed so far, latest first. *)
Fixpoint schedule (n : nat) (w : list Z) : list Z :=
  match n with
  | O => w
  | S n' =>
      let x := add32 (add32 (ssig1 (nth 1 w 0)) (nth 6 w 0))
                     (add32 (ssig0 (nth 14 w 0)) (nth 15 w 0)) in
      schedule n' (x :: w)
  end.

Definition round (s : state) (kw : Z * Z) : state :=
  let t1 := add32 (add32 (add32 (sh s) (bsig1 (se s)))
                         (add32 (Ch (se s) (sf s) (sg s)) (fst kw))) (snd kw) in
  let t2 := add32 (bsig0 (sa s)) (Maj (sa s) (sb s) (sc s)) in
  State (add32 t1 t2) (sa s) (sb s) (sc s) (add32 (sd s) t1) (se s) (sf s) (sg s).

Definition compress (h : state) (block : list Z) : state :=
  let w := rev (schedule 48 (rev (be_words 16 block))) in
  let s := fold_left round (combine K w) h in
  State (add32 (sa h) (sa s)) (add32 (sb h) (sb s)) (add32 (sc h) (sc s))
        (add32 (sd h) (sd s)) (add32 (se h) (se s)) (add32 (sf h) (sf s))
        (add32 (sg h) (sg s)) (add32 (sh h) (sh s)).

Fixpoint blocks (n : nat) (h : state) (bs : list Z) : state :=
  match n with
  | O => h
  | S n' =>
      match bs with
      | [] => h
      | _ => blocks n' (compress h (firstn 64 bs)) (skipn 64 bs)
      end
  end.

Definition digest (h : state) : list Z :=
  be_bytes 4 (sa h) ++ be_bytes 4 (sb h) ++ be_bytes 4 (sc h) ++ be_bytes 4 (sd h) ++
  be_bytes 4 (se h) ++ be_bytes 4 (sf h) ++ be_bytes 4 (sg h) ++ be_bytes 4 (sh h).

(** [sha256.Sum256] *)
Definition Sum256 (msg : list Z) : list Z :=
  let p := pad msg in digest (blocks (length p) init p).

End SHA256.

Definition bytes_of_string (s : string) : list Z :=
  map (fun c => Z.of_N (N_of_ascii c)) (list_ascii_of_string s).

Definition hex_digit (d : Z) : ascii :=
  nth (Z.to_nat d) (list_ascii_of_string "0123456789abcdef") "0"%char.

(** [hex.EncodeToString] *)
Fixpoint EncodeToString (bs : list Z) : string :=
  match bs with
  | [] => ""
  | b :: bs' =>
      String (hex_digit (b / 16)) (String (hex_digit (b mod 16)) (EncodeToString bs'))
  end.

Definition sha256_hex (content : string) : string :=
  EncodeToString (SHA256.Sum256 (bytes_of_string content)).


(** ** strings *)

Definition string_rev (s : string) : string :=
  string_of_list_ascii (rev (list_ascii_of_string s)).

Fixpoint string_drop (n : nat) (s : string) : string :=
  match n, s with
  | S n', String _ s' => string_drop n' s'
  | _, _ => s
  end.

Definition HasPrefix (s p : string) : bool := String.prefix p s.

(** [len(s) >= len(suffix) && s[len(s)-len(suffix):] == suffix] *)
Definition HasSuffix (s suffix : string) : bool :=
  (String.length suffix <=? String.length s)%nat &&
  String.eqb (string_drop (String.length s - String.length suffix) s) suffix.

(** [strings.SplitN s sep 2], for a separator that is not empty: [s] is cut
    at the first occurrence of [sep]; without one the result is [[s]]. *)
Fixpoint cut (sep s : string) : option (string * string) :=
  if HasPrefix s sep then Some ("", string_drop (String.length sep) s)
  else
    match s with
    | "" => None
    | String c s' =>
        match cut sep s' with
        | Some (before, after) => Some (String c before, after)
        | None => None
        end
    end.

Definition SplitN2 (s sep : string) : list string :=
  match cut sep s with
  | Some (before, after) => [before; after]
  | None => [s]
  end.

(** [strings.ReplaceAll s old new], for an [old] that is not empty: the
    occurrences of [old] are replaced from left to right, without overlap.
    [skip] counts the characters of a matched occurrence still to pass. *)
Fixpoint replaceFrom (old new : string) (skip : nat) (s : string) : string :=
  match s with
  | "" => ""
  | String c s' =>
      match skip with
      | S k => replaceFrom old new k s'
      | O =>
          if HasPrefix s old
          then new ++ replaceFrom old new (String.length old - 1) s'
          else String c (replaceFrom old new 0 s')
      end
  end.

Definition ReplaceAll (s old new : string) : string := replaceFrom old new 0 s.

Definition bytes (l : list nat) : string :=
  string_of_list_ascii (map ascii_of_nat l).

(** The UTF-8 encodings of the code points for which [unicode.IsSpace]
    holds: U+0009..U+000D, U+0020, U+0085, U+00A0, U+1680, U+2000..U+200A,
    U+2028, U+2029, U+202F, U+205F and U+3000. A byte that starts no valid
    encoding decodes to U+FFFD, which is not a space. *)
Definition spaces : list string :=
  map bytes
    [ [9]; [10]; [11]; [12]; [13]; [32]; [194; 133]; [194; 160]; [225; 154; 128];
      [226; 128; 128]; [226; 128; 129]; [226; 128; 130]; [226; 128; 131];
      [226; 128; 132]; [226; 128; 133]; [226; 128; 134]; [226; 128; 135];
      [226; 128; 136]; [226; 128; 137]; [226; 128; 138];
      [226; 128; 168]; [226; 128; 169]; [226; 128; 175]; [226; 129; 159];
      [227; 128; 128] ].

(** While [s] starts with one of [seqs], drop it. *)
Fixpoint trimPrefix (seqs : list string) (fuel : nat) (s : string) : string :=
  match fuel with
  | O => s
  | S fuel' =>
      match find (fun w => HasPrefix s w) seqs with
      | Some w => trimPrefix seqs fuel' (string_drop (String.length w) s)
      | None => s
      end
  end.

Definition TrimLeftSpace (s : string) : string :=
  trimPrefix spaces (String.length s) s.

Definition TrimRightSpace (s : string) : string :=
  string_rev (trimPrefix (map string_rev spaces) (String.length s) (string_rev s)).

(** [strings.TrimSpace]: leading white space goes first, then trailing. *)
Definition TrimSpace (s : string) : string := TrimRightSpace (TrimLeftSpace s).

(** ** The file name pattern [^(\d+)_([^.]+)\.sql$] *)

Definition is_digit (c : ascii) : bool :=
  let n := nat_of_ascii c in (48 <=? n)%nat && (n <=? 57)%nat.

(** The longest prefix of digits, and what follows it. The [_] after the
    first group is no digit, so [\d+] can only match this prefix. *)
Fixpoint span_digits (s : string) : string * string :=
  match s with
  | String c s' =>
      if is_digit c
      then let (ds, rest) := span_digits s' in (String c ds, rest)
      else ("", s)
  | "" => ("", "")
  end.

Fixpoint no_dot (s : string) : bool :=
  match s with
  | "" => true
  | String c s' => negb (Ascii.eqb c ".") && no_dot s'
  end.

Definition string_take (n : nat) (s : string) : string := String.substring 0 n s.

(** [re.FindStringSubmatch]: the whole match and the two groups, or nothing. *)
Definition FindStringSubmatch (filename : string) : list string :=
  match span_digits filename with
  | (String d ds, String "_" rest) =>
      let name := string_take (String.length rest - 4) rest in
      if HasSuffix rest ".sql" && (0 <? String.length name)%nat && no_dot name
      then [filename; String d ds; name]
      else []
  | _ => []
  end.

(** ** fmt *)

Definition digit_value (c : ascii) : Z := Z.of_nat (nat_of_ascii c) - 48.

Fixpoint decimal_value (acc : Z) (s : string) : Z :=
  match s with
  | "" => acc
  | String c s' => decimal_value (10 * acc + digit_value c) s'
  end.

(** [parseInt64]: [fmt.Sscanf(s, "%d", &v)] with the error dropped. On a
    token of digits the scan fails only when the number does not fit an
    [int64], and then [v] keeps its zero value. *)
Definition parseInt64 (s : string) : Z :=
  let v := decimal_value 0 s in
  if (v <? 2 ^ 63)%Z then v else 0%Z.

(** [fmt.Sprintf("%d", v)] *)
Definition FormatInt (v : Z) : string := NilZero.string_of_int (Z.to_int v).

(** [fmt.Sprintf("%d_%s.sql", version, name)] *)
Definition migrationFilename (version : Z) (name : string) : string :=
  FormatInt version ++ "_" ++ name ++ ".sql".

(** ** Migration Source Reader *)

Record Migration : Type := {
  Version : Z;
  Name : string;
  UpSQL : string;
  DownSQL : string;
  Checksum : string }.

Record DirEntry : Type := {
  entryName : string;
  IsDir : bool;
  entryData : string }.

(** Errors of the reader, as values of Go's [error]. *)
Inductive error : Type :=
| ErrRead (path : string)
| ErrInvalidFilename (filename : string)
| ErrMissingDown (filename : string).

Inductive result (A : Type) : Type :=
| Ok (a : A)
| Err (e : error).
Arguments Ok {A} a.
Arguments Err {A} e.

(** [migrationDir] is flat in the model, so a path below it is the name of
    an entry: [filepath.Join] and [filepath.Base] cancel out. Opening a
    name that is absent fails, and so does reading a directory. *)
Fixpoint readFile (dir : list DirEntry) (path : string) : result string :=
  match dir with
  | [] => Err (ErrRead path)
  | e :: dir' =>
      if String.eqb (entryName e) path
      then if IsDir e then Err (ErrRead path) else Ok (entryData e)
      else readFile dir' path
  end.

Definition parseMigrationFile (dir : list DirEntry) (path : string) : result Migration :=
  match readFile dir path with
  | Err e => Err e
  | Ok content =>
      let filename := path in
      match FindStringSubmatch filename with
      | [_; token; name] =>
          let version := parseInt64 token in
          match SplitN2 content "-- +down" with
          | [before; after] =>
              let upPart := ReplaceAll before "-- +up" "" in
              let downPart := after in
              let hash := SHA256.Sum256 (bytes_of_string content) in
              Ok {| Version := version;
                    Name := name;
                    UpSQL := TrimSpace upPart;
                    DownSQL := TrimSpace downPart;
                    Checksum := EncodeToString hash |}
          | _ => Err (ErrMissingDown filename)
          end
      | _ => Err (ErrInvalidFilename filename)
      end
  end.

(** [sort.Slice] with [less] comparing versions. It sorts slices of fewer
    than twelve elements by insertion, which is what is written here; for
    longer slices it promises a sorted permutation and no more. The proofs
    below use only [sortSlice_perm] and [sortSlice_sorted]. *)
Fixpoint insertByVersion (m : Migration) (sorted : list Migration) : list Migration :=
  match sorted with
  | [] => [m]
  | m' :: rest =>
      if (Version m <? Version m')%Z then m :: sorted
      else m' :: insertByVersion m rest
  end.

Definition sortSlice (ms : list Migration) : list Migration :=
  fold_left (fun sorted m => insertByVersion m sorted) ms [].

(** The loop of [loadMigrations] over the entries, in enumeration order. *)
Fixpoint parseEntries (dir entries : list DirEntry) : result (list Migration) :=
  match entries with
  | [] => Ok []
  | e :: entries' =>
      if IsDir e || negb (HasSuffix (entryName e) ".sql")
      then parseEntries dir entries'
      else
        match parseMigrationFile dir (entryName e) with
        | Err err => Err err
        | Ok m =>
            match parseEntries dir entries' with
            | Err err => Err err
            | Ok ms => Ok (m :: ms)
            end
        end
  end.

Definition loadMigrations (dir : list DirEntry) : result (list Migration) :=
  match parseEntries dir dir with
  | Err err => Err err
  | Ok migrations => Ok (sortSlice migrations)
  end.

(** ** History Store Accessor *)

(** A row of [schema_migrations], without its key. *)
Record Row : Type := {
  rowName : string;
  rowChecksum : string;
  rowAppliedAt : Z }.

(** What the database has executed for this tool. *)
Inductive Statement : Type :=
| Script (sql : string)
| InsertRow (version : Z) (r : Row)
| DeleteRow (version : Z).

Record DB : Type := {
  history : gmap Z Row;
  trace : list Statement }.

Definition executed (db : DB) (st : Statement) (h : gmap Z Row) : DB :=
  {| history := h; trace := trace db ++ [st] |}.

(** [appliedMigrations]: version to checksum, for every row. *)
Definition appliedMigrations (db : DB) : gmap Z string :=
  rowChecksum <$> history db.

(** [SELECT version, name ... ORDER BY version DESC LIMIT 1] *)
Definition higherRow (best : option (Z * Row)) (kv : Z * Row) : option (Z * Row) :=
  match best with
  | None => Some kv
  | Some (v, r) => if (v <? kv.1)%Z then Some kv else best
  end.

Definition lastRow (h : gmap Z Row) : option (Z * Row) :=
  fold_left higherRow (map_to_list h) None.

(** ** Reconciliation Engine *)

Inductive Fatal : Type :=
| LoadFailed (e : error)
| ChecksumMismatch (version : Z) (name : string)
| ApplyFailed (version : Z)
| RecordFailed (version : Z)
| ResolveFailed (e : error)
| RollbackFailed (version : Z)
| DeleteFailed.

(** The last line a driver logs before it returns. *)
Inductive Report : Type :=
| MigrationsApplied
| NoMigrationsToRollback
| RollbackSuccessful.

Inductive Outcome : Type :=
| Returned (r : Report)
| Exited (f : Fatal).

Inductive Validity : Type := NO | YES | CHANGED.

(** One line of the table that [showMigrationInfo] prints; [None] is the
    dash printed for a migration without a row. *)
Record InfoLine : Type := {
  infoVersion : Z;
  infoName : string;
  infoValid : Validity;
  infoAppliedAt : option Z }.

Section Engine.

(** The execution collaborator: whether the database, in a given state,
    accepts a statement, and the clock of one invocation of the program,
    that is the time [time.Now] reads in a given state during that
    invocation. Two invocations have two clocks. *)
Variable accepts : DB -> Statement -> bool.
Variable now : DB -> Z.

(** [db.Exec] of a migration script *)
Definition Exec (db : DB) (sql : string) : option DB :=
  if accepts db (Script sql)
  then Some (executed db (Script sql) (history db))
  else None.

(** [INSERT INTO schema_migrations]: besides what the database may refuse
    on its own, the primary key refuses a version that has a row. *)
Definition ExecInsert (db : DB) (version : Z) (r : Row) : option DB :=
  if accepts db (InsertRow version r)
  then match history db !! version with
       | Some _ => None
       | None =>
           Some (executed db (InsertRow version r) (<[version := r]> (history db)))
       end
  else None.

(** [DELETE FROM schema_migrations WHERE version = $1] *)
Definition ExecDelete (db : DB) (version : Z) : option DB :=
  if accepts db (DeleteRow version)
  then Some (executed db (DeleteRow version) (delete version (history db)))
  else None.

(** The first loop of [applyMigrations]: the first discovered migration
    whose stored checksum differs, if any. *)
Fixpoint validateChecksums (applied : gmap Z string) (migrations : list Migration)
  : option Migration :=
  match migrations with
  | [] => None
  | m :: rest =>
      match applied !! Version m with
      | Some oldChecksum =>
          if String.eqb oldChecksum (Checksum m)
          then validateChecksums applied rest
          else Some m
      | None => validateChecksums applied rest
      end
  end.

(** [upTo && len(target) > 0 && m.Version > target[0]] *)
Definition beyondTarget (upTo : bool) (target : list Z) (m : Migration) : bool :=
  upTo &&
  match target with
  | t :: _ => (t <? Version m)%Z
  | [] => false
  end.

(** The second loop of [applyMigrations]. [None] is the normal end of the
    loop, by exhaustion or by [break]. *)
Fixpoint applyPending (applied : gmap Z string) (upTo : bool) (target : list Z)
    (migrations : list Migration) (db : DB) : option Fatal * DB :=
  match migrations with
  | [] => (None, db)
  | m :: rest =>
      match applied !! Version m with
      | Some _ => applyPending applied upTo target rest db
      | None =>
          if beyondTarget upTo target m then (None, db)
          else
            match Exec db (UpSQL m) with
            | None => (Some (ApplyFailed (Version m)), db)
            | Some db1 =>
                let row := {| rowName := Name m;
                              rowChecksum := Checksum m;
                              rowAppliedAt := now db1 |} in
                match ExecInsert db1 (Version m) row with
                | None => (Some (RecordFailed (Version m)), db1)
                | Some db2 => applyPending applied upTo target rest db2
                end
            end
      end
  end.

Definition applyMigrations (dir : list DirEntry) (upTo : bool) (target : list Z)
    (db : DB) : Outcome * DB :=
  match loadMigrations dir with
  | Err err => (Exited (LoadFailed err), db)
  | Ok migrations =>
      let applied := appliedMigrations db in
      match validateChecksums applied migrations with
      | Some m => (Exited (ChecksumMismatch (Version m) (Name m)), db)
      | None =>
          match applyPending applied upTo target migrations db with
          | (Some f, db') => (Exited f, db')
          | (None, db') => (Returned MigrationsApplied, db')
          end
      end
  end.

(** The commands [up] and [up-to <version>] of [main]. *)
Definition up (dir : list DirEntry) (db : DB) : Outcome * DB :=
  applyMigrations dir false [] db.

Definition up_to (dir : list DirEntry) (version : Z) (db : DB) : Outcome * DB :=
  applyMigrations dir true [version] db.

(** The command [down]. *)
Definition rollbackLastMigration (dir : list DirEntry) (db : DB) : Outcome * DB :=
  match lastRow (history db) with
  | None => (Returned NoMigrationsToRollback, db)
  | Some (version, row) =>
      let path := migrationFilename version (rowName row) in
      match parseMigrationFile dir path with
      | Err err => (Exited (ResolveFailed err), db)
      | Ok m =>
          match Exec db (DownSQL m) with
          | None => (Exited (RollbackFailed (Version m)), db)
          | Some db1 =>
              match ExecDelete db1 version with
              | None => (Exited DeleteFailed, db1)
              | Some db2 => (Returned RollbackSuccessful, db2)
              end
          end
      end
  end.

End Engine.

(** The command [info]: the lines of the table, one per iteration of the
    loop over the discovered migrations. *)
Definition infoLine (h : gmap Z Row) (m : Migration) : InfoLine :=
  match h !! Version m with
  | Some a =>
      {| infoVersion := Version m;
         infoName := Name m;
         infoValid := if String.eqb (rowChecksum a) (Checksum m) then YES else CHANGED;
         infoAppliedAt := Some (rowAppliedAt a) |}
  | None =>
      {| infoVersion := Version m; infoName := Name m;
         infoValid := NO; infoAppliedAt := None |}
  end.

Definition showMigrationInfo (dir : list DirEntry) (db : DB) : Fatal + list InfoLine :=
  match loadMigrations dir with
  | Err err => inl (LoadFailed err)
  | Ok migrations => inr (map (infoLine (history db)) migrations)
  end.

(** ** Vocabulary of the statements *)

(** The row that [applyMigrations] writes for [m] at a given time, and
    the rows that it may write for [m], whatever the time. *)
Definition rowOf (m : Migration) (appliedAt : Z) : Row :=
  {| rowName := Name m; rowChecksum := Checksum m; rowAppliedAt := appliedAt |}.

Definition recorded (m : Migration) (r : Row) : Prop :=
  rowName r = Name m /\ rowChecksum r = Checksum m.

(** The statements of migrations applied one after the other: for each,
    its forward script and then the insertion of its row. *)
Inductive appliedAs : list Migration -> list Statement -> Prop :=
| appliedAs_nil : appliedAs [] []
| appliedAs_cons m r ms sts :
    recorded m r ->
    appliedAs ms sts ->
    appliedAs (m :: ms) (Script (UpSQL m) :: InsertRow (Version m) r :: sts).

Definition scriptOf (st : Statement) : option string :=
  match st with Script sql => Some sql | _ => None end.

Definition insertedVersion (st : Statement) : option Z :=
  match st with InsertRow v _ => Some v | _ => None end.

Definition deletedVersion (st : Statement) : option Z :=
  match st with DeleteRow v => Some v | _ => None end.

(** The scripts, and the versions of the rows inserted and deleted, in the
    order of a trace. *)
Definition scripts (sts : list Statement) : list string := omap scriptOf sts.
Definition insertions (sts : list Statement) : list Z := omap insertedVersion sts.
Definition deletions (sts : list Statement) : list Z := omap deletedVersion sts.

Definition versions (ms : list Migration) : list Z := map Version ms.

Definition pendingIn (applied : gmap Z string) (m : Migration) : bool :=
  match applied !! Version m with
  | None => true
  | Some _ => false
  end.

(** The migrations that the second loop of [applyMigrations] reaches past
    its [continue] and before its [break]. *)
Fixpoint selected (applied : gmap Z string) (upTo : bool) (target : list Z)
    (migrations : list Migration) : list Migration :=
  match migrations with
  | [] => []
  | m :: rest =>
      if pendingIn applied m
      then if beyondTarget upTo target m then []
           else m :: selected applied upTo target rest
      else selected applied upTo target rest
  end.

(** The pending migrations, and those of them at or below a target. *)
Definition pending (db : DB) (ms : list Migration) : list Migration :=
  List.filter (pendingIn (appliedMigrations db)) ms.

Definition pendingUpTo (db : DB) (t : Z) (ms : list Migration) : list Migration :=
  List.filter (fun m => pendingIn (appliedMigrations db) m && (Version m <=? t)%Z) ms.

Fixpoint all_digits (s : string) : bool :=
  match s with
  | "" => true
  | String c s' => is_digit c && all_digits s'
  end.

(** The version that [parseMigrationFile] reads off a file name. *)
Definition nameVersion (filename : string) : Z :=
  match FindStringSubmatch filename with
  | [_; token; _] => parseInt64 token
  | _ => 0%Z
  end.

(** The entries that [loadMigrations] parses. *)
Definition isMigrationEntry (e : DirEntry) : bool :=
  negb (IsDir e || negb (HasSuffix (entryName e) ".sql")).

(** The row of the highest version in the table. *)
Definition highest (h : gmap Z Row) (v : Z) (r : Row) : Prop :=
  h !! v = Some r /\ forall v', is_Some (h !! v') -> (v' <= v)%Z.

Definition ascending (ms : list Migration) : Prop :=
  StronglySorted (fun a b => (Version a <= Version b)%Z) ms.

(** A discovered migration whose stored checksum differs from the one of
    its file. *)
Definition tampered (db : DB) (m : Migration) : Prop :=
  exists r, history db !! Version m = Some r /\ rowChecksum r <> Checksum m.

(** Every discovered migration has a row with the checksum of its file. *)
Definition upToDate (db : DB) (ms : list Migration) : Prop :=
  forall m, In m ms ->
    exists r, history db !! Version m = Some r /\ rowChecksum r = Checksum m.

(** ** Scenarios used in the examples *)

Definition file (name content : string) : DirEntry :=
  {| entryName := name; IsDir := false; entryData := content |}.

Definition nl : string := String (ascii_of_nat 10) "".

(** A migration file in the layout that [createMigrationFile] writes. *)
Definition script (up down : string) : string :=
  "-- +up" ++ nl ++ up ++ nl ++ nl ++ "-- +down" ++ nl ++ down ++ nl.

Definition emptyDB : DB := {| history := ∅; trace := [] |}.

(** A database that accepts every statement, one that accepts all but the
    insertion of a row for version 2, and a clock that ticks with the
    statements. *)
Definition always : DB -> Statement -> bool := fun _ _ => true.
Definition refuseRow2 : DB -> Statement -> bool :=
  fun _ st => match st with InsertRow 2 _ => false | _ => true end.
Definition clock : DB -> Z := fun db => Z.of_nat (length (trace db)).

(** The first migration of the repository,
    [migrations/20251108001546_add_users_table.sql]. *)
Definition addUsersTable : string :=
  "-- +up" ++ nl ++
  "-- SQL statements for migration UP go here" ++ nl ++
  "CREATE TABLE users (" ++ nl ++
  "    id VARCHAR PRIMARY KEY," ++ nl ++
  "    name TEXT NOT NULL," ++ nl ++
  "    email TEXT UNIQUE NOT NULL" ++ nl ++
  ");" ++ nl ++ nl ++
  "-- +down" ++ nl ++
  "-- SQL statements for migration DOWN go here" ++ nl ++
  "DROP TABLE users;".

Definition loaded (dir : list DirEntry) : list Migration :=
  match loadMigrations dir with
  | Ok ms => ms
  | Err _ => []
  end.

Definition fileA : DirEntry := file "1_a.sql" (script "CREATE a" "DROP a").
Definition fileB : DirEntry := file "2_b.sql" (script "CREATE b" "DROP b").
Definition fileC : DirEntry := file "3_c.sql" (script "CREATE c" "DROP c").
Definition fileD : DirEntry := file "4_d.sql" (script "CREATE d" "DROP d").

(** Three migrations, enumerated as 3, 1, 2, and the database after [up]. *)
Definition dir312 : list DirEntry := [fileC; fileA; fileB].
Definition db312 : DB := (up always clock dir312 emptyDB).2.

(** Version 1 applied, versions 2, 3 and 4 pending. *)
Definition dir1 : list DirEntry := [fileA].
Definition db1 : DB := (up always clock dir1 emptyDB).2.
Definition dir1234 : list DirEntry := [fileA; fileB; fileC; fileD].

(** The file of version 1 edited after it was applied. *)
Definition dirEdited : list DirEntry :=
  [file "1_a.sql" (script "CREATE a" "DROP b")].

(** Versions 1 and 2 applied, then the file of version 1 deleted. *)
Definition dir12 : list DirEntry := [fileA; fileB].
Definition db12 : DB := (up always clock dir12 emptyDB).2.
Definition dirGap : list DirEntry := [fileB].

(** Two files with the same version. *)
Definition dirTwice : list DirEntry :=
  [ file "01_b.sql" (script "CREATE b" "DROP b"); fileA ].
Definition dbTwice : DB := (up always clock dirTwice emptyDB).2.

(** A version token with leading zeros. *)
Definition dirPadded : list DirEntry :=
  [file "000001_x.sql" (script "CREATE x" "DROP x")].
Definition dbPadded : DB := (up always clock dirPadded emptyDB).2.

Definition migrationOf (name content : string) : Migration :=
  match parseMigrationFile [file name content] name with
  | Ok m => m
  | Err _ =>
      {| Version := 0; Name := ""; UpSQL := ""; DownSQL := ""; Checksum := "" |}
  end.

Definition editedA : Migration := migrationOf "1_a.sql" (script "CREATE a" "DROP b").
Definition migrationC : Migration := migrationOf "3_c.sql" (script "CREATE c" "DROP c").
Definition paddedX : Migration := migrationOf "000001_x.sql" (script "CREATE x" "DROP x").

Definition dbUpTo3 : DB := (up_to always clock dir1234 3 db1).2.
Definition dbDown : DB := (rollbackLastMigration always dir312 db312).2.

(** ** The command [create] *)

(** The text that [createMigrationFile] writes. *)
Definition template : string :=
  "-- +up" ++ nl ++
  "-- SQL statements for migration UP go here" ++ nl ++ nl ++
  "-- +down" ++ nl ++
  "-- SQL statements for migration DOWN go here" ++ nl.

Fixpoint has_char (c : ascii) (s : string) : bool :=
  match s with
  | "" => false
  | String c' s' => Ascii.eqb c' c || has_char c s'
  end.

Definition hasEntry (dir : list DirEntry) (name : string) : bool :=
  existsb (fun e => String.eqb (entryName e) name) dir.

(** Writing over the entry of a name: a directory cannot be written. *)
Fixpoint replaceEntry (dir : list DirEntry) (name content : string)
  : option (list DirEntry) :=
  match dir with
  | [] => Some []
  | e :: dir' =>
      if String.eqb (entryName e) name
      then if IsDir e then None else Some (file name content :: dir')
      else match replaceEntry dir' name content with
           | Some dir'' => Some (e :: dir'')
           | None => None
           end
  end.

(** A new entry takes its place in the order of the names, which is the
    order in which [os.ReadDir] enumerates. *)
Fixpoint insertEntry (new : DirEntry) (dir : list DirEntry) : list DirEntry :=
  match dir with
  | [] => [new]
  | e :: dir' =>
      if String.ltb (entryName new) (entryName e) then new :: dir
      else e :: insertEntry new dir'
  end.

(** [os.WriteFile] below [migrationDir]: the file is created, or
    truncated and written again. *)
Definition WriteFile (dir : list DirEntry) (name content : string)
  : option (list DirEntry) :=
  if hasEntry dir name then replaceEntry dir name content
  else Some (insertEntry (file name content) dir).

Inductive CreateResult : Type :=
| Created (path : string)
| CreateFailed (path : string).

(** [createMigrationFile]. [ts] is [time.Now().Format("20060102150405")].
    The directory is flat in the model: a file name with a path separator
    leaves it, and a name with a NUL or of more than 255 bytes is one that
    the usual file systems refuse; for these the model says nothing
    ([None]). [os.MkdirAll] finds the directory, or makes it. *)
Definition createMigrationFile (ts name : string) (dir : list DirEntry)
  : option (CreateResult * list DirEntry) :=
  let safeName := ReplaceAll name " " "_" in
  let filename := ts ++ "_" ++ safeName ++ ".sql" in
  if has_char "/" filename || has_char "000" filename
     || (255 <? String.length filename)%nat
  then None
  else
    match WriteFile dir filename template with
    | Some dir' => Some (Created filename, dir')
    | None => Some (CreateFailed filename, dir)
    end.

(** ** fmt.Sscanf with the format [%d] *)

(** [SkipSpace]: white space is passed over, but a newline is an error
    ([None]) when the format has none. *)
Fixpoint skipSpace (fuel : nat) (s : string) : option string :=
  match fuel with
  | O => Some s
  | S fuel' =>
      if HasPrefix s nl then None
      else
        match find (fun w => HasPrefix s w) spaces with
        | Some w => skipSpace fuel' (string_drop (String.length w) s)
        | None => Some s
        end
  end.

Definition is_sign (c : ascii) : bool := Ascii.eqb c "+" || Ascii.eqb c "-".

(** [fmt.Sscanf(s, "%d", &v)] on a zero [v], with the error dropped: the
    value scanned, or zero when the scan fails. After the leading white
    space, [scanInt] accepts one sign and [scanNumber] the longest run of
    decimal digits, which must not be empty; what follows the digits is
    not looked at. [strconv.ParseInt] then refuses the token only when the
    number does not fit an [int64]. *)
Definition Sscanf_d (s : string) : Z :=
  match skipSpace (String.length s) s with
  | None => 0%Z
  | Some s1 =>
      let (negative, s2) :=
        match s1 with
        | String c rest => if is_sign c then (Ascii.eqb c "-", rest) else (false, s1)
        | "" => (false, "")
        end in
      let (tok, _) := span_digits s2 in
      match tok with
      | "" => 0%Z
      | _ =>
          let v := decimal_value 0 tok in
          let v := if negative then (- v)%Z else v in
          if ((- 2 ^ 63 <=? v) && (v <? 2 ^ 63))%Z then v else 0%Z
      end
  end.

(** ** main *)

Inductive MainExit : Type :=
| UsageMain
| UsageCreate
| UsageUpTo
| MissingDSN
| ConnectError
| EnsureTableError
| UnknownCommand (cmd : string)
| CreateRan (r : CreateResult)
| CommandRan (o : Outcome)
| InfoShown (lines : Fatal + list InfoLine).

Section Main.

(** What [main] takes from outside: whether [sql.Open] takes the DSN,
    whether [ensureMigrationTable] goes through on the database, the
    collaborator of the engine, and the time stamp for [create]. *)
Variable opens : string -> bool.
Variable ensures : DB -> bool.
Variable accepts : DB -> Statement -> bool.
Variable now : DB -> Z.
Variable timestamp : string.

(** [main], after [flag.Parse]: [dsn] is the value of the flag (or of
    [DATABASE_URL]) and [args] is [flag.Args()]. The table of the model
    exists, so that [ensureMigrationTable] changes nothing. *)
Definition main (dsn : string) (args : list string) (dir : list DirEntry) (db : DB)
  : option (MainExit * list DirEntry * DB) :=
  match args with
  | [] => Some (UsageMain, dir, db)
  | cmd :: rest =>
      if String.eqb cmd "create"
      then match rest with
           | [] => Some (UsageCreate, dir, db)
           | name :: _ =>
               match createMigrationFile timestamp name dir with
               | Some (r, dir') => Some (CreateRan r, dir', db)
               | None => None
               end
           end
      else if String.eqb dsn "" then Some (MissingDSN, dir, db)
      else if negb (opens dsn) then Some (ConnectError, dir, db)
      else if negb (ensures db) then Some (EnsureTableError, dir, db)
      else if String.eqb cmd "up"
      then let (o, db') := applyMigrations accepts now dir false [] db in
           Some (CommandRan o, dir, db')
      else if String.eqb cmd "up-to"
      then match rest with
           | [] => Some (UsageUpTo, dir, db)
           | arg :: _ =>
               let version := Sscanf_d arg in
               let (o, db') := applyMigrations accepts now dir true [version] db in
               Some (CommandRan o, dir, db')
           end
      else if String.eqb cmd "down"
      then let (o, db') := rollbackLastMigration accepts dir db in
           Some (CommandRan o, dir, db')
      else if String.eqb cmd "info"
      then Some (InfoShown (showMigrationInfo dir db), dir, db)
      else Some (UnknownCommand cmd, dir, db)
  end.

End Main.

(** ** Vocabulary of the further statements *)

(** [sep] occurs in [s]. *)
Definition contains (sep s : string) : Prop :=
  exists a b, s = a ++ sep ++ b.

(** [s] neither starts nor ends with white space. *)
Definition trimmed (s : string) : Prop :=
  forall w, In w spaces -> forall t, s <> w ++ t /\ s <> t ++ w.

(** The version token is the decimal rendering of a number that fits an
    [int64]: no leading zero, unless it is [0] itself. *)
Definition canonical (token : string) : Prop :=
  (token = "0" \/ exists c t, token = String c t /\ c <> "0"%char) /\
  (decimal_value 0 token < 2 ^ 63)%Z.

(** A row, a statement and a database without the times of the rows,
    and two databases that differ at most by these times. *)
Definition untimed (r : Row) : Row :=
  {| rowName := rowName r; rowChecksum := rowChecksum r; rowAppliedAt := 0 |}.

Definition untimedStatement (st : Statement) : Statement :=
  match st with
  | InsertRow v r => InsertRow v (untimed r)
  | _ => st
  end.

Definition untimedDB (db : DB) : DB :=
  {| history := untimed <$> history db; trace := map untimedStatement (trace db) |}.

Definition sameButTime (db db' : DB) : Prop := untimedDB db = untimedDB db'.

(** An execution collaborator that does not look at the times of the
    rows. *)
Definition timeless (accepts : DB -> Statement -> bool) : Prop :=
  forall db db' st st',
    sameButTime db db' -> untimedStatement st = untimedStatement st' ->
    accepts db st = accepts db' st'.

(** ** Further scenarios *)

(** The migrations of the files [fileA] to [fileD], written out, and the
    databases on which they have been applied, written out: each
    migration leaves its script and the insertion of its row in the
    trace, and its row in the table. *)
Definition recordOf (v : Z) (name up down : string) : Migration :=
  {| Version := v; Name := name; UpSQL := up; DownSQL := down;
     Checksum := sha256_hex (script up down) |}.

Definition recordA : Migration := recordOf 1 "a" "CREATE a" "DROP a".
Definition recordB : Migration := recordOf 2 "b" "CREATE b" "DROP b".
Definition recordC : Migration := recordOf 3 "c" "CREATE c" "DROP c".
Definition recordD : Migration := recordOf 4 "d" "CREATE d" "DROP d".
Definition recordX : Migration := recordOf 1 "x" "CREATE x" "DROP x".

Definition appliedAt (db : DB) (m : Migration) (t : Z) : DB :=
  {| history := <[Version m := rowOf m t]> (history db);
     trace := trace db ++ [Script (UpSQL m); InsertRow (Version m) (rowOf m t)] |}.

Definition dbA : DB := appliedAt emptyDB recordA 1.
Definition dbABC : DB := appliedAt (appliedAt dbA recordB 3) recordC 5.
Definition dbX : DB := appliedAt emptyDB recordX 1.

(** The clock of a later invocation. *)
Definition laterClock : DB -> Z := fun db => (1000 + Z.of_nat (length (trace db)))%Z.

(** The file [000001_x.sql], and beside it a file that carries the name
    which [down] makes up for version 1 and the name [x]. *)
Definition dirPaddedPlain : list DirEntry :=
  [ file "000001_x.sql" (script "CREATE x" "DROP x");
    file "1_x.sql" (script "CREATE y" "DROP y") ].


Definition dirCreated : list DirEntry :=
  match createMigrationFile "20251108001546" "add users table" dir12 with
  | Some (_, dir) => dir
  | None => []
  end.

(** A directory with a subdirectory and a file that is no migration. *)
Definition dirMixed : list DirEntry :=
  [ fileA;
    {| entryName := "archive.sql"; IsDir := true; entryData := "" |};
    file "README.md" "notes";
    fileB ].

Definition dirDotted : list DirEntry :=
  match createMigrationFile "20251108001546" "add users.table" dir12 with
  | Some (_, dir) => dir
  | None => []
  end.

(** A database that refuses the forward script of version 3, and what
    [up] leaves on it. *)
Definition refuseCreateC : DB -> Statement -> bool :=
  fun _ st => match st with Script sql => negb (String.eqb sql "CREATE c") | _ => true end.
Definition dbFailed : DB := (up refuseCreateC clock dir1234 emptyDB).2.

(** A directory with a file that is named like no migration. *)
Definition notes : DirEntry := file "notes.sql" "remember".
Definition dirNotes : list DirEntry := [fileA; fileB; fileC; notes].

(** The files of versions 1 and 2 both edited after they were applied. *)
Definition dirEdited12 : list DirEntry :=
  [ file "2_b.sql" (script "CREATE b" "DROP a");
    file "1_a.sql" (script "CREATE a" "DROP b") ].


(** * Properties *)

Local Open Scope list_scope.

(** ** crypto/sha256 against the published test vectors *)

Example sha256_constants :
  length SHA256.K = 64%nat /\
  hd 0%Z SHA256.K = 0x428a2f98%Z /\ last SHA256.K = Some 0xc67178f2%Z /\
  SHA256.sa SHA256.init = 0x6a09e667%Z /\ SHA256.sh SHA256.init = 0x5be0cd19%Z.
Proof. vm_compute. done. Qed.

Example sha256_empty :
  sha256_hex "" = "e3b0c44298fc1c149afbf4c8996fb92427ae41e4649b934ca495991b7852b855".
Proof. vm_compute. reflexivity. Qed.

Example sha256_abc :
  sha256_hex "abc" = "ba7816bf8f01cfea414140de5dae2223b00361a396177a9cb410ff61f20015ad".
Proof. vm_compute. reflexivity. Qed.

Example sha256_two_blocks :
  sha256_hex "abcdbcdecdefdefgefghfghighijhijkijkljklmklmnlmnomnopnopq"
  = "248d6a61d20638b8e5c026930c3e6039a33ce45964ff2167f6ecedd419db06c1".
Proof. vm_compute. reflexivity. Qed.





(** ** sort.Slice *)

Lemma insertByVersion_perm m l : Permutation (insertByVersion m l) (m :: l).
Proof.
  induction l as [|m' l IH]; simpl; [done|].
  destruct (Version m <? Version m')%Z; [done|].
  rewrite IH. apply perm_swap.
Qed.

Lemma insertByVersion_sorted m l : ascending l -> ascending (insertByVersion m l).
Proof.
  unfold ascending. induction l as [|m' l IH]; simpl; intros Hs.
  - repeat constructor.
  - apply StronglySorted_inv in Hs as [Hs Hall].
    destruct (Version m <? Version m')%Z eqn:Hlt.
    + apply Z.ltb_lt in Hlt. constructor; [by constructor|].
      constructor; [lia|]. eapply Forall_impl; [exact Hall|]. simpl. intros; lia.
    + apply Z.ltb_ge in Hlt. constructor; [by apply IH|].
      eapply Permutation_Forall; [symmetry; apply insertByVersion_perm|].
      by constructor.
Qed.

Lemma sortFrom_perm ms acc :
  Permutation (fold_left (fun sorted m => insertByVersion m sorted) ms acc) (ms ++ acc).
Proof.
  revert acc. induction ms as [|m ms IH]; intros acc; simpl; [done|].
  rewrite IH, insertByVersion_perm. by rewrite Permutation_middle.
Qed.

Lemma sortFrom_sorted ms acc :
  ascending acc ->
  ascending (fold_left (fun sorted m => insertByVersion m sorted) ms acc).
Proof.
  revert acc. induction ms as [|m ms IH]; intros acc Hacc; simpl; [done|].
  by apply IH, insertByVersion_sorted.
Qed.

Lemma sortSlice_perm ms : Permutation (sortSlice ms) ms.
Proof. unfold sortSlice. rewrite sortFrom_perm. by rewrite app_nil_r. Qed.

Lemma sortSlice_sorted ms : ascending (sortSlice ms).
Proof. apply sortFrom_sorted. constructor. Qed.

Lemma loadMigrations_sorted dir ms : loadMigrations dir = Ok ms -> ascending ms.
Proof.
  unfold loadMigrations. destruct (parseEntries dir dir); [|done].
  intros [= <-]. apply sortSlice_sorted.
Qed.

(** ** Strings *)

Lemma string_drop_app (a b : string) :
  string_drop (String.length a) (a ++ b)%string = b.
Proof. induction a as [|c a IH]; simpl; [by destruct b|done]. Qed.

Lemma string_length_app (a b : string) :
  String.length (a ++ b)%string = (String.length a + String.length b)%nat.
Proof. induction a as [|c a IH]; simpl; [done|]. by rewrite IH. Qed.

Lemma string_take_app (a b : string) :
  string_take (String.length a) (a ++ b)%string = a.
Proof.
  unfold string_take. induction a as [|c a IH]; simpl; [by destruct b|].
  by rewrite IH.
Qed.

Lemma HasSuffix_app (a suffix : string) : HasSuffix (a ++ suffix)%string suffix = true.
Proof.
  unfold HasSuffix. rewrite string_length_app.
  replace (String.length a + String.length suffix - String.length suffix)%nat
    with (String.length a) by lia.
  rewrite string_drop_app, String.eqb_refl, andb_true_r.
  apply Nat.leb_le. lia.
Qed.

Lemma span_digits_app (ds rest : string) (c : ascii) :
  all_digits ds = true -> is_digit c = false ->
  span_digits (ds ++ String c rest)%string = (ds, String c rest).
Proof.
  intros Hds Hc. induction ds as [|d ds IH]; simpl in *.
  - by rewrite Hc.
  - apply andb_true_iff in Hds as [Hd Hds]. by rewrite Hd, IH.
Qed.

(** The pattern on a name made of a token of digits, [_], a name and
    [.sql]. *)
Lemma FindStringSubmatch_digits (token name : string) :
  all_digits token = true -> token <> ""%string ->
  FindStringSubmatch (token ++ "_" ++ name ++ ".sql")%string =
  if (0 <? String.length name)%nat && no_dot name
  then [(token ++ "_" ++ name ++ ".sql")%string; token; name]
  else [].
Proof.
  intros Hds Hne. unfold FindStringSubmatch.
  change ("_" ++ name ++ ".sql")%string with (String "_" (name ++ ".sql")).
  rewrite span_digits_app by done.
  destruct token as [|d ds]; [done|].
  rewrite HasSuffix_app, string_length_app. simpl String.length.
  replace (String.length name + 4 - 4)%nat with (String.length name) by lia.
  by rewrite string_take_app.
Qed.

(** ** Decimal numbers *)

Lemma string_of_uint_digits d : all_digits (NilEmpty.string_of_uint d) = true.
Proof. induction d; simpl; done. Qed.

Lemma decimal_value_acc d acc :
  decimal_value (Z.pos acc) (NilEmpty.string_of_uint d) = Z.pos (Pos.of_uint_acc d acc).
Proof.
  revert acc. induction d; intros acc;
    cbn [NilEmpty.string_of_uint decimal_value Pos.of_uint_acc]; [done|..].
  all: rewrite <- IHd; f_equal.
  all: match goal with
       | |- context [digit_value ?c] =>
           let v := eval vm_compute in (digit_value c) in
           change (digit_value c) with v
       end.
  all: lia.
Qed.

Lemma decimal_value_of_uint d :
  decimal_value 0 (NilEmpty.string_of_uint d) = Z.of_N (Pos.of_uint d).
Proof.
  induction d; cbn [NilEmpty.string_of_uint decimal_value Pos.of_uint];
    [done|exact IHd|..].
  all: apply (decimal_value_acc d).
Qed.

Lemma decimal_value_nonneg s acc :
  all_digits s = true -> (0 <= acc)%Z -> (0 <= decimal_value acc s)%Z.
Proof.
  revert acc. induction s as [|c s IH]; simpl; intros acc Hds Hacc; [done|].
  apply andb_true_iff in Hds as [Hc Hds]. apply IH; [done|].
  unfold is_digit in Hc. apply andb_true_iff in Hc as [Hlo _].
  apply Nat.leb_le in Hlo. unfold digit_value. lia.
Qed.

Lemma parseInt64_range token :
  all_digits token = true -> (0 <= parseInt64 token < 2 ^ 63)%Z.
Proof.
  intros Hds. unfold parseInt64.
  pose proof (decimal_value_nonneg token 0 Hds ltac:(lia)).
  destruct (decimal_value 0 token <? 2 ^ 63)%Z eqn:Hlt; [|lia].
  apply Z.ltb_lt in Hlt. lia.
Qed.

(** The rendering of a number that is not negative: digits that read back
    as the number, the first of which is [0] only for zero itself. *)
Lemma FormatInt_nonneg v :
  (0 <= v)%Z ->
  exists d, FormatInt v = NilEmpty.string_of_uint d /\ d <> Decimal.Nil /\
            Z.of_N (Pos.of_uint d) = v /\ Decimal.unorm d = d.
Proof.
  intros Hv. unfold FormatInt. destruct v as [|p|p]; [| |lia].
  - exists Decimal.zero. by repeat split.
  - exists (Pos.to_uint p). pose proof (Unsigned.to_uint_nonnil p) as Hnn.
    simpl. unfold NilZero.string_of_uint.
    repeat split.
    + by destruct (Pos.to_uint p).
    + done.
    + by rewrite DecimalPos.Unsigned.of_to.
    + rewrite <- DecimalPos.Unsigned.to_of, DecimalPos.Unsigned.of_to. done.
Qed.

Lemma FormatInt_negative v : (v < 0)%Z -> exists s, FormatInt v = String "-" s.
Proof.
  intros Hv. destruct v as [|p|p]; [lia|lia|].
  unfold FormatInt. simpl. by eexists.
Qed.

Lemma FormatInt_digits v :
  (0 <= v)%Z -> all_digits (FormatInt v) = true /\ FormatInt v <> ""%string.
Proof.
  intros Hv. destruct (FormatInt_nonneg v Hv) as (d & -> & Hnn & _).
  split; [apply string_of_uint_digits|]. by destruct d.
Qed.

Lemma parseInt64_FormatInt v :
  (0 <= v < 2 ^ 63)%Z -> parseInt64 (FormatInt v) = v.
Proof.
  intros Hv. destruct (FormatInt_nonneg v) as (d & -> & _ & Hval & _); [lia|].
  unfold parseInt64. rewrite decimal_value_of_uint, Hval.
  destruct (v <? 2 ^ 63)%Z eqn:Hlt; [done|]. apply Z.ltb_ge in Hlt. lia.
Qed.

Lemma nzhead_not_D0 d u : Decimal.nzhead d <> Decimal.D0 u.
Proof. induction d; simpl; done. Qed.

Lemma FormatInt_leading_zero v s :
  (0 <= v)%Z -> FormatInt v = String "0" s -> s = ""%string.
Proof.
  intros Hv. destruct (FormatInt_nonneg v Hv) as (d & -> & Hnn & _ & Hnorm).
  destruct d; simpl; try done. intros [= <-].
  unfold Decimal.unorm in Hnorm. simpl in Hnorm.
  destruct (Decimal.nzhead d) eqn:Hd; try done.
  - by injection Hnorm as <-.
  - by apply nzhead_not_D0 in Hd.
Qed.

(** ** File names of migrations *)

Lemma FindStringSubmatch_migrationFilename v name :
  FindStringSubmatch (migrationFilename v name) =
  if (0 <=? v)%Z && (0 <? String.length name)%nat && no_dot name
  then [migrationFilename v name; FormatInt v; name]
  else [].
Proof.
  unfold migrationFilename. destruct (0 <=? v)%Z eqn:Hv.
  - apply Z.leb_le in Hv. destruct (FormatInt_digits v Hv) as [Hds Hne].
    by rewrite FindStringSubmatch_digits.
  - apply Z.leb_gt in Hv. destruct (FormatInt_negative v Hv) as [s ->]. done.
Qed.

Lemma string_app_assoc (a b c : string) :
  ((a ++ b) ++ c)%string = (a ++ b ++ c)%string.
Proof.
  induction a as [|x a IH]; [done|].
  change (String x ((a ++ b) ++ c)%string = String x (a ++ b ++ c)%string).
  by rewrite IH.
Qed.

Lemma HasSuffix_sql (token name : string) :
  HasSuffix (token ++ "_" ++ name ++ ".sql")%string ".sql" = true.
Proof.
  rewrite <- (string_app_assoc "_" name ".sql"), <- string_app_assoc.
  apply HasSuffix_app.
Qed.

Lemma nameVersion_digits token name :
  all_digits token = true -> token <> ""%string ->
  (0 <? String.length name)%nat && no_dot name = true ->
  nameVersion (token ++ "_" ++ name ++ ".sql")%string = parseInt64 token.
Proof.
  intros Hds Hne Hname. unfold nameVersion.
  by rewrite FindStringSubmatch_digits, Hname.
Qed.

(** ** The reader *)

Lemma readFile_Ok dir path content :
  readFile dir path = Ok content ->
  exists e, In e dir /\ entryName e = path /\ IsDir e = false /\ entryData e = content.
Proof.
  induction dir as [|e dir IH]; simpl; [done|].
  destruct (String.eqb (entryName e) path) eqn:Heq.
  - apply String.eqb_eq in Heq. destruct (IsDir e) eqn:Hd; [done|].
    intros [= <-]. exists e. by repeat split; [left|..].
  - intros H. destruct (IH H) as (e' & ? & ?). exists e'. by split; [right|].
Qed.

Lemma readFile_Err dir path e : readFile dir path = Err e -> e = ErrRead path.
Proof.
  induction dir as [|e' dir IH]; simpl; [by intros [= <-]|].
  destruct (String.eqb (entryName e') path); [|done].
  destruct (IsDir e'); [by intros [= <-]|done].
Qed.

Lemma readFile_missing dir path :
  (forall e, In e dir -> entryName e <> path) ->
  readFile dir path = Err (ErrRead path).
Proof.
  induction dir as [|e dir IH]; simpl; intros H; [done|].
  destruct (String.eqb (entryName e) path) eqn:Heq.
  - apply String.eqb_eq in Heq. destruct (H e); [by left|done].
  - apply IH. intros e' Hin. apply H. by right.
Qed.

Lemma parseMigrationFile_Ok dir path m :
  parseMigrationFile dir path = Ok m ->
  exists content token name before after,
    readFile dir path = Ok content /\
    FindStringSubmatch path = [path; token; name] /\
    cut "-- +down" content = Some (before, after) /\
    m = {| Version := parseInt64 token;
           Name := name;
           UpSQL := TrimSpace (ReplaceAll before "-- +up" "");
           DownSQL := TrimSpace after;
           Checksum := EncodeToString (SHA256.Sum256 (bytes_of_string content)) |}.
Proof.
  unfold parseMigrationFile.
  destruct (readFile dir path) as [content|] eqn:Hread; [|done].
  assert (Hshape : FindStringSubmatch path = []
                   \/ exists token name, FindStringSubmatch path = [path; token; name]).
  { unfold FindStringSubmatch. destruct (span_digits path) as [[|d ds] [|c rest]]; auto.
    destruct (Ascii.eqb c "_") eqn:Hc.
    - apply Ascii.eqb_eq in Hc as ->.
      destruct (HasSuffix rest ".sql" && _ && _); eauto.
    - left. destruct c as [[] [] [] [] [] [] [] []]; try done. }
  destruct Hshape as [->|(token & name & ->)]; [done|].
  unfold SplitN2.
  destruct (cut "-- +down" content) as [[before after]|] eqn:Hcut; [|done].
  intros [= <-]. by exists content, token, name, before, after.
Qed.

Lemma parseMigrationFile_version dir path m :
  parseMigrationFile dir path = Ok m -> Version m = nameVersion path.
Proof.
  intros (content & token & name & before & after & _ & Hre & _ & ->)%parseMigrationFile_Ok.
  unfold nameVersion. by rewrite Hre.
Qed.

Lemma parseEntries_versions dir entries ms :
  parseEntries dir entries = Ok ms ->
  versions ms
  = map (fun e => nameVersion (entryName e)) (List.filter isMigrationEntry entries).
Proof.
  revert ms. induction entries as [|e entries IH]; simpl; intros ms.
  { by intros [= <-]. }
  unfold isMigrationEntry at 1.
  destruct (IsDir e || negb (HasSuffix (entryName e) ".sql")); simpl; [by apply IH|].
  destruct (parseMigrationFile dir (entryName e)) as [m|] eqn:Hm; [|done].
  destruct (parseEntries dir entries) as [ms'|]; [|done].
  intros [= <-]. unfold versions in *. simpl.
  by rewrite (parseMigrationFile_version _ _ _ Hm), (IH ms').
Qed.

Lemma loadMigrations_versions dir ms :
  loadMigrations dir = Ok ms ->
  Permutation (versions ms)
    (map (fun e => nameVersion (entryName e)) (List.filter isMigrationEntry dir)).
Proof.
  unfold loadMigrations. destruct (parseEntries dir dir) as [ms'|] eqn:Hp; [|done].
  intros [= <-]. rewrite <- (parseEntries_versions _ _ _ Hp).
  apply Permutation_map, sortSlice_perm.
Qed.

Lemma NoDup_map_inj {A B} (f : A -> B) (l : list A) x y :
  List.NoDup (map f l) -> In x l -> In y l -> f x = f y -> x = y.
Proof.
  induction l as [|a l IH]; simpl; [done|].
  intros [Hnotin Hnd]%NoDup_cons_iff [<-|Hx] [<-|Hy] Heq; try done.
  - destruct Hnotin. rewrite Heq. by apply in_map.
  - destruct Hnotin. rewrite <- Heq. by apply in_map.
  - by apply IH.
Qed.

(** ** The files behind the slice *)

Lemma parseEntries_Ok dir entries ms :
  parseEntries dir entries = Ok ms <->
  Forall2 (fun e m => parseMigrationFile dir (entryName e) = Ok m)
          (List.filter isMigrationEntry entries) ms.
Proof.
  revert ms. induction entries as [|e entries IH]; intros ms; simpl.
  - split; [intros [= <-]; constructor|]. by inversion 1.
  - unfold isMigrationEntry at 1.
    destruct (IsDir e || negb (HasSuffix (entryName e) ".sql")); simpl; [apply IH|].
    destruct (parseMigrationFile dir (entryName e)) as [m|err] eqn:Hm.
    + destruct (parseEntries dir entries) as [ms'|err] eqn:Hrest.
      * split.
        -- intros [= <-]. constructor; [done|]. by apply IH.
        -- inversion 1 as [|? m' ? ms'' Hm' Hrest']; subst.
           apply IH in Hrest'. congruence.
      * split; [done|]. inversion 1 as [|? m' ? ms'' Hm' Hrest']; subst.
        by apply IH in Hrest'.
    + split; [done|]. inversion 1; congruence.
Qed.

Lemma Forall2_In_r {A B} (R : A -> B -> Prop) l k y :
  Forall2 R l k -> In y k -> exists x, In x l /\ R x y.
Proof.
  induction 1 as [|x y' l k HR HF IH]; simpl; [done|].
  intros [<-|Hin]; [exists x; by split; [left|]|].
  destruct (IH Hin) as (x' & ? & ?). exists x'. by split; [right|].
Qed.

Lemma Forall2_In_l {A B} (R : A -> B -> Prop) l k x :
  Forall2 R l k -> In x l -> exists y, In y k /\ R x y.
Proof.
  induction 1 as [|x' y l k HR HF IH]; simpl; [done|].
  intros [<-|Hin]; [exists y; by split; [left|]|].
  destruct (IH Hin) as (y' & ? & ?). exists y'. by split; [right|].
Qed.

(** The slice that [loadMigrations] returns holds the parses of the
    regular files of the directory whose name ends in [.sql], and nothing
    else. *)
Lemma loadMigrations_files dir ms :
  loadMigrations dir = Ok ms ->
  forall m,
    In m ms <->
    exists e, In e dir /\ isMigrationEntry e = true /\
              parseMigrationFile dir (entryName e) = Ok m.
Proof.
  unfold loadMigrations. destruct (parseEntries dir dir) as [ms0|] eqn:Hp; [|done].
  intros [= <-] m. apply parseEntries_Ok in Hp.
  pose proof (sortSlice_perm ms0) as Hperm. split.
  - intros Hin. apply (Permutation_in _ Hperm) in Hin.
    destruct (Forall2_In_r _ _ _ _ Hp Hin) as (e & [He Hmig]%filter_In & Hm).
    by exists e.
  - intros (e & He & Hmig & Hm).
    apply (Permutation_in _ (Permutation_sym Hperm)).
    destruct (Forall2_In_l _ _ _ e Hp) as (m' & Hin & Hm'); [by apply filter_In|].
    congruence.
Qed.

(** ** The order of enumeration *)

Lemma readFile_perm dir dir' path :
  Permutation dir dir' -> List.NoDup (map entryName dir) ->
  readFile dir path = readFile dir' path.
Proof.
  induction 1 as [|e l l' Hp IH|e1 e2 l|l l' l'' Hp1 IH1 Hp2 IH2]; simpl; intros Hnd.
  - done.
  - apply NoDup_cons_iff in Hnd as [_ Hnd]. by rewrite IH.
  - apply NoDup_cons_iff in Hnd as [Hnotin _].
    destruct (String.eqb (entryName e1) path) eqn:H1;
      destruct (String.eqb (entryName e2) path) eqn:H2; try done.
    apply String.eqb_eq in H1, H2. destruct Hnotin. left. congruence.
  - rewrite IH1 by done. apply IH2.
    eapply Permutation_NoDup; [|exact Hnd]. by apply Permutation_map.
Qed.

Lemma parseEntries_dir dir dir' entries :
  (forall path, readFile dir path = readFile dir' path) ->
  parseEntries dir entries = parseEntries dir' entries.
Proof.
  intros Hread. induction entries as [|e entries IH]; simpl; [done|].
  rewrite IH. unfold parseMigrationFile. by rewrite Hread.
Qed.

Lemma parseEntries_perm dir entries entries' ms :
  Permutation entries entries' ->
  parseEntries dir entries = Ok ms ->
  exists ms', parseEntries dir entries' = Ok ms' /\ Permutation ms ms'.
Proof.
  intros Hp. revert ms.
  induction Hp as [|e l l' Hp IH|e1 e2 l|l l' l'' Hp1 IH1 Hp2 IH2]; simpl; intros ms.
  - intros [= <-]. by exists [].
  - destruct (IsDir e || negb (HasSuffix (entryName e) ".sql")); [by apply IH|].
    destruct (parseMigrationFile dir (entryName e)) as [m|]; [|done].
    destruct (parseEntries dir l) as [ms0|]; [|done].
    intros [= <-]. destruct (IH ms0 eq_refl) as (ms' & -> & Hperm).
    exists (m :: ms'). split; [done|]. by constructor.
  - destruct (IsDir e1 || negb (HasSuffix (entryName e1) ".sql"));
      destruct (IsDir e2 || negb (HasSuffix (entryName e2) ".sql"));
      destruct (parseMigrationFile dir (entryName e1)) as [m1|];
      destruct (parseMigrationFile dir (entryName e2)) as [m2|];
      destruct (parseEntries dir l) as [ms0|]; try done;
      intros [= <-]; eexists; (split; [done|]); try done.
    apply perm_swap.
  - intros H. destruct (IH1 _ H) as (ms1 & H1 & Hperm1).
    destruct (IH2 _ H1) as (ms2 & H2 & Hperm2).
    exists ms2. split; [done|]. by etrans.
Qed.

(** A sorted slice without repeated versions is determined by its
    elements. *)
Lemma ascending_unique l l' :
  ascending l -> ascending l' -> Permutation l l' ->
  List.NoDup (versions l) -> l = l'.
Proof.
  unfold ascending. intros Hs. revert l'.
  induction Hs as [|m l Hs IH Hall]; intros l' Hs' Hperm Hnd.
  - by apply Permutation_nil in Hperm.
  - destruct Hs' as [|m' l' Hs' Hall'].
    + symmetry in Hperm. by apply Permutation_nil in Hperm.
    + assert (m' = m) as ->.
      { assert (Hin' : In m' (m :: l)).
        { eapply Permutation_in; [symmetry; exact Hperm|]. by left. }
        assert (Hin : In m (m' :: l')).
        { eapply Permutation_in; [exact Hperm|]. by left. }
        apply (NoDup_map_inj Version (m :: l)); [done|done|by left|].
        rewrite List.Forall_forall in Hall, Hall'.
        destruct Hin' as [->|Hin']; [done|]. destruct Hin as [->|Hin]; [done|].
        pose proof (Hall _ Hin'). pose proof (Hall' _ Hin). lia. }
      f_equal. apply IH; [done|by eapply Permutation_cons_inv|].
      unfold versions in Hnd. simpl in Hnd. by apply NoDup_cons_iff in Hnd as [_ ?].
Qed.

(** With entry names and versions pairwise distinct, the slice that
    [loadMigrations] returns does not depend on the order in which the
    directory is enumerated. *)
Lemma loadMigrations_perm dir dir' ms :
  Permutation dir dir' -> List.NoDup (map entryName dir) ->
  loadMigrations dir = Ok ms -> List.NoDup (versions ms) ->
  loadMigrations dir' = Ok ms.
Proof.
  unfold loadMigrations. intros Hperm Hnames.
  destruct (parseEntries dir dir) as [ms0|] eqn:Hp; [|done].
  intros [= <-] Hnd.
  destruct (parseEntries_perm _ _ _ _ Hperm Hp) as (ms' & Hp' & Hperm').
  rewrite <- (parseEntries_dir dir dir') by (intros; by apply readFile_perm).
  rewrite Hp'. f_equal. symmetry.
  apply ascending_unique; [apply sortSlice_sorted..| |done].
  rewrite !sortSlice_perm. done.
Qed.

(** ** The checksum *)


(** ** The history table *)

Lemma applied_None db v :
  appliedMigrations db !! v = None <-> history db !! v = None.
Proof. unfold appliedMigrations. rewrite lookup_fmap. apply fmap_None. Qed.

Lemma applied_Some db v c :
  appliedMigrations db !! v = Some c <->
  exists r, history db !! v = Some r /\ rowChecksum r = c.
Proof.
  unfold appliedMigrations. rewrite lookup_fmap, fmap_Some.
  split; intros (r & ? & ?); exists r; by split.
Qed.

Lemma pendingIn_true db m :
  pendingIn (appliedMigrations db) m = true <-> history db !! Version m = None.
Proof.
  unfold pendingIn. rewrite <- applied_None.
  destruct (appliedMigrations db !! Version m); naive_solver.
Qed.

(** ** The highest row *)

Lemma fold_higherRow l best :
  match fold_left higherRow l best with
  | None => best = None /\ l = []
  | Some (v, r) =>
      (best = Some (v, r) \/ In (v, r) l) /\
      (forall kv, In kv l -> (kv.1 <= v)%Z) /\
      (forall kv, best = Some kv -> (kv.1 <= v)%Z)
  end.
Proof.
  revert best. induction l as [|kv l IH]; intros best; simpl.
  - destruct best as [[v r]|]; [|done].
    repeat split; [by left|done|]. intros kv [= <-]. simpl. lia.
  - specialize (IH (higherRow best kv)).
    destruct (fold_left higherRow l (higherRow best kv)) as [[v r]|].
    + destruct IH as (Hwhere & Hmax & Hbest). unfold higherRow in *.
      destruct best as [[v0 r0]|].
      * destruct (v0 <? kv.1)%Z eqn:Hlt.
        -- apply Z.ltb_lt in Hlt. pose proof (Hbest kv eq_refl).
           repeat split.
           ++ destruct Hwhere as [[= <-]|?]; right; [left; by destruct kv|by right].
           ++ intros kv' [<-|Hin]; [done|by apply Hmax].
           ++ intros kv' [= <-]. simpl. lia.
        -- apply Z.ltb_ge in Hlt. pose proof (Hbest (v0, r0) eq_refl) as Hle.
           simpl in Hle. repeat split.
           ++ destruct Hwhere as [?|?]; [by left|by right; right].
           ++ intros kv' [<-|Hin]; [lia|by apply Hmax].
           ++ intros kv' [= <-]. done.
      * pose proof (Hbest kv eq_refl). repeat split.
        -- destruct Hwhere as [[= <-]|?]; right; [left; by destruct kv|by right].
        -- intros kv' [<-|Hin]; [done|by apply Hmax].
        -- done.
    + destruct IH as [Hbest _]. unfold higherRow in Hbest.
      destruct best as [[v0 r0]|]; [|done]. by destruct (v0 <? kv.1)%Z.
Qed.

Lemma lastRow_None (h : gmap Z Row) : lastRow h = None <-> h = ∅.
Proof.
  unfold lastRow. pose proof (fold_higherRow (map_to_list h) None) as Hfold.
  split.
  - intros Hnone. rewrite Hnone in Hfold. apply map_to_list_empty_iff. by destruct Hfold.
  - intros ->. by rewrite map_to_list_empty.
Qed.

Lemma lastRow_Some (h : gmap Z Row) v r : lastRow h = Some (v, r) -> highest h v r.
Proof.
  unfold lastRow. pose proof (fold_higherRow (map_to_list h) None) as Hfold.
  intros Hsome. rewrite Hsome in Hfold. destruct Hfold as ([?|Hin] & Hmax & _); [done|].
  split.
  - by apply elem_of_map_to_list, list_elem_of_In.
  - intros v' [r' Hr']. apply (Hmax (v', r')).
    by apply list_elem_of_In, elem_of_map_to_list.
Qed.

Lemma highest_lastRow (h : gmap Z Row) v r : highest h v r -> lastRow h = Some (v, r).
Proof.
  intros [Hr Hmax]. destruct (lastRow h) as [[v' r']|] eqn:Hlast.
  - apply lastRow_Some in Hlast as [Hr' Hmax'].
    assert (v' = v) as ->.
    { pose proof (Hmax v' ltac:(by eexists)). pose proof (Hmax' v ltac:(by eexists)). lia. }
    congruence.
  - apply lastRow_None in Hlast. subst. by rewrite lookup_empty in Hr.
Qed.

(** ** The selection of the loop *)

Lemma selected_up applied target ms :
  selected applied false target ms = List.filter (pendingIn applied) ms.
Proof.
  induction ms as [|m ms IH]; simpl; [done|].
  destruct (pendingIn applied m); simpl; by rewrite IH.
Qed.

Lemma filter_none {A} (p : A -> bool) (l : list A) :
  (forall x, In x l -> p x = false) -> List.filter p l = [].
Proof.
  induction l as [|x l IH]; simpl; intros H; [done|].
  rewrite (H x) by (by left). apply IH. intros y Hy. apply H. by right.
Qed.

(** On a sorted slice the [break] loses nothing at or below the target. *)
Lemma selected_up_to applied t ms :
  ascending ms ->
  selected applied true [t] ms =
  List.filter (fun m => pendingIn applied m && (Version m <=? t)%Z) ms.
Proof.
  unfold ascending. induction ms as [|m ms IH]; simpl; intros Hs; [done|].
  apply StronglySorted_inv in Hs as [Hs Hall].
  destruct (pendingIn applied m) eqn:Hp; simpl; [|by apply IH].
  destruct (t <? Version m)%Z eqn:Hlt.
  - apply Z.ltb_lt in Hlt.
    replace (Version m <=? t)%Z with false by (symmetry; apply Z.leb_gt; lia).
    symmetry. apply filter_none. intros m' Hin.
    rewrite List.Forall_forall in Hall. apply Hall in Hin.
    replace (Version m' <=? t)%Z with false by (symmetry; apply Z.leb_gt; lia).
    apply andb_false_r.
  - apply Z.ltb_ge in Hlt.
    replace (Version m <=? t)%Z with true by (symmetry; apply Z.leb_le; lia).
    by rewrite IH.
Qed.

Lemma selected_In applied upTo target ms m :
  In m (selected applied upTo target ms) -> In m ms /\ pendingIn applied m = true.
Proof.
  induction ms as [|m' ms IH]; simpl; [done|].
  destruct (pendingIn applied m') eqn:Hp.
  - destruct (beyondTarget upTo target m'); [done|].
    intros [<-|Hin]; [by split; [left|]|].
    apply IH in Hin as [? ?]. by split; [right|].
  - intros Hin. apply IH in Hin as [? ?]. by split; [right|].
Qed.

Lemma selected_ascending applied upTo target ms :
  ascending ms -> ascending (selected applied upTo target ms).
Proof.
  unfold ascending. induction ms as [|m ms IH]; simpl; intros Hs; [done|].
  apply StronglySorted_inv in Hs as [Hs Hall].
  destruct (pendingIn applied m); [|by apply IH].
  destruct (beyondTarget upTo target m); [constructor|].
  constructor; [by apply IH|].
  rewrite List.Forall_forall in *. intros m' Hin. apply Hall.
  by apply selected_In in Hin as [? _].
Qed.

Lemma selected_NoDup applied upTo target ms :
  List.NoDup (versions ms) -> List.NoDup (versions (selected applied upTo target ms)).
Proof.
  unfold versions. induction ms as [|m ms IH]; simpl; intros Hnd; [done|].
  apply NoDup_cons_iff in Hnd as [Hnotin Hnd].
  destruct (pendingIn applied m); [|by apply IH].
  destruct (beyondTarget upTo target m); [constructor|].
  simpl. constructor; [|by apply IH].
  intros (m' & Hv & Hin)%in_map_iff. apply Hnotin, in_map_iff.
  exists m'. split; [done|]. by apply selected_In in Hin as [? _].
Qed.

Lemma prefix_ascending (l k : list Migration) :
  l `prefix_of` k -> ascending k -> ascending l.
Proof.
  unfold ascending. intros [tl ->]. revert tl.
  induction l as [|m l IH]; simpl; intros tl Hs; [constructor|].
  apply StronglySorted_inv in Hs as [Hs Hall].
  constructor; [by eapply IH|].
  apply Forall_app in Hall as [? _]. done.
Qed.

Lemma ascending_versions ms :
  ascending ms -> StronglySorted Z.le (versions ms).
Proof.
  unfold ascending, versions. induction 1 as [|m ms Hs IH Hall]; simpl; constructor; [done|].
  by apply Forall_map.
Qed.

(** Sorted and without repetition is strictly ascending. *)
Lemma strictly_ascending ms :
  ascending ms -> List.NoDup (versions ms) -> StronglySorted Z.lt (versions ms).
Proof.
  unfold ascending, versions. induction 1 as [|m ms Hs IH Hall]; simpl; intros Hnd.
  - constructor.
  - apply NoDup_cons_iff in Hnd as [Hnotin Hnd]. constructor; [by apply IH|].
    apply Forall_map. rewrite List.Forall_forall in *. intros m' Hin.
    specialize (Hall m' Hin). simpl.
    assert (Version m <> Version m'); [|lia].
    intros Heq. apply Hnotin, in_map_iff. by exists m'.
Qed.

(** ** Traces of applied migrations *)

Lemma appliedAs_scripts completed sts :
  appliedAs completed sts -> scripts sts = map UpSQL completed.
Proof. induction 1; simpl; [done|]. unfold scripts in *. simpl. by f_equal. Qed.

Lemma appliedAs_insertions completed sts :
  appliedAs completed sts -> insertions sts = versions completed.
Proof. induction 1; simpl; [done|]. unfold insertions in *. simpl. by f_equal. Qed.

Lemma appliedAs_deletions completed sts : appliedAs completed sts -> deletions sts = [].
Proof. induction 1; simpl; [done|]. unfold deletions in *. by simpl. Qed.

Lemma scripts_of_scripts (ms : list Migration) :
  scripts (map (fun m => Script (UpSQL m)) ms) = map UpSQL ms.
Proof. induction ms as [|m ms IH]; [done|]. unfold scripts in *. simpl. by f_equal. Qed.

Lemma insertions_of_scripts (ms : list Migration) :
  insertions (map (fun m => Script (UpSQL m)) ms) = [].
Proof. induction ms as [|m ms IH]; [done|]. unfold insertions in *. by simpl. Qed.

Lemma DB_eq (db db' : DB) :
  history db' = history db -> trace db' = trace db -> db' = db.
Proof. destruct db, db'; simpl; by intros -> ->. Qed.

Section EngineProperties.

Variable accepts : DB -> Statement -> bool.
Variable now : DB -> Z.

(** ** The validation loop *)

Lemma validateChecksums_None applied ms :
  validateChecksums applied ms = None <->
  forall m, In m ms -> forall c, applied !! Version m = Some c -> c = Checksum m.
Proof.
  induction ms as [|m ms IH]; simpl; [naive_solver|].
  destruct (applied !! Version m) as [old|] eqn:Hold.
  - destruct (String.eqb old (Checksum m)) eqn:Heq.
    + apply String.eqb_eq in Heq. rewrite IH. split.
      * intros H m' [<-|Hin] c Hc; [congruence|eauto].
      * eauto.
    + apply String.eqb_neq in Heq. split; [done|].
      intros H. destruct Heq. eapply H; eauto.
  - rewrite IH. split.
    + intros H m' [<-|Hin] c Hc; [congruence|eauto].
    + eauto.
Qed.

Lemma validateChecksums_ok applied ms m c :
  validateChecksums applied ms = None ->
  In m ms -> applied !! Version m = Some c -> c = Checksum m.
Proof. intros H Hin Hc. eapply validateChecksums_None; eauto. Qed.

Lemma validateChecksums_Some applied ms m :
  validateChecksums applied ms = Some m ->
  In m ms /\ exists c, applied !! Version m = Some c /\ c <> Checksum m.
Proof.
  induction ms as [|m' ms IH]; simpl; [done|].
  destruct (applied !! Version m') as [old|] eqn:Hold.
  - destruct (String.eqb old (Checksum m')) eqn:Heq.
    + intros H. destruct (IH H) as [? ?]. eauto.
    + apply String.eqb_neq in Heq. intros [= <-]. eauto.
  - intros H. destruct (IH H) as [? ?]. eauto.
Qed.

(** ** The application loop *)

(** What one run of the loop does: it applies in full a list [completed] of
    the selected migrations, in their order, and stops either at the end
    of the selection, or at a script that the database refuses, or at a
    row that the table refuses after its script went through ([extra]). *)
Lemma applyPending_run applied upTo target ms db f db' :
  applyPending accepts now applied upTo target ms db = (f, db') ->
  exists completed extra sts,
    (completed ++ extra) `prefix_of` selected applied upTo target ms /\
    trace db' = trace db ++ sts ++ map (fun m => Script (UpSQL m)) extra /\
    appliedAs completed sts /\
    (forall m, In m completed -> history db !! Version m = None) /\
    List.NoDup (versions completed) /\
    (forall m, In m completed -> exists r, history db' !! Version m = Some r /\ recorded m r) /\
    (forall v, ~ In v (versions completed) -> history db' !! v = history db !! v) /\
    match f with
    | None => extra = [] /\ completed = selected applied upTo target ms
    | Some (ApplyFailed v) =>
        extra = [] /\
        exists m rest, selected applied upTo target ms = completed ++ m :: rest /\
                       v = Version m /\ accepts db' (Script (UpSQL m)) = false
    | Some (RecordFailed v) =>
        exists m, extra = [m] /\ v = Version m /\
                  (accepts db' (InsertRow v (rowOf m (now db'))) = false \/
                   is_Some (history db !! v) \/ In v (versions completed))
    | Some _ => False
    end.
Proof.
  revert db. induction ms as [|m rest IH]; intros db; simpl.
  { intros [= <- <-]. exists [], [], []. simpl. rewrite app_nil_r.
    repeat split; try done; try constructor. }
  unfold pendingIn. destruct (applied !! Version m) as [old|] eqn:Hold; [by apply IH|].
  destruct (beyondTarget upTo target m).
  { intros [= <- <-]. exists [], [], []. simpl. rewrite app_nil_r.
    repeat split; try done; try constructor. }
  unfold Exec. destruct (accepts db (Script (UpSQL m))) eqn:Hacc; cycle 1.
  { intros [= <- <-]. exists [], [], []. simpl. rewrite app_nil_r.
    repeat split; try done; try constructor.
    - apply prefix_nil.
    - by exists m, (selected applied upTo target rest). }
  unfold ExecInsert. simpl.
  match goal with
  | |- context [accepts ?d (InsertRow ?v ?r)] =>
      destruct (accepts d (InsertRow v r)) eqn:Hins
  end; cycle 1.
  { intros [= <- <-]. exists [], [m], []. simpl.
    repeat split; try done; try constructor.
    - apply prefix_cons, prefix_nil.
    - exists m. repeat split; try done. by left. }
  destruct (history db !! Version m) as [r0|] eqn:Hrow.
  { intros [= <- <-]. exists [], [m], []. simpl.
    repeat split; try done; try constructor.
    - apply prefix_cons, prefix_nil.
    - exists m. repeat split; try done. right. left. by eexists. }
  intros Hrun. apply IH in Hrun
    as (completed & extra & sts & Hpre & Htr & Hsts & Hfresh & Hnd & Hrows & Hkeep & Hf).
  simpl in *.
  assert (Hnotin : ~ In (Version m) (versions completed)).
  { intros (m' & Hv & Hin)%in_map_iff. apply Hfresh in Hin.
    rewrite Hv, lookup_insert_eq in Hin. done. }
  exists (m :: completed), extra,
    (Script (UpSQL m) :: InsertRow (Version m)
       {| rowName := Name m; rowChecksum := Checksum m;
          rowAppliedAt := now (executed db (Script (UpSQL m)) (history db)) |} :: sts).
  split; [by apply prefix_cons|].
  split; [rewrite Htr, <- !app_assoc; done|].
  split; [by constructor|].
  split.
  { intros m' [<-|Hin]; [done|]. apply Hfresh in Hin.
    by apply lookup_insert_None in Hin as [? ?]. }
  split; [unfold versions in *; simpl; by constructor|].
  split.
  { intros m' [<-|Hin]; [|by apply Hrows].
    rewrite (Hkeep _ Hnotin), lookup_insert_eq. by eexists. }
  split.
  { intros v Hv. rewrite Hkeep by (intros ?; apply Hv; by right).
    apply lookup_insert_ne. intros Heq. apply Hv. by left. }
  destruct f as [[ | | v | v | | | ]|]; try done.
  - destruct Hf as (-> & m' & rest' & -> & -> & Hno). split; [done|].
    by exists m', rest'.
  - destruct Hf as (m' & -> & -> & Hor). exists m'. repeat split; try done.
    destruct Hor as [Hno|[Hsome|Hin]]; [by left| |by right; right; right].
    right. destruct (decide (Version m = Version m')) as [Heq|Hne].
    + right. by left.
    + left. by rewrite lookup_insert_ne in Hsome.
  - destruct Hf as [-> ->]. done.
Qed.

Lemma applyPending_skip applied upTo target ms db :
  (forall m, In m ms -> pendingIn applied m = false) ->
  applyPending accepts now applied upTo target ms db = (None, db).
Proof.
  induction ms as [|m ms IH]; simpl; intros H; [done|].
  specialize (H m (or_introl eq_refl)) as Hm. unfold pendingIn in Hm.
  destruct (applied !! Version m); [|done].
  apply IH. intros m' Hin. apply H. by right.
Qed.

(** ** [applyMigrations] as a whole *)

Lemma applyMigrations_mismatch dir ms db m :
  loadMigrations dir = Ok ms ->
  In m ms -> tampered db m ->
  exists m', In m' ms /\ tampered db m' /\
    forall upTo target,
      applyMigrations accepts now dir upTo target db
      = (Exited (ChecksumMismatch (Version m') (Name m')), db).
Proof.
  intros Hload Hin (r & Hr & Hne). unfold applyMigrations. rewrite Hload.
  destruct (validateChecksums (appliedMigrations db) ms) as [m'|] eqn:Hval.
  - apply validateChecksums_Some in Hval as (Hin' & c & Hc & Hne').
    exists m'. split; [done|]. split; [|done].
    apply applied_Some in Hc as (r' & Hr' & <-). by exists r'.
  - exfalso. apply Hne.
    eapply validateChecksums_ok; [exact Hval|exact Hin|].
    apply applied_Some. by exists r.
Qed.

Lemma applyMigrations_spec dir ms upTo target db out db' :
  loadMigrations dir = Ok ms ->
  applyMigrations accepts now dir upTo target db = (out, db') ->
  exists completed extra sts,
    (completed ++ extra) `prefix_of` selected (appliedMigrations db) upTo target ms /\
    trace db' = trace db ++ sts ++ map (fun m => Script (UpSQL m)) extra /\
    appliedAs completed sts /\
    List.NoDup (versions completed) /\
    (forall m, In m completed -> exists r, history db' !! Version m = Some r /\ recorded m r) /\
    (forall v, ~ In v (versions completed) -> history db' !! v = history db !! v) /\
    (extra = [] \/
     exists m, extra = [m] /\ out = Exited (RecordFailed (Version m)) /\
               (accepts db' (InsertRow (Version m) (rowOf m (now db'))) = false \/
                In (Version m) (versions completed))) /\
    (out = Returned MigrationsApplied ->
     extra = [] /\ completed = selected (appliedMigrations db) upTo target ms /\
     validateChecksums (appliedMigrations db) ms = None).
Proof.
  intros Hload. unfold applyMigrations. rewrite Hload.
  destruct (validateChecksums (appliedMigrations db) ms) as [m'|] eqn:Hval.
  { intros [= <- <-]. exists [], [], []. simpl. rewrite app_nil_r.
    split; [apply prefix_nil|]. repeat split; try done; try constructor.
    reflexivity. }
  destruct (applyPending accepts now (appliedMigrations db) upTo target ms db)
    as [f db1] eqn:Hrun.
  apply applyPending_run in Hrun
    as (completed & extra & sts & Hpre & Htr & Hsts & Hfresh & Hnd & Hrows & Hkeep & Hf).
  intros Hout. exists completed, extra, sts.
  destruct f as [f|]; injection Hout as <- <-.
  - do 6 (split; [done|]). split; [|done].
    destruct f; try done.
    + left. by destruct Hf.
    + right. destruct Hf as (m & -> & -> & Hor). exists m. repeat split; try done.
      destruct Hor as [Hno|[[r Hr]|Hin]]; [by left| |by right]. exfalso.
      assert (Hsel : In m (selected (appliedMigrations db) upTo target ms)).
      { destruct Hpre as [k ->]. apply in_or_app. left. apply in_or_app. right. by left. }
      apply selected_In in Hsel as [_ Hp]. apply pendingIn_true in Hp. congruence.
  - destruct Hf as [-> ->]. do 6 (split; [done|]). split; [by left|done].
Qed.

Lemma upToDate_valid db ms :
  upToDate db ms -> validateChecksums (appliedMigrations db) ms = None.
Proof.
  intros Hup. apply validateChecksums_None. intros m Hin c Hc.
  apply applied_Some in Hc as (r & Hr & <-).
  destruct (Hup m Hin) as (r' & Hr' & <-). congruence.
Qed.

Lemma up_nothing_pending dir ms db :
  loadMigrations dir = Ok ms -> upToDate db ms ->
  up accepts now dir db = (Returned MigrationsApplied, db).
Proof.
  intros Hload Hup. unfold up, applyMigrations.
  rewrite Hload, (upToDate_valid _ _ Hup), applyPending_skip; [done|].
  intros m Hin. destruct (Hup m Hin) as (r & Hr & _).
  destruct (pendingIn (appliedMigrations db) m) eqn:Hp; [|done].
  apply pendingIn_true in Hp. congruence.
Qed.

Lemma up_brings_up_to_date dir ms db db1 :
  loadMigrations dir = Ok ms ->
  up accepts now dir db = (Returned MigrationsApplied, db1) ->
  upToDate db1 ms.
Proof.
  intros Hload Hrun.
  destruct (applyMigrations_spec _ _ _ _ _ _ _ Hload Hrun)
    as (completed & extra & sts & Hpre & Htr & Hsts & Hnd & Hrows & Hkeep & Hex & Hok).
  destruct (Hok eq_refl) as (-> & -> & Hval).
  rewrite selected_up in *.
  intros m Hin. destruct (pendingIn (appliedMigrations db) m) eqn:Hp.
  - destruct (Hrows m) as (r & Hr & _ & Hc); [by apply filter_In|]. by exists r.
  - assert (Hsome : exists r, history db !! Version m = Some r).
    { destruct (history db !! Version m) as [r|] eqn:Hr; [by exists r|].
      apply pendingIn_true in Hr. congruence. }
    destruct Hsome as [r Hr]. exists r. split.
    + rewrite Hkeep; [done|]. intros (m' & Hv & Hin')%in_map_iff.
      apply filter_In in Hin' as [_ Hp']. apply pendingIn_true in Hp'. congruence.
    + eapply validateChecksums_ok; [exact Hval|exact Hin|].
      apply applied_Some. by exists r.
Qed.

Lemma prefix_versions_NoDup (l k : list Migration) :
  l `prefix_of` k -> List.NoDup (versions k) -> List.NoDup (versions l).
Proof.
  intros [tl ->]. unfold versions. rewrite map_app. apply NoDup_app_remove_r.
Qed.

Lemma no_extra_when_distinct (completed : list Migration) m k :
  (completed ++ [m]) `prefix_of` k -> List.NoDup (versions k) ->
  ~ In (Version m) (versions completed).
Proof.
  intros Hpre Hnd Hin. apply (prefix_versions_NoDup _ _ Hpre) in Hnd.
  unfold versions in *. rewrite map_app in Hnd. simpl in Hnd.
  apply NoDup_remove_2 in Hnd. apply Hnd. by rewrite app_nil_r.
Qed.

Lemma no_extra ms upTo target db out db' (completed extra : list Migration) :
  (completed ++ extra) `prefix_of` selected (appliedMigrations db) upTo target ms ->
  (extra = [] \/
   exists m, extra = [m] /\ out = Exited (RecordFailed (Version m)) /\
             (accepts db' (InsertRow (Version m) (rowOf m (now db'))) = false \/
              In (Version m) (versions completed))) ->
  List.NoDup (versions ms) ->
  (forall v r, accepts db' (InsertRow v r) = true) ->
  extra = [].
Proof.
  intros Hpre [->|(m & -> & _ & [Hno|Hin])] Hdistinct Hacc; [done| |].
  - by rewrite Hacc in Hno.
  - exfalso. eapply no_extra_when_distinct; [exact Hpre| |exact Hin].
    by apply selected_NoDup.
Qed.

(** C1, as amended. If a discovered migration has a row whose stored
    checksum differs from the checksum of its file, [up] and [up-to] exit
    on a checksum-mismatch error that names such a migration, and leave the
    database as it was: no script has been executed and the history table
    is untouched. ([down] makes no such comparison: it reads the version
    and the name of the highest row, not its checksum.) *)
Theorem apply_aborts_on_checksum_mismatch dir ms m db :
  loadMigrations dir = Ok ms ->
  In m ms -> tampered db m ->
  exists m', In m' ms /\ tampered db m' /\
    up accepts now dir db
      = (Exited (ChecksumMismatch (Version m') (Name m')), db) /\
    forall t, up_to accepts now dir t db
      = (Exited (ChecksumMismatch (Version m') (Name m')), db).
Proof.
  intros Hload Hin Htam.
  destruct (applyMigrations_mismatch dir ms db m Hload Hin Htam)
    as (m' & Hin' & Htam' & Hexit).
  exists m'. split; [done|]. split; [done|]. split; [apply Hexit|].
  intros t. apply Hexit.
Qed.

(** C3, as amended. [applyMigrations] runs the forward script and the
    insertion of the row as two statements, one after the other, with no
    transaction around them. A row is inserted only right after its own
    forward script went through, so no row is ever recorded without its
    script. The converse can fail: when the row is refused, the run exits
    with the script executed and no row for it ([extra]). The row is
    refused either by the database on its own, or by the primary key
    because an earlier file of the same run has the same version; with a
    database that accepts the insertions and pairwise distinct versions,
    every script executed has its row. *)
Theorem apply_script_then_row dir ms upTo target db out db' :
  loadMigrations dir = Ok ms ->
  applyMigrations accepts now dir upTo target db = (out, db') ->
  exists completed extra sts,
    trace db' = trace db ++ sts ++ map (fun m => Script (UpSQL m)) extra /\
    appliedAs completed sts /\
    (forall m, In m completed -> exists r, history db' !! Version m = Some r /\ recorded m r) /\
    (forall v, ~ In v (versions completed) -> history db' !! v = history db !! v) /\
    (extra = [] \/
     exists m, extra = [m] /\ out = Exited (RecordFailed (Version m)) /\
               (accepts db' (InsertRow (Version m) (rowOf m (now db'))) = false \/
                In (Version m) (versions completed))) /\
    (List.NoDup (versions ms) ->
     (forall v r, accepts db' (InsertRow v r) = true) ->
     extra = []).
Proof.
  intros Hload Hrun.
  destruct (applyMigrations_spec _ _ _ _ _ _ _ Hload Hrun)
    as (completed & extra & sts & Hpre & Htr & Hsts & Hnd & Hrows & Hkeep & Hex & Hok).
  exists completed, extra, sts. do 5 (split; [done|]).
  by eapply no_extra.
Qed.

(** C4. Whatever the order in which the directory enumerates its files,
    [up] goes through the pending migrations in ascending version order.
    The slice that it walks holds the parses of the regular files of the
    directory whose name ends in [.sql], each file once, under the
    versions that the names of the files read as. The rows it inserts
    ([completed]) have strictly ascending versions, the forward scripts it
    executes are those of [completed], in that order, followed at most by
    the one script whose row was refused ([extra], empty when the
    discovered versions are pairwise distinct and the database accepts the
    insertions), and a run that returns has applied every pending
    migration. With pairwise distinct versions, [up] on the same files
    enumerated in any other order has the same outcome and leaves the same
    database. *)
Theorem up_applies_in_ascending_order dir ms db out db' :
  loadMigrations dir = Ok ms ->
  up accepts now dir db = (out, db') ->
  Permutation (versions ms)
    (map (fun e => nameVersion (entryName e)) (List.filter isMigrationEntry dir)) /\
  (forall m,
     In m ms <->
     exists e, In e dir /\ isMigrationEntry e = true /\
               parseMigrationFile dir (entryName e) = Ok m) /\
  exists completed extra new,
    trace db' = trace db ++ new /\
    (completed ++ extra) `prefix_of` pending db ms /\
    insertions new = versions completed /\
    scripts new = map UpSQL (completed ++ extra) /\
    StronglySorted Z.lt (versions completed) /\
    StronglySorted Z.le (versions (completed ++ extra)) /\
    (List.NoDup (versions ms) ->
     (forall v r, accepts db' (InsertRow v r) = true) ->
     extra = []) /\
    (out = Returned MigrationsApplied -> completed = pending db ms /\ extra = []) /\
    (forall dir',
       Permutation dir dir' -> List.NoDup (map entryName dir) ->
       List.NoDup (versions ms) ->
       up accepts now dir' db = (out, db')).
Proof.
  intros Hload Hrun. pose proof (loadMigrations_sorted _ _ Hload) as Hsorted.
  split; [by apply loadMigrations_versions|].
  split; [by apply loadMigrations_files|].
  destruct (applyMigrations_spec _ _ _ _ _ _ _ Hload Hrun)
    as (completed & extra & sts & Hpre & Htr & Hsts & Hnd & Hrows & Hkeep & Hex & Hok).
  assert (Hasc : ascending (completed ++ extra)).
  { eapply prefix_ascending; [exact Hpre|]. by apply selected_ascending. }
  assert (Horder : forall dir',
             Permutation dir dir' -> List.NoDup (map entryName dir) ->
             List.NoDup (versions ms) ->
             up accepts now dir' db = (out, db')).
  { intros dir' Hperm Hnames Hdistinct. rewrite <- Hrun. unfold up, applyMigrations.
    by rewrite Hload, (loadMigrations_perm _ _ _ Hperm Hnames Hload Hdistinct). }
  exists completed, extra, (sts ++ map (fun m => Script (UpSQL m)) extra).
  split; [done|].
  split; [unfold pending; by rewrite <- selected_up with (target := [])|].
  split.
  { unfold insertions. rewrite omap_app. fold (insertions sts).
    fold (insertions (map (fun m => Script (UpSQL m)) extra)).
    rewrite insertions_of_scripts, app_nil_r. by apply appliedAs_insertions. }
  split.
  { unfold scripts. rewrite omap_app. fold (scripts sts).
    fold (scripts (map (fun m => Script (UpSQL m)) extra)).
    rewrite scripts_of_scripts, map_app. f_equal. by apply appliedAs_scripts. }
  split.
  { apply strictly_ascending; [|done]. eapply prefix_ascending; [|exact Hasc].
    by exists extra. }
  split; [by apply ascending_versions|].
  split; [by eapply no_extra|].
  split; [|done].
  intros Hout. destruct (Hok Hout) as (-> & -> & _).
  split; [|done]. unfold pending. apply selected_up.
Qed.

(** C5. [up-to t] applies exactly the pending migrations of version at
    most [t], in ascending order. The slice that it walks holds the
    parses of the regular files of the directory whose name ends in
    [.sql], each file once, under the versions that the names of the
    files read as. A run goes through a prefix of the pending migrations
    at or below [t] ([completed], then at most the one script whose row
    was refused) and a run that returns has applied them all; every
    pending migration above [t] is still without a row afterwards, and
    when no pending migration is at or below [t] the database is left as
    it was. *)
Theorem up_to_applies_up_to_target dir ms t db out db' :
  loadMigrations dir = Ok ms ->
  up_to accepts now dir t db = (out, db') ->
  Permutation (versions ms)
    (map (fun e => nameVersion (entryName e)) (List.filter isMigrationEntry dir)) /\
  (forall m,
     In m ms <->
     exists e, In e dir /\ isMigrationEntry e = true /\
               parseMigrationFile dir (entryName e) = Ok m) /\
  exists completed extra new,
    trace db' = trace db ++ new /\
    (completed ++ extra) `prefix_of` pendingUpTo db t ms /\
    insertions new = versions completed /\
    scripts new = map UpSQL (completed ++ extra) /\
    StronglySorted Z.lt (versions completed) /\
    (forall m, In m completed -> exists r, history db' !! Version m = Some r /\ recorded m r) /\
    (forall m, In m ms -> history db !! Version m = None -> (t < Version m)%Z ->
               history db' !! Version m = None) /\
    (out = Returned MigrationsApplied -> completed = pendingUpTo db t ms /\ extra = []) /\
    (pendingUpTo db t ms = [] -> db' = db).
Proof.
  intros Hload Hrun. pose proof (loadMigrations_sorted _ _ Hload) as Hsorted.
  split; [by apply loadMigrations_versions|].
  split; [by apply loadMigrations_files|].
  destruct (applyMigrations_spec _ _ _ _ _ _ _ Hload Hrun)
    as (completed & extra & sts & Hpre & Htr & Hsts & Hnd & Hrows & Hkeep & Hex & Hok).
  rewrite selected_up_to in * by done. fold (pendingUpTo db t ms) in *.
  assert (Hasc : ascending (completed ++ extra)).
  { eapply prefix_ascending; [exact Hpre|].
    unfold pendingUpTo. rewrite <- (selected_up_to _ _ _ Hsorted).
    by apply selected_ascending. }
  exists completed, extra, (sts ++ map (fun m => Script (UpSQL m)) extra).
  split; [done|]. split; [done|].
  split.
  { unfold insertions. rewrite omap_app. fold (insertions sts).
    fold (insertions (map (fun m => Script (UpSQL m)) extra)).
    rewrite insertions_of_scripts, app_nil_r. by apply appliedAs_insertions. }
  split.
  { unfold scripts. rewrite omap_app. fold (scripts sts).
    fold (scripts (map (fun m => Script (UpSQL m)) extra)).
    rewrite scripts_of_scripts, map_app. f_equal. by apply appliedAs_scripts. }
  split.
  { apply strictly_ascending; [|done]. eapply prefix_ascending; [|exact Hasc].
    by exists extra. }
  split; [done|].
  split.
  { intros m Hin Hnone Hlt. rewrite Hkeep; [done|].
    intros (m' & Hv & Hin')%in_map_iff.
    assert (Hsel : In m' (pendingUpTo db t ms)).
    { destruct Hpre as [k ->]. apply in_or_app. left. apply in_or_app. by left. }
    apply filter_In in Hsel as [_ Hle]. apply andb_true_iff in Hle as [_ Hle].
    apply Z.leb_le in Hle. lia. }
  split.
  { intros Hout. by destruct (Hok Hout) as (-> & -> & _). }
  intros Hnil. rewrite Hnil in Hpre. apply prefix_nil_inv in Hpre.
  destruct completed; [|done]. destruct extra; [|done].
  inversion Hsts; subst. apply DB_eq.
  - apply map_eq. intros v. apply Hkeep. by intros [].
  - rewrite Htr. simpl. by rewrite app_nil_r.
Qed.

(** C6. [up] is idempotent. When every discovered migration has its row,
    with the checksum of its file, [up] returns successfully and leaves
    the database as it was: no statement executed, the same history. And
    after a run of [up] that returned, every discovered migration is in
    that state, so that a second run over the same directory returns
    with the database of the first. *)
Theorem up_idempotent dir ms db :
  loadMigrations dir = Ok ms ->
  (upToDate db ms -> up accepts now dir db = (Returned MigrationsApplied, db)) /\
  (forall db1,
     up accepts now dir db = (Returned MigrationsApplied, db1) ->
     upToDate db1 ms /\
     up accepts now dir db1 = (Returned MigrationsApplied, db1)).
Proof.
  intros Hload. split.
  - by apply up_nothing_pending.
  - intros db1 Hrun. pose proof (up_brings_up_to_date _ _ _ _ Hload Hrun) as Hup.
    split; [done|]. by apply up_nothing_pending with (ms := ms).
Qed.

End EngineProperties.

(** ** info *)

Lemma infoLine_version h m : infoVersion (infoLine h m) = Version m.
Proof. unfold infoLine. by destruct (h !! Version m). Qed.

(** C2, as amended. [info] prints one line for each discovered migration
    file, in ascending version order, and nothing else: a version that has
    a row but whose file is gone from the directory gets no line. The gap
    is tolerated, since [info] does not fail on it, but it is not
    reported. *)
Theorem info_lists_discovered_only dir ms db :
  loadMigrations dir = Ok ms ->
  exists lines,
    showMigrationInfo dir db = inr lines /\
    map infoVersion lines = versions ms /\
    StronglySorted Z.le (map infoVersion lines) /\
    (forall v, is_Some (history db !! v) -> ~ In v (versions ms) ->
               ~ In v (map infoVersion lines)).
Proof.
  intros Hload. unfold showMigrationInfo. rewrite Hload.
  eexists. split; [done|].
  assert (Hv : map infoVersion (map (infoLine (history db)) ms) = versions ms).
  { unfold versions. rewrite map_map. apply map_ext. intros m. apply infoLine_version. }
  rewrite Hv. split; [done|]. split; [|done].
  apply ascending_versions. by eapply loadMigrations_sorted.
Qed.

Section RollbackProperties.

Variable accepts : DB -> Statement -> bool.

Lemma rollback_resolved dir v name m :
  parseMigrationFile dir (migrationFilename v name) = Ok m ->
  Name m = name /\ (0 <= v)%Z /\ ((v < 2 ^ 63)%Z -> Version m = v).
Proof.
  intros (content & token & name' & before & after & _ & Hre & _ & ->)%parseMigrationFile_Ok.
  rewrite FindStringSubmatch_migrationFilename in Hre. simpl.
  destruct (0 <=? v)%Z eqn:Hv; [|done]. apply Z.leb_le in Hv.
  rewrite andb_true_l in Hre.
  destruct ((0 <? String.length name)%nat && no_dot name); [|done].
  injection Hre as <- <-. cbn [Name Version].
  split; [done|]. split; [done|]. intros Hlt. apply parseInt64_FormatInt. lia.
Qed.

(** C7. On a history that is not empty, [down] deals with the row of the
    highest version and with no other. When it returns, it has executed
    one script, the reverse script of the file named after that row
    (whose parsed name and version are those of the row), and deleted that
    row. When it exits on an error, it has deleted nothing: it has changed
    nothing at all, or, the deletion refused, it has executed that one
    reverse script. Either way the rows of all other versions are as they
    were. *)
Theorem down_rolls_back_highest dir db out db' :
  history db <> ∅ ->
  rollbackLastMigration accepts dir db = (out, db') ->
  exists v r,
    highest (history db) v r /\
    (forall v', v' <> v -> history db' !! v' = history db !! v') /\
    match out with
    | Returned RollbackSuccessful =>
        exists m,
          parseMigrationFile dir (migrationFilename v (rowName r)) = Ok m /\
          Name m = rowName r /\ ((v < 2 ^ 63)%Z -> Version m = v) /\
          trace db' = trace db ++ [Script (DownSQL m); DeleteRow v] /\
          history db' = delete v (history db)
    | Returned _ => False
    | Exited DeleteFailed =>
        exists m,
          parseMigrationFile dir (migrationFilename v (rowName r)) = Ok m /\
          trace db' = trace db ++ [Script (DownSQL m)] /\
          history db' = history db
    | Exited _ => db' = db
    end.
Proof.
  intros Hne. unfold rollbackLastMigration.
  destruct (lastRow (history db)) as [[v r]|] eqn:Hlast; cycle 1.
  { by apply lastRow_None in Hlast. }
  apply lastRow_Some in Hlast. intros Hrun. exists v, r. split; [done|].
  destruct (parseMigrationFile dir (migrationFilename v (rowName r))) as [m|e] eqn:Hm.
  - unfold Exec, ExecDelete in Hrun.
    destruct (accepts db (Script (DownSQL m))); [|by injection Hrun as <- <-].
    match type of Hrun with
    | context [accepts ?d (DeleteRow v)] => destruct (accepts d (DeleteRow v))
    end; injection Hrun as <- <-; simpl.
    + split; [intros v' Hv'; by apply lookup_delete_ne|].
      exists m. destruct (rollback_resolved _ _ _ _ Hm) as (? & _ & ?).
      repeat split; try done. by rewrite <- app_assoc.
    + split; [done|]. by exists m.
  - by injection Hrun as <- <-.
Qed.

(** C8. [down] tells apart an empty history, on which it returns with
    nothing to roll back and the database as it was, from a highest row
    whose file cannot be resolved, on which it exits on the error of the
    reader, also with the database as it was: nothing executed, the
    history unchanged. A file that is gone from the directory is the
    second case. *)
Theorem down_nothing_vs_cannot_proceed dir db :
  (history db = ∅ ->
   rollbackLastMigration accepts dir db = (Returned NoMigrationsToRollback, db)) /\
  (forall v r e,
     highest (history db) v r ->
     parseMigrationFile dir (migrationFilename v (rowName r)) = Err e ->
     rollbackLastMigration accepts dir db = (Exited (ResolveFailed e), db)) /\
  (forall v r,
     highest (history db) v r ->
     (forall e, In e dir -> entryName e <> migrationFilename v (rowName r)) ->
     rollbackLastMigration accepts dir db
     = (Exited (ResolveFailed (ErrRead (migrationFilename v (rowName r)))), db)).
Proof.
  unfold rollbackLastMigration. split; [|split].
  - intros Hempty. apply lastRow_None in Hempty. by rewrite Hempty.
  - intros v r e Hhigh Hm. by rewrite (highest_lastRow _ _ _ Hhigh), Hm.
  - intros v r Hhigh Hmissing. rewrite (highest_lastRow _ _ _ Hhigh).
    unfold parseMigrationFile. by rewrite (readFile_missing _ _ Hmissing).
Qed.

(** C10, as amended. [down] looks for the file named by the decimal
    rendering of the stored version, [_], the stored name and [.sql]. For
    a migration applied from a file whose version token has leading
    zeros, that name is not the name of the file, and the file plays no
    part in [down]: a directory that differs in this file alone gives the
    same result. When no regular file of the directory carries the name
    made up, which is so whenever the discovered versions are pairwise
    distinct, [down] exits on a read error for that name, with the
    database as it was, although the file of the migration is in the
    directory and parses. When a file does carry that name, [down] takes
    it for the file of the migration and executes its reverse script. *)
Theorem down_fails_on_zero_padded_version dir db digits name m r :
  let original := (String "0" digits ++ "_" ++ name ++ ".sql")%string in
  all_digits digits = true -> digits <> ""%string ->
  parseMigrationFile dir original = Ok m ->
  highest (history db) (Version m) r -> rowName r = Name m ->
  Version m = parseInt64 (String "0" digits) /\
  Name m = name /\
  migrationFilename (Version m) (Name m) <> original /\
  (forall dir',
     (forall path, path <> original -> readFile dir' path = readFile dir path) ->
     rollbackLastMigration accepts dir' db = rollbackLastMigration accepts dir db) /\
  ((forall e, In e dir -> IsDir e = false ->
              entryName e <> migrationFilename (Version m) (Name m)) ->
   rollbackLastMigration accepts dir db
   = (Exited (ResolveFailed (ErrRead (migrationFilename (Version m) (Name m)))), db)) /\
  (forall ms,
     loadMigrations dir = Ok ms -> List.NoDup (versions ms) ->
     rollbackLastMigration accepts dir db
     = (Exited (ResolveFailed (ErrRead (migrationFilename (Version m) (Name m)))), db)) /\
  (forall m',
     parseMigrationFile dir (migrationFilename (Version m) (Name m)) = Ok m' ->
     accepts db (Script (DownSQL m')) = true ->
     accepts (executed db (Script (DownSQL m')) (history db)) (DeleteRow (Version m)) = true ->
     rollbackLastMigration accepts dir db
     = (Returned RollbackSuccessful,
        executed (executed db (Script (DownSQL m')) (history db))
          (DeleteRow (Version m)) (delete (Version m) (history db)))).
Proof.
  intros original Hds Hne Hm Hhigh Hname.
  assert (Htok : all_digits (String "0" digits) = true) by done.
  pose proof (parseInt64_range _ Htok) as Hrange.
  pose proof Hm as
    (content & token & name' & before & after & Hread & Hre & _ & Heq)%parseMigrationFile_Ok.
  unfold original in Hre. rewrite FindStringSubmatch_digits in Hre by done.
  destruct ((0 <? String.length name)%nat && no_dot name) eqn:Hcond; [|done].
  injection Hre as <- <-.
  assert (Hv : Version m = parseInt64 (String "0" digits)) by (by rewrite Heq).
  assert (Hn : Name m = name) by (by rewrite Heq).
  rewrite Hv, Hn in *. set (v := parseInt64 (String "0" digits)) in *.
  assert (Hdiff : migrationFilename v name <> original).
  { intros Hsame. apply (f_equal span_digits) in Hsame.
    destruct (FormatInt_digits v) as [Hfd Hfne]; [lia|].
    unfold migrationFilename, original in Hsame.
    change ("_" ++ name ++ ".sql")%string with (String "_" (name ++ ".sql")) in Hsame.
    rewrite !span_digits_app in Hsame by done.
    injection Hsame as Hsame. apply FormatInt_leading_zero in Hsame; [done|lia]. }
  do 3 (split; [done|]).
  assert (Hnone : (forall e, In e dir -> IsDir e = false ->
                             entryName e <> migrationFilename v name) ->
                  rollbackLastMigration accepts dir db
                  = (Exited (ResolveFailed (ErrRead (migrationFilename v name))), db)).
  { intros Hno. unfold rollbackLastMigration.
    rewrite (highest_lastRow _ _ _ Hhigh), Hname. unfold parseMigrationFile.
    destruct (readFile dir (migrationFilename v name)) as [content'|e] eqn:Hread'.
    - apply readFile_Ok in Hread' as (e & Hin & He & Hd & _). by destruct (Hno e Hin Hd).
    - by rewrite (readFile_Err _ _ _ Hread'). }
  split.
  { intros dir' Hsame. unfold rollbackLastMigration.
    rewrite (highest_lastRow _ _ _ Hhigh), Hname. unfold parseMigrationFile.
    by rewrite (Hsame _ Hdiff). }
  split; [exact Hnone|]. split.
  - intros ms Hload Hnd. apply Hnone. intros e2 Hin2 Hdir2 Hname2. apply Hdiff.
    apply readFile_Ok in Hread as (e1 & Hin1 & Hname1 & Hdir1 & _).
    rewrite <- Hname1, <- Hname2. f_equal.
    apply (NoDup_map_inj (fun e => nameVersion (entryName e))
             (List.filter isMigrationEntry dir)).
    + eapply Permutation_NoDup; [by apply loadMigrations_versions|done].
    + apply filter_In. split; [done|]. unfold isMigrationEntry.
      rewrite Hdir2, Hname2. unfold migrationFilename. by rewrite HasSuffix_sql.
    + apply filter_In. split; [done|]. unfold isMigrationEntry.
      rewrite Hdir1, Hname1. unfold original. by rewrite HasSuffix_sql.
    + rewrite Hname1, Hname2. unfold original, migrationFilename.
      destruct (FormatInt_digits v) as [Hfd Hfne]; [lia|].
      rewrite !nameVersion_digits by done.
      by apply parseInt64_FormatInt.
  - intros m' Hm' Hdown Hdel. unfold rollbackLastMigration, Exec, ExecDelete.
    by rewrite (highest_lastRow _ _ _ Hhigh), Hname, Hm', Hdown, Hdel.
Qed.

End RollbackProperties.

(** * Scenarios *)

(** The reader on the first migration of the repository. *)
Example parse_add_users_table :
  parseMigrationFile
    [file "20251108001546_add_users_table.sql" addUsersTable]
    "20251108001546_add_users_table.sql"
  = Ok {| Version := 20251108001546;
          Name := "add_users_table";
          UpSQL := ("-- SQL statements for migration UP go here" ++ nl ++
                    "CREATE TABLE users (" ++ nl ++
                    "    id VARCHAR PRIMARY KEY," ++ nl ++
                    "    name TEXT NOT NULL," ++ nl ++
                    "    email TEXT UNIQUE NOT NULL" ++ nl ++
                    ");")%string;
          DownSQL := ("-- SQL statements for migration DOWN go here" ++ nl ++
                      "DROP TABLE users;")%string;
          Checksum :=
            "a5c56b790968968127dbcfd2d6e3ea50d430cffb08ec856b41c86b1c51ba44a4" |}.
Proof. vm_compute. reflexivity. Qed.

(** Markers that occur more than once: the file is cut at the first
    [-- +down], and every [-- +up] before it is removed. *)
Example markers_repeated :
  let content :=
    ("-- +up" ++ nl ++ "A" ++ nl ++ "-- +up" ++ nl ++ "B" ++ nl ++
     "-- +down" ++ nl ++ "C" ++ nl ++ "-- +down" ++ nl ++ "D")%string in
  let m := migrationOf "7_m.sql" content in
  UpSQL m = ("A" ++ nl ++ nl ++ "B")%string /\
  DownSQL m = ("C" ++ nl ++ "-- +down" ++ nl ++ "D")%string.
Proof. vm_compute. done. Qed.

(** What the reader ignores and what it rejects: a file that does not end
    in [.sql] is skipped, a name that does not match the pattern or a file
    without [-- +down] fails the whole load. *)
Example load_ignores_and_rejects :
  loadMigrations [file "README.md" "notes"; fileA] = loadMigrations [fileA] /\
  loadMigrations [fileA; file "b.sql" (script "CREATE b" "DROP b")]
  = Err (ErrInvalidFilename "b.sql") /\
  loadMigrations [fileA; file "2_b.sql" ("-- +up" ++ nl ++ "CREATE b")%string]
  = Err (ErrMissingDown "2_b.sql").
Proof. vm_compute. done. Qed.

(** A version token too large for an [int64] reads as zero. *)
Example version_overflow :
  parseInt64 "9223372036854775807" = 9223372036854775807%Z /\
  parseInt64 "9223372036854775808" = 0%Z /\
  parseInt64 "000012" = 12%Z.
Proof. vm_compute. done. Qed.

(** The examples of the specification, run on the model. *)

Example up_312 :
  up always clock dir312 emptyDB = (Returned MigrationsApplied, db312) /\
  scripts (trace db312) = ["CREATE a"; "CREATE b"; "CREATE c"]%string /\
  insertions (trace db312) = [1; 2; 3]%Z.
Proof. vm_compute. done. Qed.

Example up_to_3 :
  let db := (up_to always clock dir1234 3 db1).2 in
  insertions (trace db1) = [1]%Z /\
  (up_to always clock dir1234 3 db1).1 = Returned MigrationsApplied /\
  insertions (trace db) = [1; 2; 3]%Z /\
  history db !! 4%Z = None /\
  up_to always clock dir1234 0 db1 = (Returned MigrationsApplied, db1).
Proof. vm_compute. done. Qed.

Example down_twice :
  let once := (rollbackLastMigration always dir312 db312).2 in
  let twice := (rollbackLastMigration always dir312 once).2 in
  (map fst (map_to_list (history db312)),
   map fst (map_to_list (history once)),
   map fst (map_to_list (history twice)))
  = ([3; 2; 1], [2; 1], [1])%Z /\
  deletions (trace twice) = [3; 2]%Z /\
  scripts (trace twice)
  = ["CREATE a"; "CREATE b"; "CREATE c"; "DROP c"; "DROP b"]%string.
Proof. vm_compute. done. Qed.

(** Boundary white space changes the bytes, and so the checksum, of a file;
    it does not change the scripts. *)
Example whitespace_changes_checksum_only :
  let m1 := migrationOf "1_a.sql" (script "CREATE a" "DROP a") in
  let m2 := migrationOf "1_a.sql" (script "  CREATE a " ("DROP a" ++ nl)%string) in
  UpSQL m1 = UpSQL m2 /\ DownSQL m1 = DownSQL m2 /\ Checksum m1 <> Checksum m2.
Proof. vm_compute. repeat split; done. Qed.

(** C1, counterexample. Version 1 was applied, then the reverse script of
    its file was edited: the stored checksum differs from the checksum of
    the file. [down] does not exit on a checksum mismatch: it executes
    the edited reverse script and deletes the row. *)
Lemma down_ignores_checksum_mismatch :
  loadMigrations dirEdited = Ok [editedA] /\
  tampered db1 editedA /\
  rollbackLastMigration always dirEdited db1
  = (Returned RollbackSuccessful,
     {| history := ∅;
        trace := trace db1 ++ [Script "DROP b"; DeleteRow 1] |}).
Proof.
  split; [vm_compute; reflexivity|]. split.
  - eexists. split; [vm_compute; reflexivity|]. vm_compute. intros [=].
  - vm_compute. reflexivity.
Qed.

(** C1, as amended, on the edited file of version 1. *)
Lemma apply_aborts_on_checksum_mismatch_witness :
  loadMigrations dirEdited = Ok [editedA] /\
  In editedA [editedA] /\
  tampered db1 editedA /\
  exists m', In m' [editedA] /\ tampered db1 m' /\
    up always clock dirEdited db1
      = (Exited (ChecksumMismatch (Version m') (Name m')), db1) /\
    forall t, up_to always clock dirEdited t db1
      = (Exited (ChecksumMismatch (Version m') (Name m')), db1).
Proof.
  assert (H1 : loadMigrations dirEdited = Ok [editedA]) by (vm_compute; reflexivity).
  assert (H2 : In editedA [editedA]) by (by left).
  assert (H3 : tampered db1 editedA).
  { eexists. split; [vm_compute; reflexivity|]. vm_compute. intros [=]. }
  split; [exact H1|]. split; [exact H2|]. split; [exact H3|].
  exact (apply_aborts_on_checksum_mismatch always clock dirEdited [editedA] editedA db1
           H1 H2 H3).
Defined.

(** C2, counterexample. Versions 1 and 2 were applied, then the file of
    version 1 was deleted. [info] prints the line of version 2 and no line
    for version 1. *)
Lemma info_omits_deleted_migration :
  is_Some (history db12 !! 1%Z) /\
  readFile dirGap "1_a.sql" = Err (ErrRead "1_a.sql") /\
  showMigrationInfo dirGap db12
  = inr [ {| infoVersion := 2; infoName := "b"; infoValid := YES;
             infoAppliedAt := Some 3%Z |} ].
Proof.
  split; [|split]; [|vm_compute; reflexivity..].
  eexists. vm_compute. reflexivity.
Qed.

(** C2, as amended, on the directory with the gap. *)
Lemma info_lists_discovered_only_witness :
  loadMigrations dirGap = Ok (loaded dirGap) /\
  exists lines,
    showMigrationInfo dirGap db12 = inr lines /\
    map infoVersion lines = versions (loaded dirGap) /\
    StronglySorted Z.le (map infoVersion lines) /\
    (forall v, is_Some (history db12 !! v) -> ~ In v (versions (loaded dirGap)) ->
               ~ In v (map infoVersion lines)).
Proof.
  assert (H1 : loadMigrations dirGap = Ok (loaded dirGap)) by (vm_compute; reflexivity).
  split; [exact H1|].
  exact (info_lists_discovered_only dirGap (loaded dirGap) db12 H1).
Defined.

(** C3, counterexample. Two files carry version 1. [up] applies the first,
    executes the forward script of the second, is refused its row and
    exits: the script [CREATE a] has been executed and the only row is
    the row of the other file. *)
Lemma forward_script_without_row :
  up always clock dirTwice emptyDB = (Exited (RecordFailed 1), dbTwice) /\
  scripts (trace dbTwice) = ["CREATE b"; "CREATE a"]%string /\
  insertions (trace dbTwice) = [1]%Z /\
  map_to_list (history dbTwice)
  = [(1%Z, rowOf (migrationOf "01_b.sql" (script "CREATE b" "DROP b")) 1)].
Proof. vm_compute. done. Qed.

(** The same on a directory with distinct versions, when the database
    refuses the row of version 2. *)
Example forward_script_without_row_refused :
  let run := up refuseRow2 clock dir12 emptyDB in
  run.1 = Exited (RecordFailed 2) /\
  scripts (trace run.2) = ["CREATE a"; "CREATE b"]%string /\
  insertions (trace run.2) = [1]%Z /\
  history run.2 !! 2%Z = None.
Proof. vm_compute. done. Qed.

(** C3, as amended, on the two files of version 1. *)
Lemma apply_script_then_row_witness :
  loadMigrations dirTwice = Ok (loaded dirTwice) /\
  applyMigrations always clock dirTwice false [] emptyDB
  = (Exited (RecordFailed 1), dbTwice) /\
  exists completed extra sts,
    trace dbTwice = trace emptyDB ++ sts ++ map (fun m => Script (UpSQL m)) extra /\
    appliedAs completed sts /\
    (forall m, In m completed ->
               exists r, history dbTwice !! Version m = Some r /\ recorded m r) /\
    (forall v, ~ In v (versions completed) -> history dbTwice !! v = history emptyDB !! v) /\
    (extra = [] \/
     exists m, extra = [m] /\
               Exited (RecordFailed 1) = Exited (RecordFailed (Version m)) /\
               (always dbTwice (InsertRow (Version m) (rowOf m (clock dbTwice))) = false \/
                In (Version m) (versions completed))) /\
    (List.NoDup (versions (loaded dirTwice)) ->
     (forall v r, always dbTwice (InsertRow v r) = true) ->
     extra = []).
Proof.
  assert (H1 : loadMigrations dirTwice = Ok (loaded dirTwice)) by (vm_compute; reflexivity).
  assert (H2 : applyMigrations always clock dirTwice false [] emptyDB
               = (Exited (RecordFailed 1), dbTwice)) by (vm_compute; reflexivity).
  split; [exact H1|]. split; [exact H2|].
  exact (apply_script_then_row always clock dirTwice (loaded dirTwice) false []
           emptyDB _ _ H1 H2).
Defined.

(** C4, on the files enumerated as 3, 1, 2: the rows of versions 1, 2
    and 3 are inserted, in that order. *)
Lemma up_applies_in_ascending_order_witness :
  loadMigrations dir312 = Ok [recordA; recordB; recordC] /\
  up always clock dir312 emptyDB = (Returned MigrationsApplied, dbABC) /\
  insertions (trace dbABC) = [1; 2; 3]%Z /\
  scripts (trace dbABC) = ["CREATE a"; "CREATE b"; "CREATE c"]%string /\
  Permutation (versions [recordA; recordB; recordC])
    (map (fun e => nameVersion (entryName e)) (List.filter isMigrationEntry dir312)) /\
  (forall m,
     In m [recordA; recordB; recordC] <->
     exists e, In e dir312 /\ isMigrationEntry e = true /\
               parseMigrationFile dir312 (entryName e) = Ok m) /\
  exists completed extra new,
    trace dbABC = trace emptyDB ++ new /\
    (completed ++ extra) `prefix_of` pending emptyDB [recordA; recordB; recordC] /\
    insertions new = versions completed /\
    scripts new = map UpSQL (completed ++ extra) /\
    StronglySorted Z.lt (versions completed) /\
    StronglySorted Z.le (versions (completed ++ extra)) /\
    (List.NoDup (versions [recordA; recordB; recordC]) ->
     (forall v r, always dbABC (InsertRow v r) = true) ->
     extra = []) /\
    (Returned MigrationsApplied = Returned MigrationsApplied ->
     completed = pending emptyDB [recordA; recordB; recordC] /\ extra = []) /\
    (forall dir',
       Permutation dir312 dir' -> List.NoDup (map entryName dir312) ->
       List.NoDup (versions [recordA; recordB; recordC]) ->
       up always clock dir' emptyDB = (Returned MigrationsApplied, dbABC)).
Proof.
  assert (H1 : loadMigrations dir312 = Ok [recordA; recordB; recordC])
    by (vm_compute; reflexivity).
  assert (H2 : up always clock dir312 emptyDB = (Returned MigrationsApplied, dbABC))
    by (vm_compute; reflexivity).
  split; [exact H1|]. split; [exact H2|].
  split; [reflexivity|]. split; [reflexivity|].
  exact (up_applies_in_ascending_order always clock dir312 [recordA; recordB; recordC]
           emptyDB _ _ H1 H2).
Defined.

(** C5, on pending versions 2, 3 and 4 with target 3: the rows of
    versions 2 and 3 are inserted, version 4 keeps no row. *)
Lemma up_to_applies_up_to_target_witness :
  loadMigrations dir1234 = Ok [recordA; recordB; recordC; recordD] /\
  up_to always clock dir1234 3 dbA = (Returned MigrationsApplied, dbABC) /\
  insertions (trace dbA) = [1]%Z /\
  insertions (trace dbABC) = [1; 2; 3]%Z /\
  history dbABC !! 4%Z = None /\
  Permutation (versions [recordA; recordB; recordC; recordD])
    (map (fun e => nameVersion (entryName e)) (List.filter isMigrationEntry dir1234)) /\
  (forall m,
     In m [recordA; recordB; recordC; recordD] <->
     exists e, In e dir1234 /\ isMigrationEntry e = true /\
               parseMigrationFile dir1234 (entryName e) = Ok m) /\
  exists completed extra new,
    trace dbABC = trace dbA ++ new /\
    (completed ++ extra) `prefix_of` pendingUpTo dbA 3 [recordA; recordB; recordC; recordD] /\
    insertions new = versions completed /\
    scripts new = map UpSQL (completed ++ extra) /\
    StronglySorted Z.lt (versions completed) /\
    (forall m, In m completed ->
               exists r, history dbABC !! Version m = Some r /\ recorded m r) /\
    (forall m, In m [recordA; recordB; recordC; recordD] ->
               history dbA !! Version m = None ->
               (3 < Version m)%Z -> history dbABC !! Version m = None) /\
    (Returned MigrationsApplied = Returned MigrationsApplied ->
     completed = pendingUpTo dbA 3 [recordA; recordB; recordC; recordD] /\ extra = []) /\
    (pendingUpTo dbA 3 [recordA; recordB; recordC; recordD] = [] -> dbABC = dbA).
Proof.
  assert (H1 : loadMigrations dir1234 = Ok [recordA; recordB; recordC; recordD])
    by (vm_compute; reflexivity).
  assert (H2 : up_to always clock dir1234 3 dbA = (Returned MigrationsApplied, dbABC))
    by (vm_compute; reflexivity).
  split; [exact H1|]. split; [exact H2|].
  split; [reflexivity|]. split; [reflexivity|]. split; [reflexivity|].
  exact (up_to_applies_up_to_target always clock dir1234 [recordA; recordB; recordC; recordD]
           3 dbA _ _ H1 H2).
Defined.

(** C6, on the three migrations: [up] on the empty history, then again. *)
Lemma up_idempotent_witness :
  loadMigrations dir312 = Ok (loaded dir312) /\
  up always clock dir312 emptyDB = (Returned MigrationsApplied, db312) /\
  upToDate db312 (loaded dir312) /\
  up always clock dir312 db312 = (Returned MigrationsApplied, db312).
Proof.
  assert (H1 : loadMigrations dir312 = Ok (loaded dir312)) by (vm_compute; reflexivity).
  assert (H2 : up always clock dir312 emptyDB = (Returned MigrationsApplied, db312))
    by (vm_compute; reflexivity).
  split; [exact H1|]. split; [exact H2|].
  exact (proj2 (up_idempotent always clock dir312 (loaded dir312) emptyDB H1) db312 H2).
Defined.

(** [up] a second time, after the run of [up_312]. *)
Example up_312_again :
  up always clock dir312 db312 = (Returned MigrationsApplied, db312).
Proof. vm_compute. reflexivity. Qed.

(** C7, on applied versions 1, 2 and 3. *)
Lemma down_rolls_back_highest_witness :
  history db312 <> ∅ /\
  rollbackLastMigration always dir312 db312 = (Returned RollbackSuccessful, dbDown) /\
  exists v r,
    highest (history db312) v r /\
    (forall v', v' <> v -> history dbDown !! v' = history db312 !! v') /\
    exists m,
      parseMigrationFile dir312 (migrationFilename v (rowName r)) = Ok m /\
      Name m = rowName r /\ ((v < 2 ^ 63)%Z -> Version m = v) /\
      trace dbDown = trace db312 ++ [Script (DownSQL m); DeleteRow v] /\
      history dbDown = delete v (history db312).
Proof.
  assert (H1 : history db312 <> ∅).
  { intros H%lastRow_None. vm_compute in H. discriminate H. }
  assert (H2 : rollbackLastMigration always dir312 db312
               = (Returned RollbackSuccessful, dbDown)) by (vm_compute; reflexivity).
  split; [exact H1|]. split; [exact H2|].
  exact (down_rolls_back_highest always dir312 db312 _ _ H1 H2).
Defined.

(** C8, on an empty history, and after the file of the highest version
    was deleted. *)
Lemma down_nothing_vs_cannot_proceed_witness :
  (history emptyDB = ∅ /\
   rollbackLastMigration always dir12 emptyDB
   = (Returned NoMigrationsToRollback, emptyDB)) /\
  (highest (history db312) 3 (rowOf migrationC 5) /\
   (forall e, In e dir12 -> entryName e <> migrationFilename 3 "c") /\
   rollbackLastMigration always dir12 db312
   = (Exited (ResolveFailed (ErrRead (migrationFilename 3 "c"))), db312)).
Proof.
  assert (H1 : history emptyDB = ∅) by reflexivity.
  assert (H2 : highest (history db312) 3 (rowOf migrationC 5)).
  { apply lastRow_Some. vm_compute. reflexivity. }
  assert (H3 : forall e, In e dir12 -> entryName e <> migrationFilename 3 "c").
  { intros e [<-|[<-|[]]]; vm_compute; discriminate. }
  split.
  - split; [exact H1|].
    exact (proj1 (down_nothing_vs_cannot_proceed always dir12 emptyDB) H1).
  - split; [exact H2|]. split; [exact H3|].
    exact (proj2 (proj2 (down_nothing_vs_cannot_proceed always dir12 db312))
             3%Z (rowOf migrationC 5) H2 H3).
Defined.

(** [down] on an empty history, and [down] after the file of the highest
    version was deleted. *)
Example down_empty_and_down_missing :
  rollbackLastMigration always dir312 emptyDB = (Returned NoMigrationsToRollback, emptyDB) /\
  rollbackLastMigration always dir12 db312
  = (Exited (ResolveFailed (ErrRead "3_c.sql")), db312).
Proof. vm_compute. done. Qed.


(** C10 as first stated fails where another file carries the name
    that [down] makes up: beside [000001_x.sql], applied as version 1,
    the file [1_x.sql] is taken for it, and [down] returns after the
    reverse script of that other file. *)
Example down_takes_the_unpadded_file :
  parseMigrationFile dirPaddedPlain "000001_x.sql" = Ok recordX /\
  readFile dirPaddedPlain "000001_x.sql" = Ok (script "CREATE x" "DROP x") /\
  up always clock [file "000001_x.sql" (script "CREATE x" "DROP x")] emptyDB
  = (Returned MigrationsApplied, dbX) /\
  lastRow (history dbX) = Some (1%Z, rowOf recordX 1) /\
  rollbackLastMigration always dirPaddedPlain dbX
  = (Returned RollbackSuccessful,
     {| history := delete 1%Z (history dbX);
        trace := trace dbX ++ [Script "DROP y"; DeleteRow 1] |}).
Proof. vm_compute. done. Qed.

(** C10, on the file [000001_x.sql] alone in its directory. *)
Lemma down_fails_on_zero_padded_version_witness :
  all_digits "00001" = true /\ "00001"%string <> ""%string /\
  parseMigrationFile dirPadded "000001_x.sql" = Ok recordX /\
  highest (history dbX) (Version recordX) (rowOf recordX 1) /\
  rowName (rowOf recordX 1) = Name recordX /\
  Version recordX = parseInt64 "000001" /\
  Name recordX = "x"%string /\
  migrationFilename (Version recordX) (Name recordX) <> "000001_x.sql"%string /\
  (forall dir',
     (forall path, path <> "000001_x.sql"%string ->
                   readFile dir' path = readFile dirPadded path) ->
     rollbackLastMigration always dir' dbX = rollbackLastMigration always dirPadded dbX) /\
  ((forall e, In e dirPadded -> IsDir e = false ->
              entryName e <> migrationFilename (Version recordX) (Name recordX)) ->
   rollbackLastMigration always dirPadded dbX
   = (Exited (ResolveFailed (ErrRead (migrationFilename (Version recordX) (Name recordX)))),
      dbX)) /\
  (forall ms,
     loadMigrations dirPadded = Ok ms -> List.NoDup (versions ms) ->
     rollbackLastMigration always dirPadded dbX
     = (Exited (ResolveFailed (ErrRead (migrationFilename (Version recordX) (Name recordX)))),
        dbX)) /\
  (forall m',
     parseMigrationFile dirPadded (migrationFilename (Version recordX) (Name recordX)) = Ok m' ->
     always dbX (Script (DownSQL m')) = true ->
     always (executed dbX (Script (DownSQL m')) (history dbX))
            (DeleteRow (Version recordX)) = true ->
     rollbackLastMigration always dirPadded dbX
     = (Returned RollbackSuccessful,
        executed (executed dbX (Script (DownSQL m')) (history dbX))
          (DeleteRow (Version recordX)) (delete (Version recordX) (history dbX)))).
Proof.
  assert (H1 : all_digits "00001" = true) by reflexivity.
  assert (H2 : "00001"%string <> ""%string) by discriminate.
  assert (H3 : parseMigrationFile dirPadded "000001_x.sql" = Ok recordX)
    by (vm_compute; reflexivity).
  assert (H4 : highest (history dbX) (Version recordX) (rowOf recordX 1)).
  { apply lastRow_Some. vm_compute. reflexivity. }
  assert (H5 : rowName (rowOf recordX 1) = Name recordX) by reflexivity.
  do 5 (split; [assumption|]).
  exact (down_fails_on_zero_padded_version always dirPadded dbX
           "00001" "x" recordX (rowOf recordX 1) H1 H2 H3 H4 H5).
Defined.

(** The file that [up] applied is the one that [down] does not find. *)
Example down_padded :
  up always clock dirPadded emptyDB = (Returned MigrationsApplied, dbPadded) /\
  rollbackLastMigration always dirPadded dbPadded
  = (Exited (ResolveFailed (ErrRead "1_x.sql")), dbPadded).
Proof. vm_compute. done. Qed.



(** * Further properties *)

(** ** More on strings *)

Lemma app_String c (a b : string) : (String c a ++ b)%string = String c (a ++ b)%string.
Proof. reflexivity. Qed.

Lemma app_empty_r (a : string) : (a ++ "")%string = a.
Proof. induction a as [|c a IH]; [done|]. by rewrite app_String, IH. Qed.

Lemma HasPrefix_iff (s p : string) :
  HasPrefix s p = true <-> exists t, s = (p ++ t)%string.
Proof.
  unfold HasPrefix. revert s. induction p as [|c p IH]; intros s.
  - split; [by exists s|]. by destruct s.
  - destruct s as [|c' s]; simpl.
    + split; [done|]. by intros [t Ht].
    + destruct (ascii_dec c c') as [<-|Hne].
      * rewrite IH. split; intros [t Ht]; exists t.
        -- by rewrite app_String, <- Ht.
        -- rewrite app_String in Ht. by injection Ht.
      * split; [done|]. intros [t Ht]. rewrite app_String in Ht.
        injection Ht as Hc _. by destruct Hne.
Qed.

Lemma string_take_drop n (s : string) :
  (string_take n s ++ string_drop n s)%string = s.
Proof.
  unfold string_take. revert s. induction n as [|n IH]; intros [|c s]; simpl; try done.
  by rewrite app_String, IH.
Qed.

Lemma string_drop_length n (s : string) :
  (n <= String.length s)%nat ->
  String.length (string_drop n s) = (String.length s - n)%nat.
Proof.
  revert s. induction n as [|n IH]; intros [|c s]; simpl; try done; try lia.
  intros Hle. apply IH. lia.
Qed.

Lemma HasSuffix_inv (s suffix : string) :
  HasSuffix s suffix = true ->
  s = (string_take (String.length s - String.length suffix) s ++ suffix)%string.
Proof.
  unfold HasSuffix. intros [_ Heq%String.eqb_eq]%andb_true_iff.
  pose proof (string_take_drop (String.length s - String.length suffix) s) as H.
  rewrite Heq in H. by symmetry.
Qed.

Lemma span_digits_eq (s : string) :
  all_digits (span_digits s).1 = true /\
  s = ((span_digits s).1 ++ (span_digits s).2)%string.
Proof.
  induction s as [|c s [IH1 IH2]]; simpl; [done|].
  destruct (is_digit c) eqn:Hc; [|done].
  destruct (span_digits s) as [ds rest]; simpl in *.
  rewrite Hc, IH1. split; [done|]. by rewrite app_String, <- IH2.
Qed.

(** The pattern, read backwards: what a matching file name is made of. *)
Lemma FindStringSubmatch_inv (filename token name : string) :
  FindStringSubmatch filename = [filename; token; name] ->
  filename = (token ++ "_" ++ name ++ ".sql")%string /\
  all_digits token = true /\ token <> ""%string /\
  name <> ""%string /\ no_dot name = true.
Proof.
  unfold FindStringSubmatch. pose proof (span_digits_eq filename) as [Hds Heq].
  destruct (span_digits filename) as [[|d ds] [|c rest]]; try done.
  simpl in Hds, Heq.
  destruct c as [[] [] [] [] [] [] [] []]; try done.
  destruct (HasSuffix rest ".sql") eqn:Hsuf; [|done]. simpl.
  set (name' := string_take (String.length rest - 4) rest).
  destruct ((0 <? String.length name')%nat) eqn:Hlen; [|done].
  destruct (no_dot name') eqn:Hdot; [|done]. simpl.
  intros [= <- <-]. apply HasSuffix_inv in Hsuf. fold name' in Hsuf.
  repeat split; try done.
  - rewrite Heq at 1. by rewrite Hsuf at 1.
  - intros Hn. by rewrite Hn in Hlen.
Qed.

(** ** The first [-- +down] *)

Lemma cut_eq (sep s : string) :
  cut sep s =
  if HasPrefix s sep then Some (""%string, string_drop (String.length sep) s)
  else match s with
       | ""%string => None
       | String c s' =>
           match cut sep s' with
           | Some (before, after) => Some (String c before, after)
           | None => None
           end
       end.
Proof. by destruct s. Qed.

Lemma cut_Some (sep s before after : string) :
  cut sep s = Some (before, after) ->
  s = (before ++ sep ++ after)%string /\
  forall a b, s = (a ++ sep ++ b)%string -> (String.length before <= String.length a)%nat.
Proof.
  revert before after. induction s as [|c s IH]; intros before after; rewrite cut_eq.
  - destruct (HasPrefix "" sep) eqn:Hp; [|done].
    intros [= <- <-]. apply HasPrefix_iff in Hp as [t Ht].
    destruct sep; [|done]. split; [done|simpl; lia].
  - destruct (HasPrefix (String c s) sep) eqn:Hp.
    + intros [= <- <-]. apply HasPrefix_iff in Hp as [t Ht].
      split; [|simpl; lia]. by rewrite Ht, string_drop_app.
    + destruct (cut sep s) as [[x y]|]; [|done].
      intros [= <- <-]. destruct (IH x y eq_refl) as [Hs Hfirst].
      split; [by rewrite app_String, <- Hs|].
      intros [|c' a] b Hab.
      * exfalso. assert (HasPrefix (String c s) sep = true); [|congruence].
        apply HasPrefix_iff. by exists b.
      * rewrite app_String in Hab. injection Hab as _ Hab.
        simpl. apply Hfirst in Hab. lia.
Qed.

Lemma cut_None (sep s : string) : cut sep s = None <-> ~ contains sep s.
Proof.
  split.
  - induction s as [|c s IH]; rewrite cut_eq.
    + destruct (HasPrefix "" sep) eqn:Hp; [done|].
      intros _ ([|c a] & b & Hab); [|done].
      assert (HasPrefix "" sep = true); [|congruence].
      apply HasPrefix_iff. by exists b.
    + destruct (HasPrefix (String c s) sep) eqn:Hp; [done|].
      destruct (cut sep s) as [[x y]|]; [done|].
      intros _ ([|c' a] & b & Hab).
      * assert (HasPrefix (String c s) sep = true); [|congruence].
        apply HasPrefix_iff. by exists b.
      * rewrite app_String in Hab. injection Hab as _ Hab.
        apply IH; [done|]. by exists a, b.
  - intros Hno. destruct (cut sep s) as [[x y]|] eqn:Hcut; [|done].
    destruct Hno. apply cut_Some in Hcut as [Hs _]. by exists x, y.
Qed.

(** ** What a parsed migration is made of *)

(** X1. A file that parses is named by a token of digits that is not
    empty, [_], the name of the migration and [.sql]; the name is not empty
    and has no dot, and the version is the number that the token reads as,
    between 0 and the largest [int64]. *)
Theorem parsed_name_shape dir path m :
  parseMigrationFile dir path = Ok m ->
  exists token,
    path = (token ++ "_" ++ Name m ++ ".sql")%string /\
    all_digits token = true /\ token <> ""%string /\
    Name m <> ""%string /\ no_dot (Name m) = true /\
    Version m = parseInt64 token /\ (0 <= Version m < 2 ^ 63)%Z.
Proof.
  intros (content & token & name & before & after & _ & Hre & _ & ->)%parseMigrationFile_Ok.
  apply FindStringSubmatch_inv in Hre as (Hpath & Hds & Hne & Hname & Hdot).
  exists token. cbn [Name Version]. do 6 (split; [done|]).
  by apply parseInt64_range.
Qed.

(** X1, on the file of version 3. *)
Lemma parsed_name_shape_witness :
  parseMigrationFile dir312 "3_c.sql" = Ok migrationC /\
  exists token,
    "3_c.sql"%string = (token ++ "_" ++ Name migrationC ++ ".sql")%string /\
    all_digits token = true /\ token <> ""%string /\
    Name migrationC <> ""%string /\ no_dot (Name migrationC) = true /\
    Version migrationC = parseInt64 token /\ (0 <= Version migrationC < 2 ^ 63)%Z.
Proof.
  assert (H1 : parseMigrationFile dir312 "3_c.sql" = Ok migrationC)
    by (vm_compute; reflexivity).
  split; [exact H1|]. exact (parsed_name_shape dir312 "3_c.sql" migrationC H1).
Defined.

(** X2. The content of a readable file with a matching name is cut at the
    first [-- +down]: what is before it gives the forward script, what is
    after it, further markers included, the reverse script. The file is
    refused for its missing section exactly when the marker occurs nowhere
    in it. *)
Theorem scripts_split_at_first_down dir path content token name :
  readFile dir path = Ok content ->
  FindStringSubmatch path = [path; token; name] ->
  match parseMigrationFile dir path with
  | Ok m =>
      exists before after,
        content = (before ++ "-- +down" ++ after)%string /\
        (forall a b, content = (a ++ "-- +down" ++ b)%string ->
                     (String.length before <= String.length a)%nat) /\
        UpSQL m = TrimSpace (ReplaceAll before "-- +up" "") /\
        DownSQL m = TrimSpace after
  | Err e => e = ErrMissingDown path /\ ~ contains "-- +down" content
  end.
Proof.
  intros Hread Hre. unfold parseMigrationFile, SplitN2. rewrite Hread, Hre.
  destruct (cut "-- +down" content) as [[before after]|] eqn:Hcut.
  - apply cut_Some in Hcut as [Hs Hfirst]. by exists before, after.
  - split; [done|]. by apply cut_None.
Qed.

(** X2, on the file of version 3. *)
Lemma scripts_split_at_first_down_witness :
  readFile dir312 "3_c.sql" = Ok (script "CREATE c" "DROP c") /\
  FindStringSubmatch "3_c.sql" = ["3_c.sql"; "3"; "c"]%string /\
  match parseMigrationFile dir312 "3_c.sql" with
  | Ok m =>
      exists before after,
        script "CREATE c" "DROP c" = (before ++ "-- +down" ++ after)%string /\
        (forall a b, script "CREATE c" "DROP c" = (a ++ "-- +down" ++ b)%string ->
                     (String.length before <= String.length a)%nat) /\
        UpSQL m = TrimSpace (ReplaceAll before "-- +up" "") /\
        DownSQL m = TrimSpace after
  | Err e => e = ErrMissingDown "3_c.sql" /\ ~ contains "-- +down" (script "CREATE c" "DROP c")
  end.
Proof.
  assert (H1 : readFile dir312 "3_c.sql" = Ok (script "CREATE c" "DROP c"))
    by (vm_compute; reflexivity).
  assert (H2 : FindStringSubmatch "3_c.sql" = ["3_c.sql"; "3"; "c"]%string)
    by (vm_compute; reflexivity).
  split; [exact H1|]. split; [exact H2|].
  exact (scripts_split_at_first_down dir312 "3_c.sql" _ "3" "c" H1 H2).
Defined.

(** ** White space around the scripts *)

Lemma list_ascii_of_string_app (a b : string) :
  list_ascii_of_string (a ++ b)%string = list_ascii_of_string a ++ list_ascii_of_string b.
Proof. induction a as [|c a IH]; [done|]. rewrite app_String. simpl. by rewrite IH. Qed.

Lemma string_of_list_ascii_app (l k : list ascii) :
  string_of_list_ascii (l ++ k) = (string_of_list_ascii l ++ string_of_list_ascii k)%string.
Proof. induction l as [|c l IH]; [done|]. simpl. by rewrite IH. Qed.

Lemma string_rev_app (a b : string) :
  string_rev (a ++ b)%string = (string_rev b ++ string_rev a)%string.
Proof.
  unfold string_rev. by rewrite list_ascii_of_string_app, rev_app_distr, string_of_list_ascii_app.
Qed.

Lemma string_rev_involutive (s : string) : string_rev (string_rev s) = s.
Proof.
  unfold string_rev.
  by rewrite list_ascii_of_string_of_list_ascii, rev_involutive, string_of_list_ascii_of_string.
Qed.

Lemma string_rev_length (s : string) : String.length (string_rev s) = String.length s.
Proof.
  unfold string_rev. rewrite <- (string_of_list_ascii_of_string s) at 2.
  generalize (list_ascii_of_string s). intros l.
  assert (Hlen : forall k, String.length (string_of_list_ascii k) = length k).
  { induction k as [|c k IH]; simpl; [done|]. by rewrite IH. }
  by rewrite !Hlen, length_rev.
Qed.

Lemma trimPrefix_suffix seqs fuel (s : string) :
  exists d, s = (d ++ trimPrefix seqs fuel s)%string.
Proof.
  revert s. induction fuel as [|fuel IH]; intros s; simpl; [by exists ""%string|].
  destruct (find (fun w => HasPrefix s w) seqs) as [w|] eqn:Hfind; [|by exists ""%string].
  apply List.find_some in Hfind as [_ [t Ht]%HasPrefix_iff].
  destruct (IH (string_drop (String.length w) s)) as [d Hd].
  rewrite Ht, string_drop_app in *. exists (w ++ d)%string.
  by rewrite string_app_assoc, <- Hd.
Qed.

Lemma trimPrefix_done seqs fuel (s : string) :
  (forall w, In w seqs -> w <> ""%string) -> (String.length s <= fuel)%nat ->
  forall w, In w seqs -> HasPrefix (trimPrefix seqs fuel s) w = false.
Proof.
  intros Hseqs. revert s. induction fuel as [|fuel IH]; intros s Hlen w Hin; simpl.
  - destruct s; [|simpl in Hlen; lia].
    destruct (HasPrefix "" w) eqn:Hp; [|done].
    apply HasPrefix_iff in Hp as [t Ht]. destruct w; [|done]. by destruct (Hseqs _ Hin).
  - destruct (find (fun w => HasPrefix s w) seqs) as [w0|] eqn:Hfind.
    + apply List.find_some in Hfind as [Hin0 [t Ht]%HasPrefix_iff].
      apply IH; [|done]. rewrite Ht, string_drop_app.
      rewrite Ht, string_length_app in Hlen.
      pose proof (Hseqs _ Hin0). destruct w0; [done|]. simpl in Hlen. lia.
    + by apply (List.find_none _ _ Hfind).
Qed.

Lemma spaces_nonempty w : In w spaces -> w <> ""%string.
Proof.
  intros Hin ->. vm_compute in Hin.
  repeat (destruct Hin as [Hin|Hin]; [discriminate|]). done.
Qed.

Lemma TrimSpace_trimmed (s : string) : trimmed (TrimSpace s).
Proof.
  unfold TrimSpace, TrimRightSpace. set (s1 := TrimLeftSpace s).
  assert (Hleft : forall w, In w spaces -> HasPrefix s1 w = false).
  { apply trimPrefix_done; [apply spaces_nonempty|done]. }
  set (u := trimPrefix (map string_rev spaces) (String.length s1) (string_rev s1)).
  assert (Hright : forall w, In w spaces -> HasPrefix u (string_rev w) = false).
  { intros w Hin. apply trimPrefix_done; [| |by apply in_map].
    - intros w' (w0 & <- & Hin0)%in_map_iff Hw'.
      apply (spaces_nonempty _ Hin0). rewrite <- (string_rev_involutive w0). by rewrite Hw'.
    - by rewrite string_rev_length. }
  destruct (trimPrefix_suffix (map string_rev spaces) (String.length s1) (string_rev s1))
    as [d Hd].
  fold u in Hd. apply (f_equal string_rev) in Hd.
  rewrite string_rev_involutive, string_rev_app in Hd.
  intros w Hin t. split; intros Heq.
  - specialize (Hleft w Hin). assert (HasPrefix s1 w = true); [|congruence].
    apply HasPrefix_iff. exists (t ++ string_rev d)%string.
    by rewrite Hd, Heq, string_app_assoc.
  - specialize (Hright w Hin). assert (HasPrefix u (string_rev w) = true); [|congruence].
    apply HasPrefix_iff. exists (string_rev t).
    by rewrite <- string_rev_app, <- Heq, string_rev_involutive.
Qed.

(** X3. The scripts of a parsed migration neither start nor end with
    white space, whatever surrounds them in the file. *)
Theorem scripts_are_trimmed dir path m :
  parseMigrationFile dir path = Ok m -> trimmed (UpSQL m) /\ trimmed (DownSQL m).
Proof.
  intros (content & token & name & before & after & _ & _ & _ & ->)%parseMigrationFile_Ok.
  cbn [UpSQL DownSQL]. split; apply TrimSpace_trimmed.
Qed.

(** X3, on the file of version 3. *)
Lemma scripts_are_trimmed_witness :
  parseMigrationFile dir312 "3_c.sql" = Ok migrationC /\
  trimmed (UpSQL migrationC) /\ trimmed (DownSQL migrationC).
Proof.
  assert (H1 : parseMigrationFile dir312 "3_c.sql" = Ok migrationC)
    by (vm_compute; reflexivity).
  split; [exact H1|]. exact (scripts_are_trimmed dir312 "3_c.sql" migrationC H1).
Defined.

(** ** Version tokens and file names *)

Lemma all_digits_uint (s : string) :
  all_digits s = true -> exists d, s = NilEmpty.string_of_uint d.
Proof.
  induction s as [|c s IH]; [by exists Decimal.Nil|].
  simpl. intros [Hc Hs]%andb_true_iff. destruct (IH Hs) as [d ->].
  destruct c as [[] [] [] [] [] [] [] []]; vm_compute in Hc; try discriminate.
  all: first [ by exists (Decimal.D0 d) | by exists (Decimal.D1 d)
             | by exists (Decimal.D2 d) | by exists (Decimal.D3 d)
             | by exists (Decimal.D4 d) | by exists (Decimal.D5 d)
             | by exists (Decimal.D6 d) | by exists (Decimal.D7 d)
             | by exists (Decimal.D8 d) | by exists (Decimal.D9 d) ].
Qed.

Lemma string_of_uint_inj d d' :
  NilEmpty.string_of_uint d = NilEmpty.string_of_uint d' -> d = d'.
Proof.
  intros Heq. apply (f_equal NilEmpty.uint_of_string) in Heq.
  rewrite !NilEmpty.usu in Heq. by injection Heq.
Qed.

(** The tokens that [Sprintf("%d")] gives back as they were read. *)
Lemma FormatInt_parseInt64 (token : string) :
  all_digits token = true -> token <> ""%string ->
  FormatInt (parseInt64 token) = token <-> canonical token.
Proof.
  intros Hds Hne. pose proof (parseInt64_range token Hds) as Hrange.
  destruct (FormatInt_nonneg (parseInt64 token)) as (d' & Hfmt & Hnn & Hval & Hnorm); [lia|].
  split.
  - intros Heq. rewrite Hfmt in Heq. unfold canonical. split.
    + destruct token as [|c t]; [done|].
      destruct (ascii_dec c "0") as [->|Hc]; [|right; by exists c, t].
      left. f_equal. apply (FormatInt_leading_zero (parseInt64 (String "0" t))); [lia|].
      by rewrite Hfmt.
    + rewrite <- Heq, decimal_value_of_uint, Hval. lia.
  - intros [Hshape Hlt]. destruct (all_digits_uint token Hds) as [d Hd].
    assert (Hv : parseInt64 token = decimal_value 0 token).
    { unfold parseInt64. destruct (decimal_value 0 token <? 2 ^ 63)%Z eqn:Hb; [done|].
      apply Z.ltb_ge in Hb. lia. }
    rewrite Hfmt, Hd. f_equal.
    assert (Hsame : Pos.of_uint d' = Pos.of_uint d).
    { apply N2Z.inj. by rewrite Hval, Hv, Hd, decimal_value_of_uint. }
    apply DecimalPos.Unsigned.of_inj in Hsame. rewrite Hnorm in Hsame. rewrite Hsame.
    subst token. destruct Hshape as [Hzero|(c & t & Hct & Hc)].
    + change "0"%string with (NilEmpty.string_of_uint (Decimal.D0 Decimal.Nil)) in Hzero.
      by apply string_of_uint_inj in Hzero as ->.
    + destruct d; simpl in Hct; try done; try (by injection Hct as <- _).
Qed.

(** The version token of a file that parses. *)
Lemma parsed_token dir path m :
  parseMigrationFile dir path = Ok m ->
  exists token,
    path = (token ++ "_" ++ Name m ++ ".sql")%string /\
    (span_digits path).1 = token /\
    all_digits token = true /\ token <> ""%string /\
    Version m = parseInt64 token.
Proof.
  intros (content & token & name & before & after & _ & Hre & _ & ->)%parseMigrationFile_Ok.
  apply FindStringSubmatch_inv in Hre as (Hpath & Hds & Hne & Hname & Hdot).
  exists token. cbn [Version Name]. split; [done|]. split; [|done].
  rewrite Hpath. change ("_" ++ name ++ ".sql")%string with (String "_" (name ++ ".sql")).
  by rewrite span_digits_app.
Qed.

(** With a canonical token, [Sprintf] makes the name of the file again. *)
Lemma migrationFilename_canonical dir path m :
  parseMigrationFile dir path = Ok m ->
  canonical (span_digits path).1 ->
  migrationFilename (Version m) (Name m) = path.
Proof.
  intros (token & Hpath & Hspan & Hds & Hne & Hv)%parsed_token. rewrite Hspan.
  intros Hcanon%(FormatInt_parseInt64 token Hds Hne).
  unfold migrationFilename. by rewrite Hv, Hcanon, <- Hpath.
Qed.

(** X4. The name under which [down] looks for the file of a migration is
    made of the decimal rendering of its version, its name and [.sql]. For
    a migration parsed from a file, that is the name of the file exactly
    when the version token of the file is the rendering of a number that
    fits an [int64]: without a leading zero, unless it is [0], and below
    2^63. *)
Theorem filename_round_trip dir path m :
  parseMigrationFile dir path = Ok m ->
  migrationFilename (Version m) (Name m) = path <-> canonical (span_digits path).1.
Proof.
  intros Hm. split; [|by apply migrationFilename_canonical with (dir := dir)].
  destruct (parsed_token _ _ _ Hm) as (token & Hpath & Hspan & Hds & Hne & Hv).
  rewrite Hspan, Hv. intros Heq. apply (FormatInt_parseInt64 token Hds Hne).
  pose proof (parseInt64_range token Hds) as Hrange.
  destruct (FormatInt_digits (parseInt64 token)) as [Hfd Hfne]; [lia|].
  unfold migrationFilename in Heq. rewrite Hpath in Heq.
  apply (f_equal span_digits) in Heq.
  change ("_" ++ Name m ++ ".sql")%string with (String "_" (Name m ++ ".sql")) in Heq.
  rewrite !span_digits_app in Heq by done. by injection Heq.
Qed.

(** X4, on the file of version 3. *)
Lemma filename_round_trip_witness :
  parseMigrationFile dir312 "3_c.sql" = Ok migrationC /\
  (migrationFilename (Version migrationC) (Name migrationC) = "3_c.sql"%string
   <-> canonical (span_digits "3_c.sql").1).
Proof.
  assert (H1 : parseMigrationFile dir312 "3_c.sql" = Ok migrationC)
    by (vm_compute; reflexivity).
  split; [exact H1|]. exact (filename_round_trip dir312 "3_c.sql" migrationC H1).
Defined.

(** ** What [loadMigrations] returns *)

Lemma parseEntries_Err dir entries err :
  parseEntries dir entries = Err err <->
  exists good e rest,
    List.filter isMigrationEntry entries = good ++ e :: rest /\
    (forall e', In e' good -> exists m, parseMigrationFile dir (entryName e') = Ok m) /\
    parseMigrationFile dir (entryName e) = Err err.
Proof.
  induction entries as [|e entries IH]; simpl.
  - split; [done|]. by intros ([|? ?] & ? & ? & ? & _).
  - unfold isMigrationEntry at 1.
    destruct (IsDir e || negb (HasSuffix (entryName e) ".sql")); simpl; [apply IH|].
    destruct (parseMigrationFile dir (entryName e)) as [m|err'] eqn:Hm.
    + destruct (parseEntries dir entries) as [ms'|err'] eqn:Hrest.
      * split; [done|]. intros ([|e0 good] & e1 & rest & Heq & Hgood & Hbad).
        -- injection Heq as <- _. congruence.
        -- injection Heq as <- Heq.
           assert (Hno : Ok ms' = @Err (list Migration) err); [|done].
           apply IH. exists good, e1, rest. split; [done|]. split; [|done].
           intros e' Hin. apply Hgood. by right.
      * split.
        -- intros [= <-]. destruct IH as [IH _].
           destruct (IH eq_refl) as (good & e1 & rest & Heq & Hgood & Hbad).
           exists (e :: good), e1, rest. rewrite Heq. split; [done|]. split; [|done].
           intros e' [<-|Hin]; [by exists m|by apply Hgood].
        -- intros ([|e0 good] & e1 & rest & Heq & Hgood & Hbad).
           ++ injection Heq as <- _. congruence.
           ++ injection Heq as <- Heq.
              assert (Hyes : @Err (list Migration) err' = Err err); [|by injection Hyes as ->].
              apply IH. exists good, e1, rest. split; [done|]. split; [|done].
              intros e' Hin. apply Hgood. by right.
    + split.
      * intros [= <-]. by exists [], e, (List.filter isMigrationEntry entries).
      * intros ([|e0 good] & e1 & rest & Heq & Hgood & Hbad).
        -- injection Heq as <- _. congruence.
        -- injection Heq as <- _. destruct (Hgood e) as [m0 Hm0]; [by left|]. congruence.
Qed.

(** X5. When [loadMigrations] returns a slice, the slice is sorted by
    version and holds one migration for each regular file of the directory
    whose name ends in [.sql], and nothing else: a migration is in the
    slice exactly when it is the parse of such a file. *)
Theorem load_returns_the_parsed_files dir ms :
  loadMigrations dir = Ok ms ->
  ascending ms /\
  length ms = length (List.filter isMigrationEntry dir) /\
  forall m,
    In m ms <->
    exists e, In e dir /\ IsDir e = false /\ HasSuffix (entryName e) ".sql" = true /\
              parseMigrationFile dir (entryName e) = Ok m.
Proof.
  intros Hload. split; [by eapply loadMigrations_sorted|].
  unfold loadMigrations in Hload.
  destruct (parseEntries dir dir) as [ms0|] eqn:Hp; [|done]. injection Hload as <-.
  apply parseEntries_Ok in Hp. pose proof (sortSlice_perm ms0) as Hperm. split.
  - rewrite (Permutation_length Hperm). symmetry. by eapply Forall2_length.
  - intros m. split.
    + intros Hin. apply (Permutation_in _ Hperm) in Hin.
      destruct (Forall2_In_r _ _ _ _ Hp Hin) as (e & [He Hmig]%filter_In & Hm).
      exists e. unfold isMigrationEntry in Hmig.
      destruct (IsDir e); [done|]. destruct (HasSuffix (entryName e) ".sql"); done.
    + intros (e & He & Hd & Hs & Hm).
      apply (Permutation_in _ (Permutation_sym Hperm)).
      destruct (Forall2_In_l _ _ _ e Hp) as (m' & Hin & Hm').
      { apply filter_In. split; [done|]. unfold isMigrationEntry. by rewrite Hd, Hs. }
      congruence.
Qed.

(** X5, on the files enumerated as 3, 1, 2. *)
Lemma load_returns_the_parsed_files_witness :
  loadMigrations dir312 = Ok (loaded dir312) /\
  ascending (loaded dir312) /\
  length (loaded dir312) = length (List.filter isMigrationEntry dir312) /\
  forall m,
    In m (loaded dir312) <->
    exists e, In e dir312 /\ IsDir e = false /\ HasSuffix (entryName e) ".sql" = true /\
              parseMigrationFile dir312 (entryName e) = Ok m.
Proof.
  assert (H1 : loadMigrations dir312 = Ok (loaded dir312)) by (vm_compute; reflexivity).
  split; [exact H1|]. exact (load_returns_the_parsed_files dir312 (loaded dir312) H1).
Defined.

(** X6. [loadMigrations] fails exactly when one of the regular files
    whose name ends in [.sql] does not parse, and its error is the error of
    the first such file in the order of enumeration: the files after it
    are not looked at, and nothing is returned of the files before it. *)
Theorem load_fails_at_first_bad_file dir err :
  loadMigrations dir = Err err <->
  exists good e rest,
    List.filter isMigrationEntry dir = good ++ e :: rest /\
    (forall e', In e' good -> exists m, parseMigrationFile dir (entryName e') = Ok m) /\
    parseMigrationFile dir (entryName e) = Err err.
Proof.
  rewrite <- parseEntries_Err. unfold loadMigrations.
  destruct (parseEntries dir dir) as [ms0|err0]; [done|]. done.
Qed.

(** ** Entries that are no migration files *)

Lemma readFile_In dir e :
  List.NoDup (map entryName dir) -> In e dir ->
  readFile dir (entryName e)
  = if IsDir e then Err (ErrRead (entryName e)) else Ok (entryData e).
Proof.
  induction dir as [|e0 dir IH]; simpl; [done|].
  intros [Hnotin Hnd]%NoDup_cons_iff [->|Hin].
  - by rewrite String.eqb_refl.
  - destruct (String.eqb (entryName e0) (entryName e)) eqn:Heq; [|by apply IH].
    apply String.eqb_eq in Heq. destruct Hnotin. rewrite Heq. by apply in_map.
Qed.

Lemma NoDup_map_filter {A B} (f : A -> B) (p : A -> bool) (l : list A) :
  List.NoDup (map f l) -> List.NoDup (map f (List.filter p l)).
Proof.
  induction l as [|a l IH]; simpl; [done|].
  intros [Hnotin Hnd]%NoDup_cons_iff. destruct (p a); [|by apply IH].
  simpl. constructor; [|by apply IH].
  intros (a' & Heq & [Hin _]%filter_In)%in_map_iff. apply Hnotin, in_map_iff. by exists a'.
Qed.

Lemma parseEntries_same_files dir dir' entries :
  (forall e, In e entries -> isMigrationEntry e = true ->
             readFile dir (entryName e) = readFile dir' (entryName e)) ->
  parseEntries dir entries = parseEntries dir' entries.
Proof.
  induction entries as [|e entries IH]; simpl; intros Hread; [done|].
  rewrite IH by (intros e' Hin; apply Hread; by right).
  destruct (IsDir e || negb (HasSuffix (entryName e) ".sql")) eqn:Hskip; [done|].
  unfold parseMigrationFile. rewrite (Hread e); [done|by left|].
  unfold isMigrationEntry. by rewrite Hskip.
Qed.

Lemma parseEntries_filter dir entries :
  parseEntries dir (List.filter isMigrationEntry entries) = parseEntries dir entries.
Proof.
  induction entries as [|e entries IH]; simpl; [done|].
  unfold isMigrationEntry at 1.
  destruct (IsDir e || negb (HasSuffix (entryName e) ".sql")) eqn:Hskip; simpl; [done|].
  by rewrite Hskip, IH.
Qed.

(** X7. Subdirectories and files whose name does not end in [.sql] play
    no part: with them taken out of the directory, [loadMigrations]
    returns the same slice, or fails on the same error. *)
Theorem load_ignores_other_entries dir :
  List.NoDup (map entryName dir) ->
  loadMigrations (List.filter isMigrationEntry dir) = loadMigrations dir.
Proof.
  intros Hnd. unfold loadMigrations.
  rewrite parseEntries_filter.
  rewrite (parseEntries_same_files (List.filter isMigrationEntry dir) dir); [done|].
  intros e Hin Hmig. rewrite !readFile_In; try done.
  - by apply NoDup_map_filter.
  - by apply filter_In.
Qed.

(** X7, on a directory with a subdirectory and a text file. *)
Lemma load_ignores_other_entries_witness :
  List.NoDup (map entryName dirMixed) /\
  loadMigrations (List.filter isMigrationEntry dirMixed) = loadMigrations dirMixed.
Proof.
  assert (H1 : List.NoDup (map entryName dirMixed)).
  { apply NoDup_ListNoDup, (bool_decide_unpack _). vm_compute. reflexivity. }
  split; [exact H1|]. exact (load_ignores_other_entries dirMixed H1).
Defined.

(** ** The file that [create] writes *)

Lemma readFile_insertEntry dir name content path :
  hasEntry dir name = false ->
  readFile (insertEntry (file name content) dir) path
  = if String.eqb name path then Ok content else readFile dir path.
Proof.
  unfold hasEntry. induction dir as [|e dir IH]; simpl; intros Hno.
  - by destruct (String.eqb name path).
  - apply orb_false_iff in Hno as [Hne Hno].
    destruct (String.ltb name (entryName e)); simpl; [done|].
    rewrite IH by done. destruct (String.eqb name path) eqn:Heq; [|done].
    apply String.eqb_eq in Heq as ->. by rewrite Hne.
Qed.

Lemma readFile_replaceEntry dir name content dir' path :
  hasEntry dir name = true ->
  replaceEntry dir name content = Some dir' ->
  readFile dir' path = if String.eqb name path then Ok content else readFile dir path.
Proof.
  unfold hasEntry. revert dir'. induction dir as [|e dir IH]; simpl; intros dir' Hhas; [done|].
  destruct (String.eqb (entryName e) name) eqn:Hname.
  - apply String.eqb_eq in Hname. destruct (IsDir e); [done|]. intros [= <-]. simpl.
    rewrite Hname. by destruct (String.eqb name path).
  - simpl in Hhas. destruct (replaceEntry dir name content) as [dir''|]; [|done].
    intros [= <-]. simpl. rewrite (IH dir'') by done.
    destruct (String.eqb name path) eqn:Heq; [|done].
    apply String.eqb_eq in Heq as ->. by rewrite Hname.
Qed.

Lemma readFile_WriteFile dir name content dir' path :
  WriteFile dir name content = Some dir' ->
  readFile dir' path = if String.eqb name path then Ok content else readFile dir path.
Proof.
  unfold WriteFile. destruct (hasEntry dir name) eqn:Hhas.
  - by apply readFile_replaceEntry.
  - intros [= <-]. by apply readFile_insertEntry.
Qed.

Lemma replaceEntry_None dir name content :
  replaceEntry dir name content = None ->
  exists e, In e dir /\ entryName e = name /\ IsDir e = true.
Proof.
  induction dir as [|e dir IH]; simpl; [done|].
  destruct (String.eqb (entryName e) name) eqn:Hname.
  - apply String.eqb_eq in Hname. destruct (IsDir e) eqn:Hd; [|done].
    intros _. exists e. by split; [left|].
  - destruct (replaceEntry dir name content); [done|].
    intros _. destruct (IH eq_refl) as (e' & ? & ?). exists e'. by split; [right|].
Qed.

Lemma createMigrationFile_Created ts name dir path dir' :
  createMigrationFile ts name dir = Some (Created path, dir') ->
  path = (ts ++ "_" ++ ReplaceAll name " " "_" ++ ".sql")%string /\
  readFile dir' path = Ok template.
Proof.
  unfold createMigrationFile. cbv zeta.
  set (filename := (ts ++ "_" ++ ReplaceAll name " " "_" ++ ".sql")%string).
  destruct (has_char "/" filename || has_char "000" filename
            || (255 <? String.length filename)%nat); [done|].
  destruct (WriteFile dir filename template) as [dir1|] eqn:Hwrite; [|done].
  intros [= <- <-]. split; [done|].
  by rewrite (readFile_WriteFile _ _ _ _ _ Hwrite), String.eqb_refl.
Qed.

(** X8. [create] writes one file and leaves the others as they were. The
    file is named by the time stamp, [_], the name with its spaces turned
    into underscores, and [.sql], and it holds the template, also when a
    file of that name was there before: its content is overwritten. A
    [create] that fails, the name being held by a subdirectory, has
    changed nothing. *)
Theorem create_writes_one_file ts name dir r dir' :
  createMigrationFile ts name dir = Some (r, dir') ->
  let path := (ts ++ "_" ++ ReplaceAll name " " "_" ++ ".sql")%string in
  match r with
  | Created p =>
      p = path /\ readFile dir' path = Ok template /\
      forall other, other <> path -> readFile dir' other = readFile dir other
  | CreateFailed p =>
      p = path /\ dir' = dir /\
      exists e, In e dir /\ entryName e = path /\ IsDir e = true
  end.
Proof.
  intros Hcreate path. unfold createMigrationFile in Hcreate.
  cbv zeta in Hcreate. fold path in Hcreate.
  destruct (has_char "/" path || has_char "000" path
            || (255 <? String.length path)%nat); [done|].
  destruct (WriteFile dir path template) as [dir1|] eqn:Hwrite;
    injection Hcreate as <- <-.
  - split; [done|]. split.
    + by rewrite (readFile_WriteFile _ _ _ _ _ Hwrite), String.eqb_refl.
    + intros other Hne. rewrite (readFile_WriteFile _ _ _ _ _ Hwrite).
      destruct (String.eqb path other) eqn:Heq; [|done].
      by apply String.eqb_eq in Heq.
  - split; [done|]. split; [done|]. unfold WriteFile in Hwrite.
    destruct (hasEntry dir path); [|done]. by eapply replaceEntry_None.
Qed.

(** X8, on the name [add users table]. *)
Lemma create_writes_one_file_witness :
  createMigrationFile "20251108001546" "add users table" dir12
  = Some (Created "20251108001546_add_users_table.sql", dirCreated) /\
  readFile dirCreated "20251108001546_add_users_table.sql" = Ok template /\
  forall other, other <> "20251108001546_add_users_table.sql"%string ->
                readFile dirCreated other = readFile dir12 other.
Proof.
  assert (H1 : createMigrationFile "20251108001546" "add users table" dir12
               = Some (Created "20251108001546_add_users_table.sql", dirCreated))
    by (vm_compute; reflexivity).
  split; [exact H1|].
  exact (proj2 (create_writes_one_file "20251108001546" "add users table" dir12 _ _ H1)).
Defined.

Lemma ReplaceAll_space (c : ascii) (s : string) :
  ReplaceAll (String c s) " " "_"
  = String (if Ascii.eqb c " " then "_"%char else c) (ReplaceAll s " " "_").
Proof.
  unfold ReplaceAll. cbn [replaceFrom]. unfold HasPrefix. cbn [String.prefix].
  destruct (ascii_dec " " c) as [<-|Hne].
  - by destruct s.
  - destruct (Ascii.eqb c " ") eqn:Heq; [|done].
    apply Ascii.eqb_eq in Heq. by destruct Hne.
Qed.

Lemma no_dot_ReplaceAll_space (s : string) :
  no_dot (ReplaceAll s " " "_") = negb (has_char "." s).
Proof.
  induction s as [|c s IH]; [done|]. rewrite ReplaceAll_space. simpl. rewrite IH.
  destruct (Ascii.eqb c " ") eqn:Hsp.
  - apply Ascii.eqb_eq in Hsp as ->. done.
  - by rewrite negb_orb.
Qed.

Lemma length_ReplaceAll_space (s : string) :
  String.length (ReplaceAll s " " "_") = String.length s.
Proof. induction s as [|c s IH]; [done|]. rewrite ReplaceAll_space. simpl. by rewrite IH. Qed.

(** X9. A file that [create] made for a name that is not empty and has no
    dot parses as it stands: its version is the number of the time stamp,
    its name is the given name with underscores for spaces, and its
    scripts are the two comment lines of the template. *)
Theorem created_file_parses ts name dir path dir' :
  all_digits ts = true -> ts <> ""%string ->
  name <> ""%string -> has_char "." name = false ->
  createMigrationFile ts name dir = Some (Created path, dir') ->
  parseMigrationFile dir' path
  = Ok {| Version := parseInt64 ts;
          Name := ReplaceAll name " " "_";
          UpSQL := "-- SQL statements for migration UP go here";
          DownSQL := "-- SQL statements for migration DOWN go here";
          Checksum := EncodeToString (SHA256.Sum256 (bytes_of_string template)) |}.
Proof.
  intros Hds Hts Hname Hdot Hcreate.
  destruct (createMigrationFile_Created _ _ _ _ _ Hcreate) as [-> Hread].
  unfold parseMigrationFile. rewrite Hread, FindStringSubmatch_digits by done.
  rewrite no_dot_ReplaceAll_space, Hdot, length_ReplaceAll_space.
  destruct name as [|c name]; [done|]. cbn [String.length Nat.ltb Nat.leb andb negb].
  assert (Hsplit : SplitN2 template "-- +down"
                   = [ ("-- +up" ++ nl ++ "-- SQL statements for migration UP go here"
                        ++ nl ++ nl)%string;
                       (nl ++ "-- SQL statements for migration DOWN go here" ++ nl)%string ])
    by (vm_compute; reflexivity).
  rewrite Hsplit. reflexivity.
Qed.

(** X9, on the name [add users table]. *)
Lemma created_file_parses_witness :
  all_digits "20251108001546" = true /\ "20251108001546"%string <> ""%string /\
  "add users table"%string <> ""%string /\ has_char "." "add users table" = false /\
  createMigrationFile "20251108001546" "add users table" dir12
  = Some (Created "20251108001546_add_users_table.sql", dirCreated) /\
  parseMigrationFile dirCreated "20251108001546_add_users_table.sql"
  = Ok {| Version := parseInt64 "20251108001546";
          Name := ReplaceAll "add users table" " " "_";
          UpSQL := "-- SQL statements for migration UP go here";
          DownSQL := "-- SQL statements for migration DOWN go here";
          Checksum := EncodeToString (SHA256.Sum256 (bytes_of_string template)) |}.
Proof.
  assert (H1 : all_digits "20251108001546" = true) by reflexivity.
  assert (H2 : "20251108001546"%string <> ""%string) by discriminate.
  assert (H3 : "add users table"%string <> ""%string) by discriminate.
  assert (H4 : has_char "." "add users table" = false) by reflexivity.
  assert (H5 : createMigrationFile "20251108001546" "add users table" dir12
               = Some (Created "20251108001546_add_users_table.sql", dirCreated))
    by (vm_compute; reflexivity).
  do 5 (split; [assumption|]).
  exact (created_file_parses "20251108001546" "add users table" dir12 _ _ H1 H2 H3 H4 H5).
Defined.

Lemma load_blocked dir e err :
  In e dir -> isMigrationEntry e = true ->
  parseMigrationFile dir (entryName e) = Err err ->
  exists err', loadMigrations dir = Err err'.
Proof.
  intros Hin Hmig Hbad. unfold loadMigrations.
  destruct (parseEntries dir dir) as [ms|err'] eqn:Hp; [|by exists err'].
  apply parseEntries_Ok in Hp.
  destruct (Forall2_In_l _ _ _ e Hp) as (m & _ & Hm); [by apply filter_In|]. congruence.
Qed.

(** X10. [create] does not check the name it is given. With an empty name
    or a name with a dot in it, the file it writes does not match the
    pattern of migration file names, and from then on [loadMigrations]
    fails on the directory, and with it [up], [up-to] and [info], which
    leave the database as it was. *)
Theorem create_may_break_load accepts now ts name dir path dir' :
  all_digits ts = true -> ts <> ""%string ->
  name = ""%string \/ has_char "." name = true ->
  createMigrationFile ts name dir = Some (Created path, dir') ->
  parseMigrationFile dir' path = Err (ErrInvalidFilename path) /\
  exists err,
    loadMigrations dir' = Err err /\
    forall db,
      up accepts now dir' db = (Exited (LoadFailed err), db) /\
      (forall t, up_to accepts now dir' t db = (Exited (LoadFailed err), db)) /\
      showMigrationInfo dir' db = inl (LoadFailed err).
Proof.
  intros Hds Hts Hname Hcreate.
  destruct (createMigrationFile_Created _ _ _ _ _ Hcreate) as [-> Hread].
  assert (Hbad : parseMigrationFile dir' (ts ++ "_" ++ ReplaceAll name " " "_" ++ ".sql")%string
                 = Err (ErrInvalidFilename (ts ++ "_" ++ ReplaceAll name " " "_" ++ ".sql")%string)).
  { unfold parseMigrationFile. rewrite Hread, FindStringSubmatch_digits by done.
    rewrite no_dot_ReplaceAll_space, length_ReplaceAll_space.
    destruct Hname as [-> | ->]; [done|]. by rewrite andb_false_r. }
  split; [exact Hbad|].
  apply readFile_Ok in Hread as (e & Hin & He & Hd & _).
  rewrite <- He in Hbad at 1.
  assert (Hmig : isMigrationEntry e = true).
  { unfold isMigrationEntry. by rewrite Hd, He, HasSuffix_sql. }
  destruct (load_blocked dir' e _ Hin Hmig Hbad) as [err Herr].
  exists err. split; [done|]. intros db.
  unfold up, up_to, applyMigrations, showMigrationInfo. by rewrite Herr.
Qed.

(** X10, on the name [add users.table]. *)
Lemma create_may_break_load_witness :
  all_digits "20251108001546" = true /\ "20251108001546"%string <> ""%string /\
  (("add users.table" = "")%string \/ has_char "." "add users.table" = true) /\
  createMigrationFile "20251108001546" "add users.table" dir12
  = Some (Created "20251108001546_add_users.table.sql", dirDotted) /\
  parseMigrationFile dirDotted "20251108001546_add_users.table.sql"
  = Err (ErrInvalidFilename "20251108001546_add_users.table.sql") /\
  exists err,
    loadMigrations dirDotted = Err err /\
    forall db,
      up always clock dirDotted db = (Exited (LoadFailed err), db) /\
      (forall t, up_to always clock dirDotted t db = (Exited (LoadFailed err), db)) /\
      showMigrationInfo dirDotted db = inl (LoadFailed err).
Proof.
  assert (H1 : all_digits "20251108001546" = true) by reflexivity.
  assert (H2 : "20251108001546"%string <> ""%string) by discriminate.
  assert (H3 : ("add users.table" = "")%string \/ has_char "." "add users.table" = true)
    by (right; reflexivity).
  assert (H4 : createMigrationFile "20251108001546" "add users.table" dir12
               = Some (Created "20251108001546_add_users.table.sql", dirDotted))
    by (vm_compute; reflexivity).
  do 4 (split; [assumption|]).
  exact (create_may_break_load always clock "20251108001546" "add users.table" dir12 _ _
           H1 H2 H3 H4).
Defined.

(** ** What a run of [applyMigrations] leaves alone *)

Lemma deletions_of_scripts (ms : list Migration) :
  deletions (map (fun m => Script (UpSQL m)) ms) = [].
Proof. induction ms as [|m ms IH]; [done|]. unfold deletions in *. by simpl. Qed.

(** X11. [up] and [up-to] only ever add to the history: whatever the
    outcome of the run, no row is deleted, every row that was in the table
    is still there as it was, name, checksum and time, and a row that
    was not there is the row of a discovered migration. *)
Theorem apply_keeps_existing_rows accepts now dir upTo target db out db' :
  applyMigrations accepts now dir upTo target db = (out, db') ->
  exists new,
    trace db' = trace db ++ new /\
    deletions new = [] /\
    (forall v r, history db !! v = Some r -> history db' !! v = Some r) /\
    (forall v r, history db' !! v = Some r -> history db !! v = None ->
                 exists ms m, loadMigrations dir = Ok ms /\ In m ms /\
                              Version m = v /\ recorded m r).
Proof.
  intros Hrun. destruct (loadMigrations dir) as [ms|err] eqn:Hload; cycle 1.
  { unfold applyMigrations in Hrun. rewrite Hload in Hrun. injection Hrun as <- <-.
    exists []. rewrite app_nil_r. do 3 (split; [done|]). intros v r Hr Hno. congruence. }
  destruct (applyMigrations_spec accepts now _ _ _ _ _ _ _ Hload Hrun)
    as (completed & extra & sts & Hpre & Htr & Hsts & Hnd & Hrows & Hkeep & Hex & Hok).
  assert (Hfresh : forall m, In m completed -> In m ms /\ history db !! Version m = None).
  { intros m Hin.
    assert (Hsel : In m (selected (appliedMigrations db) upTo target ms)).
    { destruct Hpre as [k ->]. apply in_or_app. left. apply in_or_app. by left. }
    apply selected_In in Hsel as [? Hp]. by apply pendingIn_true in Hp. }
  exists (sts ++ map (fun m => Script (UpSQL m)) extra). split; [done|]. split.
  { unfold deletions. rewrite omap_app. fold (deletions sts).
    fold (deletions (map (fun m => Script (UpSQL m)) extra)).
    by rewrite (appliedAs_deletions _ _ Hsts), deletions_of_scripts. }
  split.
  - intros v r Hr. rewrite Hkeep; [done|].
    intros (m & <- & Hin)%in_map_iff. apply Hfresh in Hin as [_ Hno]. congruence.
  - intros v r Hr Hno. destruct (in_dec Z.eq_dec v (versions completed)) as [Hin|Hnotin].
    + apply in_map_iff in Hin as (m & <- & Hin). destruct (Hrows m Hin) as (r' & Hr' & Hrec).
      assert (r' = r) as -> by congruence.
      exists ms, m. by apply Hfresh in Hin as [Hin _].
    + rewrite Hkeep in Hr by done. congruence.
Qed.

(** X11, on versions 2 and 3 applied over version 1. *)
Lemma apply_keeps_existing_rows_witness :
  applyMigrations always clock dir1234 true [3%Z] db1 = (Returned MigrationsApplied, dbUpTo3) /\
  exists new,
    trace dbUpTo3 = trace db1 ++ new /\
    deletions new = [] /\
    (forall v r, history db1 !! v = Some r -> history dbUpTo3 !! v = Some r) /\
    (forall v r, history dbUpTo3 !! v = Some r -> history db1 !! v = None ->
                 exists ms m, loadMigrations dir1234 = Ok ms /\ In m ms /\
                              Version m = v /\ recorded m r).
Proof.
  assert (H1 : applyMigrations always clock dir1234 true [3%Z] db1
               = (Returned MigrationsApplied, dbUpTo3)) by (vm_compute; reflexivity).
  split; [exact H1|].
  exact (apply_keeps_existing_rows always clock dir1234 true [3%Z] db1 _ _ H1).
Defined.

(** ** [up-to] and [up] *)

Lemma applyPending_no_target accepts now applied upTo target ms db :
  (forall m, In m ms -> beyondTarget upTo target m = false) ->
  applyPending accepts now applied upTo target ms db
  = applyPending accepts now applied false [] ms db.
Proof.
  revert db. induction ms as [|m ms IH]; intros db Hall; simpl; [done|].
  assert (IH' : forall d, applyPending accepts now applied upTo target ms d
                          = applyPending accepts now applied false [] ms d).
  { intros d. apply IH. intros m' Hin. apply Hall. by right. }
  rewrite (Hall m) by (by left). rewrite IH'.
  destruct (applied !! Version m); [done|].
  destruct (Exec accepts db (UpSQL m)) as [db1|]; [|done].
  destruct (ExecInsert accepts db1 (Version m) _); [|done]. apply IH'.
Qed.

(** X12. A target at or above every discovered version stops nothing:
    [up-to] with such a target is [up]. *)
Theorem up_to_highest_is_up accepts now dir ms t db :
  loadMigrations dir = Ok ms ->
  (forall m, In m ms -> (Version m <= t)%Z) ->
  up_to accepts now dir t db = up accepts now dir db.
Proof.
  intros Hload Hall. unfold up_to, up, applyMigrations. rewrite Hload.
  destruct (validateChecksums (appliedMigrations db) ms); [done|].
  rewrite applyPending_no_target; [done|].
  intros m Hin. simpl. apply Z.ltb_ge. by apply Hall.
Qed.

(** X12, on versions 1 to 4 and the target 4. *)
Lemma up_to_highest_is_up_witness :
  loadMigrations dir1234 = Ok (loaded dir1234) /\
  (forall m, In m (loaded dir1234) -> (Version m <= 4)%Z) /\
  up_to always clock dir1234 4 db1 = up always clock dir1234 db1.
Proof.
  assert (H1 : loadMigrations dir1234 = Ok (loaded dir1234)) by (vm_compute; reflexivity).
  assert (H2 : forall m, In m (loaded dir1234) -> (Version m <= 4)%Z).
  { intros m Hin. vm_compute in Hin.
    repeat (destruct Hin as [<-|Hin]; [vm_compute; discriminate|]). destruct Hin. }
  split; [exact H1|]. split; [exact H2|].
  exact (up_to_highest_is_up always clock dir1234 (loaded dir1234) 4 db1 H1 H2).
Defined.

Lemma applyPending_ext accepts now applied applied' upTo target ms db :
  (forall m, In m ms -> pendingIn applied' m = pendingIn applied m) ->
  applyPending accepts now applied' upTo target ms db
  = applyPending accepts now applied upTo target ms db.
Proof.
  revert db. induction ms as [|m ms IH]; intros db Hall; simpl; [done|].
  assert (IH' : forall d, applyPending accepts now applied' upTo target ms d
                          = applyPending accepts now applied upTo target ms d).
  { intros d. apply IH. intros m' Hin. apply Hall. by right. }
  specialize (Hall m (or_introl eq_refl)). unfold pendingIn in Hall.
  destruct (applied' !! Version m), (applied !! Version m); try done.
  destruct (beyondTarget upTo target m); [done|].
  destruct (Exec accepts db (UpSQL m)) as [db1|]; [|done].
  destruct (ExecInsert accepts db1 (Version m) _); [|done]. apply IH'.
Qed.

(** A second run after a run of [up-to] that returned: when its own
    target lets through what the first target let through, its loop passes
    over what the first run applied, and goes on from there. *)
Lemma applyPending_resume accepts now applied applied1 t upTo target ms db db1 :
  ascending ms ->
  applyPending accepts now applied true [t] ms db = (None, db1) ->
  (forall m, In m ms -> (Version m <= t)%Z -> beyondTarget upTo target m = false) ->
  (forall m, In m ms -> pendingIn applied1 m = pendingIn applied m && (t <? Version m)%Z) ->
  applyPending accepts now applied1 upTo target ms db1
  = applyPending accepts now applied upTo target ms db.
Proof.
  unfold ascending. intros Hs. revert db.
  induction Hs as [|m ms Hs IH Hall]; intros db Hrun Hlet Hpend;
    cbn [applyPending] in *.
  { by injection Hrun as <-. }
  assert (Hrest : forall m', In m' ms ->
            pendingIn applied1 m' = pendingIn applied m' && (t <? Version m')%Z).
  { intros m' Hin. apply Hpend. by right. }
  assert (Hlet' : forall m', In m' ms -> (Version m' <= t)%Z ->
            beyondTarget upTo target m' = false).
  { intros m' Hin. apply Hlet. by right. }
  pose proof (Hpend m (or_introl eq_refl)) as Hm. unfold pendingIn in Hm.
  destruct (applied !! Version m) as [c|] eqn:Hc.
  { destruct (applied1 !! Version m); [|done]. by apply IH. }
  unfold beyondTarget at 1 in Hrun. cbn [andb] in Hrun.
  destruct (t <? Version m)%Z eqn:Hlt.
  - injection Hrun as <-. destruct (applied1 !! Version m); [done|].
    apply Z.ltb_lt in Hlt.
    assert (Hext : forall d, applyPending accepts now applied1 upTo target ms d
                             = applyPending accepts now applied upTo target ms d).
    { intros d. apply applyPending_ext. intros m' Hin. rewrite Hrest by done.
      rewrite List.Forall_forall in Hall. specialize (Hall m' Hin).
      replace (t <? Version m')%Z with true by (symmetry; apply Z.ltb_lt; lia).
      apply andb_true_r. }
    destruct (beyondTarget upTo target m); [done|].
    destruct (Exec accepts db (UpSQL m)) as [d1|]; [|done].
    destruct (ExecInsert accepts d1 (Version m) _); [|done]. apply Hext.
  - destruct (applied1 !! Version m); [|done].
    apply Z.ltb_ge in Hlt. rewrite (Hlet m); [|by left|done].
    destruct (Exec accepts db (UpSQL m)) as [d1|]; [|done].
    destruct (ExecInsert accepts d1 (Version m) _) as [d2|]; [|done]. by apply IH.
Qed.

(** What a run of [up-to] that returned has left. *)
Lemma up_to_returned accepts now dir t db db1 :
  up_to accepts now dir t db = (Returned MigrationsApplied, db1) ->
  exists ms,
    loadMigrations dir = Ok ms /\
    validateChecksums (appliedMigrations db) ms = None /\
    validateChecksums (appliedMigrations db1) ms = None /\
    applyPending accepts now (appliedMigrations db) true [t] ms db = (None, db1) /\
    forall m, In m ms ->
      pendingIn (appliedMigrations db1) m
      = pendingIn (appliedMigrations db) m && (t <? Version m)%Z.
Proof.
  intros Hrun. destruct (loadMigrations dir) as [ms|err] eqn:Hload; cycle 1.
  { unfold up_to, applyMigrations in Hrun. by rewrite Hload in Hrun. }
  pose proof (loadMigrations_sorted _ _ Hload) as Hsorted.
  destruct (applyMigrations_spec accepts now _ _ _ _ _ _ _ Hload Hrun)
    as (completed & extra & sts & Hpre & Htr & Hsts & Hnd & Hrows & Hkeep & Hex & Hok).
  destruct (Hok eq_refl) as (-> & Hsel & Hval). clear Hok Hex Hpre.
  rewrite selected_up_to in Hsel by done.
  assert (Hin : forall m, In m completed <->
            In m ms /\ history db !! Version m = None /\ (Version m <= t)%Z).
  { intros m. rewrite Hsel, filter_In, andb_true_iff, pendingIn_true, Z.leb_le. tauto. }
  assert (Hold : forall v, In v (versions completed) ->
            history db !! v = None /\ (v <= t)%Z).
  { intros v (m & <- & Hm)%in_map_iff. apply Hin in Hm. tauto. }
  assert (Hpend : forall m, In m ms ->
            pendingIn (appliedMigrations db1) m
            = pendingIn (appliedMigrations db) m && (t <? Version m)%Z).
  { intros m Hm. destruct (pendingIn (appliedMigrations db) m) eqn:Hp; simpl.
    - apply pendingIn_true in Hp. destruct (t <? Version m)%Z eqn:Hlt.
      + apply Z.ltb_lt in Hlt. apply pendingIn_true. rewrite Hkeep; [done|].
        intros [_ Hle]%Hold. lia.
      + apply Z.ltb_ge in Hlt. destruct (Hrows m) as (r & Hr & _); [by apply Hin|].
        destruct (pendingIn (appliedMigrations db1) m) eqn:Hp1; [|done].
        apply pendingIn_true in Hp1. congruence.
    - destruct (pendingIn (appliedMigrations db1) m) eqn:Hp1; [|done].
      apply pendingIn_true in Hp1. rewrite Hkeep in Hp1.
      + apply pendingIn_true in Hp1. congruence.
      + intros [Hno _]%Hold. apply pendingIn_true in Hno. congruence. }
  assert (Hval1 : validateChecksums (appliedMigrations db1) ms = None).
  { apply validateChecksums_None. intros m Hm c Hc.
    destruct (in_dec Z.eq_dec (Version m) (versions completed)) as [Hv|Hv].
    - destruct (Hold _ Hv) as [Hno Hle].
      assert (Hmc : In m completed) by (by apply Hin).
      destruct (Hrows m Hmc) as (r & Hr & _ & Hsum).
      apply applied_Some in Hc as (r' & Hr' & <-). congruence.
    - eapply validateChecksums_ok; [exact Hval|exact Hm|].
      apply applied_Some in Hc as (r & Hr & <-). apply applied_Some.
      exists r. by rewrite <- Hkeep. }
  exists ms. do 3 (split; [done|]). split; [|done].
  unfold up_to, applyMigrations in Hrun. rewrite Hload, Hval in Hrun.
  destruct (applyPending accepts now (appliedMigrations db) true [t] ms db)
    as [[f|] d] eqn:Hloop; [done|]. by injection Hrun as ->.
Qed.

(** With one clock for both, the later run ends as the run at once. *)
Lemma resume_same_clock accepts now dir t upTo target db db1 :
  up_to accepts now dir t db = (Returned MigrationsApplied, db1) ->
  (forall m, (Version m <= t)%Z -> beyondTarget upTo target m = false) ->
  applyMigrations accepts now dir upTo target db1
  = applyMigrations accepts now dir upTo target db.
Proof.
  intros (ms & Hload & Hval & Hval1 & Hloop & Hpend)%up_to_returned Hlet.
  pose proof (loadMigrations_sorted _ _ Hload) as Hsorted.
  unfold applyMigrations. rewrite Hload, Hval, Hval1.
  rewrite (applyPending_resume _ _ _ _ _ _ _ _ _ _ Hsorted Hloop); try done.
  intros m _. apply Hlet.
Qed.

(** On a sorted slice, the pending migrations are those at or below the
    target, and then those that are still pending past it. *)
Lemma pending_split (p p1 : Migration -> bool) t ms :
  ascending ms ->
  (forall m, In m ms -> p1 m = p m && (t <? Version m)%Z) ->
  List.filter p ms
  = List.filter (fun m => p m && (Version m <=? t)%Z) ms ++ List.filter p1 ms.
Proof.
  unfold ascending. induction 1 as [|m ms Hs IH Hall]; intros Hp1; [done|].
  assert (Hrest : forall m', In m' ms -> p1 m' = p m' && (t <? Version m')%Z).
  { intros m' Hin. apply Hp1. by right. }
  destruct (t <? Version m)%Z eqn:Hlt.
  - apply Z.ltb_lt in Hlt. rewrite List.Forall_forall in Hall.
    assert (Hgt : forall m', In m' (m :: ms) -> (t < Version m')%Z).
    { intros m' [<-|Hin]; [done|]. specialize (Hall m' Hin). lia. }
    rewrite (filter_none (fun m0 => p m0 && (Version m0 <=? t)%Z)); cycle 1.
    { intros m' Hin. apply Hgt in Hin.
      replace (Version m' <=? t)%Z with false by (symmetry; apply Z.leb_gt; lia).
      apply andb_false_r. }
    rewrite app_nil_l. apply filter_ext_in. intros m' Hin. rewrite (Hp1 m' Hin).
    apply Hgt in Hin.
    replace (t <? Version m')%Z with true by (symmetry; apply Z.ltb_lt; lia).
    by rewrite andb_true_r.
  - apply Z.ltb_ge in Hlt. cbn [List.filter].
    rewrite (Hp1 m) by (by left).
    replace (t <? Version m)%Z with false by (symmetry; apply Z.ltb_ge; lia).
    replace (Version m <=? t)%Z with true by (symmetry; apply Z.leb_le; lia).
    rewrite andb_false_r, andb_true_r, (IH Hrest). by destruct (p m).
Qed.

(** ** Runs that differ by the clock *)

Lemma sameButTime_executed db db' st st' (h h' : gmap Z Row) :
  sameButTime db db' -> untimedStatement st = untimedStatement st' ->
  untimed <$> h = untimed <$> h' ->
  sameButTime (executed db st h) (executed db' st' h').
Proof.
  unfold sameButTime, untimedDB, executed. cbn [history trace].
  intros [= Hh Ht] Hst Hh'. rewrite !map_app. cbn [map]. by rewrite Ht, Hst, Hh'.
Qed.

Lemma sameButTime_history db db' : sameButTime db db' ->
  untimed <$> history db = untimed <$> history db'.
Proof. by intros [= Hh _]. Qed.

Lemma sameButTime_lookup db db' v :
  sameButTime db db' -> history db !! v = None <-> history db' !! v = None.
Proof.
  intros Hh%sameButTime_history. apply (f_equal (fun h => h !! v)) in Hh.
  rewrite !lookup_fmap in Hh.
  destruct (history db !! v), (history db' !! v); simpl in Hh; try done.
Qed.

(** The loop under two clocks, on databases that differ by the times. *)
Lemma applyPending_untimed accepts now now' applied upTo target ms db db' :
  timeless accepts -> sameButTime db db' ->
  (applyPending accepts now applied upTo target ms db).1
  = (applyPending accepts now' applied upTo target ms db').1 /\
  sameButTime (applyPending accepts now applied upTo target ms db).2
              (applyPending accepts now' applied upTo target ms db').2.
Proof.
  intros Hacc. revert db db'.
  induction ms as [|m ms IH]; intros db db' Hsame; cbn [applyPending]; [done|].
  destruct (applied !! Version m); [by apply IH|].
  destruct (beyondTarget upTo target m); [done|].
  unfold Exec.
  rewrite (Hacc db db' (Script (UpSQL m)) (Script (UpSQL m)) Hsame eq_refl).
  destruct (accepts db' (Script (UpSQL m))); [|done].
  set (d1 := executed db (Script (UpSQL m)) (history db)).
  set (d1' := executed db' (Script (UpSQL m)) (history db')).
  assert (Hsame1 : sameButTime d1 d1').
  { apply sameButTime_executed; [done|done|by apply sameButTime_history]. }
  unfold ExecInsert.
  set (row := {| rowName := Name m; rowChecksum := Checksum m; rowAppliedAt := now d1 |}).
  set (row' := {| rowName := Name m; rowChecksum := Checksum m; rowAppliedAt := now' d1' |}).
  rewrite (Hacc d1 d1' (InsertRow (Version m) row) (InsertRow (Version m) row')
             Hsame1 eq_refl).
  destruct (accepts d1' (InsertRow (Version m) row')); [|done].
  pose proof (sameButTime_lookup d1 d1' (Version m) Hsame1) as Hlook.
  destruct (history d1 !! Version m) as [r|] eqn:Hr;
    destruct (history d1' !! Version m) as [r'|] eqn:Hr'; try done.
  - by destruct Hlook as [_ Hlook]; specialize (Hlook eq_refl).
  - by destruct Hlook as [Hlook _]; specialize (Hlook eq_refl).
  - apply IH. apply sameButTime_executed; [done|done|].
    rewrite !fmap_insert. f_equal. by apply sameButTime_history.
Qed.

(** A whole run under two clocks. *)
Lemma applyMigrations_untimed accepts now now' dir upTo target db :
  timeless accepts ->
  (applyMigrations accepts now dir upTo target db).1
  = (applyMigrations accepts now' dir upTo target db).1 /\
  sameButTime (applyMigrations accepts now dir upTo target db).2
              (applyMigrations accepts now' dir upTo target db).2.
Proof.
  intros Hacc. unfold applyMigrations.
  destruct (loadMigrations dir) as [ms|err]; [|done].
  destruct (validateChecksums (appliedMigrations db) ms); [done|].
  pose proof (applyPending_untimed accepts now now' (appliedMigrations db) upTo target ms
                db db Hacc eq_refl) as [Hf Hd].
  destruct (applyPending accepts now (appliedMigrations db) upTo target ms db) as [f d].
  destruct (applyPending accepts now' (appliedMigrations db) upTo target ms db) as [f' d'].
  simpl in Hf, Hd. subst f'. by destruct f.
Qed.

(** X13. [up-to] is a beginning of [up], and of [up-to] with a later
    target. After a run of [up-to t] that returned, the checksum
    validation passes again, and the migrations that were pending before
    it are those it applied followed by those that are pending now. For a
    database that does not look at the times of the rows, a later [up],
    or [up-to] with a target at or above [t], then ends as that command
    would have ended had it been run at once: the same outcome, and the
    same statements and rows but for the times of the rows, each
    invocation reading a clock of its own. *)
Theorem up_after_up_to accepts now dir t db db1 :
  up_to accepts now dir t db = (Returned MigrationsApplied, db1) ->
  (exists ms,
     loadMigrations dir = Ok ms /\
     validateChecksums (appliedMigrations db1) ms = None /\
     pending db ms = pendingUpTo db t ms ++ pending db1 ms) /\
  (timeless accepts ->
   forall later atOnce,
     ((up accepts later dir db1).1 = (up accepts atOnce dir db).1 /\
      sameButTime (up accepts later dir db1).2 (up accepts atOnce dir db).2) /\
     forall t', (t <= t')%Z ->
       (up_to accepts later dir t' db1).1 = (up_to accepts atOnce dir t' db).1 /\
       sameButTime (up_to accepts later dir t' db1).2 (up_to accepts atOnce dir t' db).2).
Proof.
  intros Hrun. split.
  - destruct (up_to_returned _ _ _ _ _ _ Hrun) as (ms & Hload & _ & Hval1 & _ & Hpend).
    exists ms. do 2 (split; [done|]). unfold pending, pendingUpTo.
    apply pending_split; [by eapply loadMigrations_sorted|done].
  - intros Hacc later atOnce.
    assert (Hgen : forall upTo target,
              (forall m, (Version m <= t)%Z -> beyondTarget upTo target m = false) ->
              (applyMigrations accepts later dir upTo target db1).1
              = (applyMigrations accepts atOnce dir upTo target db).1 /\
              sameButTime (applyMigrations accepts later dir upTo target db1).2
                          (applyMigrations accepts atOnce dir upTo target db).2).
    { intros upTo target Hlet.
      destruct (applyMigrations_untimed accepts later now dir upTo target db1 Hacc)
        as [Hout1 Hdb1].
      destruct (applyMigrations_untimed accepts now atOnce dir upTo target db Hacc)
        as [Hout2 Hdb2].
      rewrite (resume_same_clock _ _ _ _ _ _ _ _ Hrun Hlet) in Hout1, Hdb1.
      split; [congruence|]. unfold sameButTime in *. congruence. }
    split; [by apply Hgen|].
    intros t' Hle. apply Hgen. intros m Hm. simpl. apply Z.ltb_ge. lia.
Qed.

(** X13, on versions 2 and 3 applied by [up-to 3], version 4 left, the
    later run reading a later clock. *)
Lemma up_after_up_to_witness :
  up_to always clock dir1234 3 dbA = (Returned MigrationsApplied, dbABC) /\
  timeless always /\
  (exists ms,
     loadMigrations dir1234 = Ok ms /\
     validateChecksums (appliedMigrations dbABC) ms = None /\
     pending dbA ms = pendingUpTo dbA 3 ms ++ pending dbABC ms) /\
  (up always laterClock dir1234 dbABC).1 = (up always clock dir1234 dbA).1 /\
  sameButTime (up always laterClock dir1234 dbABC).2 (up always clock dir1234 dbA).2.
Proof.
  assert (H1 : up_to always clock dir1234 3 dbA = (Returned MigrationsApplied, dbABC))
    by (vm_compute; reflexivity).
  assert (H2 : timeless always) by (intros ? ? ? ? _ _; reflexivity).
  split; [exact H1|]. split; [exact H2|].
  split; [exact (proj1 (up_after_up_to always clock dir1234 3 dbA dbABC H1))|].
  exact (proj1 (proj2 (up_after_up_to always clock dir1234 3 dbA dbABC H1)
                  H2 laterClock clock)).
Defined.

(** The later run inserts the row of version 4 at another time than the
    run at once. *)
Example later_clock_other_time :
  rowAppliedAt <$> history (up always laterClock dir1234 dbABC).2 !! 4%Z = Some 1007%Z /\
  rowAppliedAt <$> history (up always clock dir1234 dbA).2 !! 4%Z = Some 7%Z.
Proof. vm_compute. done. Qed.

(** ** A forward script that fails *)

Lemma selected_ext applied applied' upTo target ms :
  (forall m, In m ms -> pendingIn applied' m = pendingIn applied m) ->
  selected applied' upTo target ms = selected applied upTo target ms.
Proof.
  induction ms as [|m ms IH]; simpl; intros Hall; [done|].
  rewrite (Hall m) by (by left). rewrite IH by (intros m' Hin; apply Hall; by right).
  done.
Qed.

(** The selection of a second run, after a first run that completed a
    beginning of its own selection. *)
Lemma selected_resume applied applied1 upTo target ms completed tail :
  List.NoDup (versions ms) ->
  selected applied upTo target ms = completed ++ tail ->
  (forall m, In m ms -> In (Version m) (versions completed) -> pendingIn applied1 m = false) ->
  (forall m, In m ms -> ~ In (Version m) (versions completed) ->
             pendingIn applied1 m = pendingIn applied m) ->
  selected applied1 upTo target ms = tail.
Proof.
  unfold versions. revert completed.
  induction ms as [|m ms IH]; intros completed Hnd Hsel Hin Hout;
    cbn [selected map] in *.
  { symmetry in Hsel. by apply app_eq_nil in Hsel as [_ ->]. }
  apply NoDup_cons_iff in Hnd as [Hfresh Hnd].
  assert (Hother : forall m', In m' ms -> Version m' <> Version m).
  { intros m' Hm' Heq. apply Hfresh. rewrite <- Heq. by apply in_map. }
  destruct (pendingIn applied m) eqn:Hp.
  - destruct (beyondTarget upTo target m) eqn:Hb.
    + symmetry in Hsel. apply app_eq_nil in Hsel as [-> ->].
      rewrite (Hout m); [|by left|by intros []]. by rewrite Hp.
    + destruct completed as [|m0 completed]; simpl in Hsel.
      * rewrite (Hout m); [|by left|by intros []]. rewrite Hp, <- Hsel. f_equal.
        apply selected_ext. intros m' Hm'. apply Hout; [by right|by intros []].
      * injection Hsel as <- Hsel. rewrite (Hin m) by (by left).
        apply (IH completed); [done|done| |].
        -- intros m' Hm' Hv. apply Hin; [by right|by right].
        -- intros m' Hm' Hv. apply Hout; [by right|].
           intros [Heq|Hv']; [by apply (Hother m')|done].
  - assert (Hp1 : pendingIn applied1 m = false).
    { destruct (in_dec Z.eq_dec (Version m) (map Version completed)) as [Hv|Hv].
      - apply Hin; [by left|done].
      - rewrite Hout; [done|by left|done]. }
    rewrite Hp1. apply (IH completed); [done|done| |].
    + intros m' Hm' Hv. apply Hin; [by right|done].
    + intros m' Hm' Hv. apply Hout; [by right|done].
Qed.

(** X14. When the database refuses a forward script, the run stops
    there: the migrations selected before it are applied and recorded,
    the refused one is not in the trace, and nothing is recorded for it or
    for any migration after it. With pairwise distinct versions the
    table left behind passes the checksum validation of the next run,
    whose selection begins with the migration that failed. *)
Theorem failed_script_stops_run accepts now dir ms upTo target db v db' :
  loadMigrations dir = Ok ms ->
  applyMigrations accepts now dir upTo target db = (Exited (ApplyFailed v), db') ->
  exists completed m rest sts,
    selected (appliedMigrations db) upTo target ms = completed ++ m :: rest /\
    v = Version m /\ accepts db' (Script (UpSQL m)) = false /\
    trace db' = trace db ++ sts /\ appliedAs completed sts /\
    (forall m', In m' completed ->
                exists r, history db' !! Version m' = Some r /\ recorded m' r) /\
    (forall v', ~ In v' (versions completed) -> history db' !! v' = history db !! v') /\
    (List.NoDup (versions ms) ->
     (forall m', In m' (m :: rest) -> history db' !! Version m' = None) /\
     validateChecksums (appliedMigrations db') ms = None /\
     selected (appliedMigrations db') upTo target ms = m :: rest).
Proof.
  intros Hload. unfold applyMigrations. rewrite Hload.
  destruct (validateChecksums (appliedMigrations db) ms) eqn:Hval; [done|].
  destruct (applyPending accepts now (appliedMigrations db) upTo target ms db)
    as [[f|] d] eqn:Hloop; [|done].
  intros [= -> ->].
  apply applyPending_run in Hloop
    as (completed & extra & sts & Hpre & Htr & Hsts & Hfresh & Hnd & Hrows & Hkeep & Hf).
  destruct Hf as (-> & m & rest & Hsel & -> & Hno). simpl in Htr. rewrite app_nil_r in Htr.
  exists completed, m, rest, sts. do 7 (split; [done|]). intros Hdistinct.
  assert (Hsub : forall m', In m' (completed ++ m :: rest) ->
            In m' ms /\ history db !! Version m' = None).
  { intros m' Hm'. rewrite <- Hsel in Hm'. apply selected_In in Hm' as [? Hp].
    by apply pendingIn_true in Hp. }
  assert (Hsplit : List.NoDup (versions (completed ++ m :: rest))).
  { rewrite <- Hsel. by apply selected_NoDup. }
  assert (Hlater : forall m', In m' (m :: rest) -> ~ In (Version m') (versions completed)).
  { intros m' Hm' Hv. unfold versions in Hsplit, Hv. rewrite map_app in Hsplit.
    apply NoDup_ListNoDup, NoDup_app in Hsplit as (_ & Hdisj & _).
    apply (Hdisj (Version m')); apply list_elem_of_In; [exact Hv|by apply in_map]. }
  split; [|split].
  - intros m' Hm'. rewrite Hkeep by (by apply Hlater).
    apply Hsub, in_or_app. by right.
  - apply validateChecksums_None. intros m0 Hm0 c Hc.
    apply applied_Some in Hc as (r & Hr & <-).
    destruct (in_dec Z.eq_dec (Version m0) (versions completed)) as [Hv|Hv].
    + apply in_map_iff in Hv as (mc & Heq & Hmc).
      assert (mc = m0) as ->.
      { apply (NoDup_map_inj Version ms); try done.
        apply Hsub, in_or_app. by left. }
      destruct (Hrows m0 Hmc) as (r' & Hr' & _ & Hsum). congruence.
    + eapply validateChecksums_ok; [exact Hval|exact Hm0|].
      apply applied_Some. exists r. by rewrite <- Hkeep.
  - apply (selected_resume (appliedMigrations db) _ _ _ _ completed); try done.
    + intros m0 Hm0 (mc & Heq & Hmc)%in_map_iff.
      destruct (Hrows mc Hmc) as (r & Hr & _).
      destruct (pendingIn (appliedMigrations db') m0) eqn:Hp; [|done].
      apply pendingIn_true in Hp. congruence.
    + intros m0 Hm0 Hv. unfold pendingIn, appliedMigrations.
      by rewrite !lookup_fmap, Hkeep.
Qed.

(** X14, on a database that refuses the forward script of version 3. *)
Lemma failed_script_stops_run_witness :
  loadMigrations dir1234 = Ok (loaded dir1234) /\
  applyMigrations refuseCreateC clock dir1234 false [] emptyDB
  = (Exited (ApplyFailed 3), dbFailed) /\
  exists completed m rest sts,
    selected (appliedMigrations emptyDB) false [] (loaded dir1234) = completed ++ m :: rest /\
    3%Z = Version m /\ refuseCreateC dbFailed (Script (UpSQL m)) = false /\
    trace dbFailed = trace emptyDB ++ sts /\ appliedAs completed sts /\
    (forall m', In m' completed ->
                exists r, history dbFailed !! Version m' = Some r /\ recorded m' r) /\
    (forall v', ~ In v' (versions completed) ->
                history dbFailed !! v' = history emptyDB !! v') /\
    (List.NoDup (versions (loaded dir1234)) ->
     (forall m', In m' (m :: rest) -> history dbFailed !! Version m' = None) /\
     validateChecksums (appliedMigrations dbFailed) (loaded dir1234) = None /\
     selected (appliedMigrations dbFailed) false [] (loaded dir1234) = m :: rest).
Proof.
  assert (H1 : loadMigrations dir1234 = Ok (loaded dir1234)) by (vm_compute; reflexivity).
  assert (H2 : applyMigrations refuseCreateC clock dir1234 false [] emptyDB
               = (Exited (ApplyFailed 3), dbFailed)) by (vm_compute; reflexivity).
  split; [exact H1|]. split; [exact H2|].
  exact (failed_script_stops_run refuseCreateC clock dir1234 (loaded dir1234) false []
           emptyDB 3 dbFailed H1 H2).
Defined.

(** ** A file that does not parse *)

(** X15. One regular file with a name in [.sql] that does not parse
    stops [up], [up-to] and [info] on a load error, before they look at
    the database. It does not stop [down], which reads no file but the
    one it names after the highest row. *)
Theorem bad_file_blocks_all_but_down accepts now dir e err :
  In e dir -> IsDir e = false -> HasSuffix (entryName e) ".sql" = true ->
  parseMigrationFile dir (entryName e) = Err err ->
  exists err',
    loadMigrations dir = Err err' /\
    forall db,
      up accepts now dir db = (Exited (LoadFailed err'), db) /\
      (forall t, up_to accepts now dir t db = (Exited (LoadFailed err'), db)) /\
      showMigrationInfo dir db = inl (LoadFailed err') /\
      (forall v r m,
         highest (history db) v r ->
         parseMigrationFile dir (migrationFilename v (rowName r)) = Ok m ->
         accepts db (Script (DownSQL m)) = true ->
         accepts (executed db (Script (DownSQL m)) (history db)) (DeleteRow v) = true ->
         exists db',
           rollbackLastMigration accepts dir db = (Returned RollbackSuccessful, db') /\
           history db' = delete v (history db)).
Proof.
  intros Hin Hd Hs Hbad.
  destruct (load_blocked dir e err Hin) as [err' Herr]; [|done|].
  { unfold isMigrationEntry. by rewrite Hd, Hs. }
  exists err'. split; [done|]. intros db.
  unfold up, up_to, applyMigrations, showMigrationInfo. rewrite Herr.
  do 3 (split; [done|]). intros v r m Hhigh Hm Hdown Hdel.
  unfold rollbackLastMigration, Exec, ExecDelete.
  rewrite (highest_lastRow _ _ _ Hhigh), Hm, Hdown, Hdel. by eexists.
Qed.

(** X15, on three applied migrations and a file of notes. *)
Lemma bad_file_blocks_all_but_down_witness :
  In notes dirNotes /\ IsDir notes = false /\ HasSuffix (entryName notes) ".sql" = true /\
  parseMigrationFile dirNotes (entryName notes) = Err (ErrInvalidFilename "notes.sql") /\
  exists err',
    loadMigrations dirNotes = Err err' /\
    forall db,
      up always clock dirNotes db = (Exited (LoadFailed err'), db) /\
      (forall t, up_to always clock dirNotes t db = (Exited (LoadFailed err'), db)) /\
      showMigrationInfo dirNotes db = inl (LoadFailed err') /\
      (forall v r m,
         highest (history db) v r ->
         parseMigrationFile dirNotes (migrationFilename v (rowName r)) = Ok m ->
         always db (Script (DownSQL m)) = true ->
         always (executed db (Script (DownSQL m)) (history db)) (DeleteRow v) = true ->
         exists db',
           rollbackLastMigration always dirNotes db = (Returned RollbackSuccessful, db') /\
           history db' = delete v (history db)).
Proof.
  assert (H1 : In notes dirNotes) by (do 3 right; by left).
  assert (H2 : IsDir notes = false) by reflexivity.
  assert (H3 : HasSuffix (entryName notes) ".sql" = true) by reflexivity.
  assert (H4 : parseMigrationFile dirNotes (entryName notes)
               = Err (ErrInvalidFilename "notes.sql")) by reflexivity.
  do 4 (split; [assumption|]).
  exact (bad_file_blocks_all_but_down always clock dirNotes notes _ H1 H2 H3 H4).
Defined.

(** ** The checksum validation, and what [info] shows of it *)

Lemma validateChecksums_first applied ms m :
  validateChecksums applied ms = Some m ->
  exists before after,
    ms = before ++ m :: after /\ validateChecksums applied before = None.
Proof.
  induction ms as [|m' ms IH]; simpl; [done|].
  destruct (applied !! Version m') as [old|] eqn:Hold.
  - destruct (String.eqb old (Checksum m')) eqn:Heq.
    + intros H. destruct (IH H) as (before & after & -> & Hnone).
      exists (m' :: before), after. split; [done|]. simpl. by rewrite Hold, Heq.
    + intros [= <-]. by exists [], ms.
  - intros H. destruct (IH H) as (before & after & -> & Hnone).
    exists (m' :: before), after. split; [done|]. simpl. by rewrite Hold.
Qed.

(** A run exits on a checksum mismatch only out of the validation loop. *)
Lemma applyMigrations_ChecksumMismatch accepts now dir ms upTo target db v n db' :
  loadMigrations dir = Ok ms ->
  applyMigrations accepts now dir upTo target db = (Exited (ChecksumMismatch v n), db') ->
  db' = db /\
  exists m, validateChecksums (appliedMigrations db) ms = Some m /\
            Version m = v /\ Name m = n.
Proof.
  intros Hload. unfold applyMigrations. rewrite Hload.
  destruct (validateChecksums (appliedMigrations db) ms) as [m|] eqn:Hval.
  - intros [= <- <- <-]. split; [done|]. by exists m.
  - destruct (applyPending accepts now (appliedMigrations db) upTo target ms db)
      as [[f|] d] eqn:Hloop; [|done].
    intros [= -> ->].
    apply applyPending_run in Hloop as (? & ? & ? & _ & _ & _ & _ & _ & _ & _ & Hf). done.
Qed.

Lemma tampered_iff db m :
  tampered db m <->
  exists c, appliedMigrations db !! Version m = Some c /\ c <> Checksum m.
Proof.
  unfold tampered. split.
  - intros (r & Hr & Hne). exists (rowChecksum r). split; [|done].
    apply applied_Some. by exists r.
  - intros (c & (r & Hr & <-)%applied_Some & Hne). by exists r.
Qed.

Lemma ascending_app_r (l k : list Migration) : ascending (l ++ k) -> ascending k.
Proof.
  unfold ascending. induction l as [|m l IH]; simpl; [done|].
  intros [Hs _]%StronglySorted_inv. by apply IH.
Qed.

(** X16. The checksum-mismatch error of [up] and [up-to] names a
    migration that has been tampered with, and the one of lowest version
    if there are several; the run has left the database as it was. *)
Theorem mismatch_names_lowest_version accepts now dir ms upTo target db v n db' :
  loadMigrations dir = Ok ms ->
  applyMigrations accepts now dir upTo target db = (Exited (ChecksumMismatch v n), db') ->
  db' = db /\
  (exists m, In m ms /\ Version m = v /\ Name m = n /\ tampered db m) /\
  (forall m, In m ms -> tampered db m -> (v <= Version m)%Z).
Proof.
  intros Hload Hrun. pose proof (loadMigrations_sorted _ _ Hload) as Hsorted.
  destruct (applyMigrations_ChecksumMismatch _ _ _ _ _ _ _ _ _ _ Hload Hrun)
    as (-> & m0 & Hval & <- & <-).
  split; [done|]. split.
  - exists m0. apply validateChecksums_Some in Hval as [Hin Htam].
    repeat split; try done. by apply tampered_iff.
  - intros m Hin (c & Hc & Hne)%tampered_iff.
    apply validateChecksums_first in Hval as (before & after & -> & Hnone).
    apply in_app_or in Hin as [Hin|[<-|Hin]]; [|lia|].
    + destruct Hne. by eapply validateChecksums_ok.
    + apply ascending_app_r in Hsorted.
      apply StronglySorted_inv in Hsorted as [_ Hall].
      rewrite List.Forall_forall in Hall. by apply Hall.
Qed.

(** X16, on two edited files. *)
Lemma mismatch_names_lowest_version_witness :
  loadMigrations dirEdited12 = Ok (loaded dirEdited12) /\
  applyMigrations always clock dirEdited12 true [1%Z] db12
  = (Exited (ChecksumMismatch 1 "a"), db12) /\
  db12 = db12 /\
  (exists m, In m (loaded dirEdited12) /\ Version m = 1%Z /\ Name m = "a"%string /\
             tampered db12 m) /\
  (forall m, In m (loaded dirEdited12) -> tampered db12 m -> (1 <= Version m)%Z).
Proof.
  assert (H1 : loadMigrations dirEdited12 = Ok (loaded dirEdited12))
    by (vm_compute; reflexivity).
  assert (H2 : applyMigrations always clock dirEdited12 true [1%Z] db12
               = (Exited (ChecksumMismatch 1 "a"), db12)) by (vm_compute; reflexivity).
  split; [exact H1|]. split; [exact H2|].
  exact (mismatch_names_lowest_version always clock dirEdited12 (loaded dirEdited12)
           true [1%Z] db12 1 "a" db12 H1 H2).
Defined.

Lemma infoLine_valid h m :
  infoName (infoLine h m) = Name m /\
  match infoValid (infoLine h m) with
  | NO => h !! Version m = None /\ infoAppliedAt (infoLine h m) = None
  | YES =>
      exists r, h !! Version m = Some r /\ rowChecksum r = Checksum m /\
                infoAppliedAt (infoLine h m) = Some (rowAppliedAt r)
  | CHANGED =>
      exists r, h !! Version m = Some r /\ rowChecksum r <> Checksum m /\
                infoAppliedAt (infoLine h m) = Some (rowAppliedAt r)
  end.
Proof.
  unfold infoLine. destruct (h !! Version m) as [r|]; simpl; [|done].
  split; [done|]. destruct (String.eqb (rowChecksum r) (Checksum m)) eqn:Heq.
  - apply String.eqb_eq in Heq. by exists r.
  - apply String.eqb_neq in Heq. by exists r.
Qed.

(** X17. Each line of [info] stands for one discovered migration and
    tells its state: [NO] when the version has no row, [YES] when it has a
    row with the checksum of the file, [CHANGED] when the row has another
    checksum; with a row, the line shows the time of that row. Some line
    says [CHANGED] exactly when [up] would exit on a checksum mismatch
    without touching the database. *)
Theorem info_shows_validity accepts now dir ms db :
  loadMigrations dir = Ok ms ->
  exists lines,
    showMigrationInfo dir db = inr lines /\
    Forall2 (fun m line =>
               infoName line = Name m /\
               match infoValid line with
               | NO => history db !! Version m = None /\ infoAppliedAt line = None
               | YES =>
                   exists r, history db !! Version m = Some r /\
                             rowChecksum r = Checksum m /\
                             infoAppliedAt line = Some (rowAppliedAt r)
               | CHANGED =>
                   exists r, history db !! Version m = Some r /\
                             rowChecksum r <> Checksum m /\
                             infoAppliedAt line = Some (rowAppliedAt r)
               end) ms lines /\
    ((exists line, In line lines /\ infoValid line = CHANGED) <->
     exists v n, up accepts now dir db = (Exited (ChecksumMismatch v n), db)).
Proof.
  intros Hload. unfold showMigrationInfo. rewrite Hload.
  exists (map (infoLine (history db)) ms). split; [done|]. split.
  { clear Hload. induction ms as [|m ms IH]; simpl; constructor; [|done].
    apply infoLine_valid. }
  split.
  - intros (line & (m & <- & Hin)%in_map_iff & Hchanged).
    pose proof (infoLine_valid (history db) m) as [_ Hm]. rewrite Hchanged in Hm.
    destruct Hm as (r & Hr & Hne & _).
    destruct (applyMigrations_mismatch accepts now dir ms db m Hload Hin)
      as (m' & _ & _ & Hexit); [by exists r|].
    exists (Version m'), (Name m'). apply Hexit.
  - intros (v & n & Hrun).
    destruct (applyMigrations_ChecksumMismatch _ _ _ _ _ _ _ _ _ _ Hload Hrun)
      as (_ & m & Hval & _).
    apply validateChecksums_Some in Hval as (Hin & c & Hc & Hne).
    apply applied_Some in Hc as (r & Hr & <-).
    exists (infoLine (history db) m). split; [by apply in_map|].
    unfold infoLine. rewrite Hr. simpl.
    apply String.eqb_neq in Hne. by rewrite Hne.
Qed.

(** X17, on an edited file. *)
Lemma info_shows_validity_witness :
  loadMigrations dirEdited12 = Ok (loaded dirEdited12) /\
  exists lines,
    showMigrationInfo dirEdited12 db1 = inr lines /\
    Forall2 (fun m line =>
               infoName line = Name m /\
               match infoValid line with
               | NO => history db1 !! Version m = None /\ infoAppliedAt line = None
               | YES =>
                   exists r, history db1 !! Version m = Some r /\
                             rowChecksum r = Checksum m /\
                             infoAppliedAt line = Some (rowAppliedAt r)
               | CHANGED =>
                   exists r, history db1 !! Version m = Some r /\
                             rowChecksum r <> Checksum m /\
                             infoAppliedAt line = Some (rowAppliedAt r)
               end) (loaded dirEdited12) lines /\
    ((exists line, In line lines /\ infoValid line = CHANGED) <->
     exists v n, up always clock dirEdited12 db1 = (Exited (ChecksumMismatch v n), db1)).
Proof.
  assert (H1 : loadMigrations dirEdited12 = Ok (loaded dirEdited12))
    by (vm_compute; reflexivity).
  split; [exact H1|].
  exact (info_shows_validity always clock dirEdited12 (loaded dirEdited12) db1 H1).
Defined.

(** ** The argument of [up-to] *)

Lemma span_digits_all (s : string) :
  all_digits s = true -> span_digits s = (s, ""%string).
Proof.
  induction s as [|c s IH]; simpl; [done|].
  intros [Hc Hs]%andb_true_iff. by rewrite Hc, (IH Hs).
Qed.

Lemma digit_is_no_space (c : ascii) (s : string) :
  is_digit c = true ->
  find (fun w => HasPrefix (String c s) w) spaces = None /\ is_sign c = false.
Proof.
  intros Hc. destruct c as [[] [] [] [] [] [] [] []]; vm_compute in Hc; try discriminate.
  all: split; [vm_compute; reflexivity|reflexivity].
Qed.

Lemma skipSpace_none (fuel : nat) (s : string) :
  find (fun w => HasPrefix s w) spaces = None -> skipSpace (S fuel) s = Some s.
Proof.
  intros Hfind. cbn [skipSpace].
  rewrite (List.find_none _ _ Hfind nl) by (right; by left). by rewrite Hfind.
Qed.

Lemma Sscanf_d_digits (token : string) :
  all_digits token = true -> Sscanf_d token = parseInt64 token.
Proof.
  intros Hds. destruct token as [|c t]; [done|].
  pose proof Hds as [Hc Ht]%andb_true_iff.
  destruct (digit_is_no_space c t Hc) as [Hfind Hsign].
  unfold Sscanf_d. cbn [String.length]. rewrite (skipSpace_none _ _ Hfind), Hsign.
  rewrite (span_digits_all _ Hds). unfold parseInt64.
  pose proof (decimal_value_nonneg (String c t) 0 Hds ltac:(lia)) as Hpos.
  replace (- 2 ^ 63 <=? decimal_value 0 (String c t))%Z with true; [done|].
  symmetry. apply Z.leb_le. lia.
Qed.

(** X18. The argument of [up-to] is read as the version tokens of the
    file names are: an argument made of digits is the target that
    [parseInt64] gives for it, with leading zeros dropped, and zero when
    the number does not fit an [int64]. *)
Theorem up_to_reads_digits opens ensures accepts now ts dsn arg rest dir db :
  dsn <> ""%string -> opens dsn = true -> ensures db = true ->
  all_digits arg = true ->
  main opens ensures accepts now ts dsn ("up-to"%string :: arg :: rest) dir db
  = Some (CommandRan (up_to accepts now dir (parseInt64 arg) db).1, dir,
          (up_to accepts now dir (parseInt64 arg) db).2).
Proof.
  intros Hdsn Hopen Hens Hds. unfold main. cbn [String.eqb Ascii.eqb Bool.eqb].
  apply String.eqb_neq in Hdsn. rewrite Hdsn, Hopen, Hens. simpl negb. cbv iota.
  rewrite (Sscanf_d_digits arg Hds). unfold up_to.
  by destruct (applyMigrations accepts now dir true [parseInt64 arg] db).
Qed.

(** X18, on the argument [0003]. *)
Lemma up_to_reads_digits_witness :
  "postgres://db"%string <> ""%string /\ (fun _ : string => true) "postgres://db"%string = true /\
  (fun _ : DB => true) db1 = true /\ all_digits "0003" = true /\
  main (fun _ => true) (fun _ => true) always clock "20251108001546" "postgres://db"
       ["up-to"; "0003"]%string dir1234 db1
  = Some (CommandRan (up_to always clock dir1234 (parseInt64 "0003") db1).1, dir1234,
          (up_to always clock dir1234 (parseInt64 "0003") db1).2).
Proof.
  assert (H1 : "postgres://db"%string <> ""%string) by discriminate.
  assert (H2 : (fun _ : string => true) "postgres://db"%string = true) by reflexivity.
  assert (H3 : (fun _ : DB => true) db1 = true) by reflexivity.
  assert (H4 : all_digits "0003" = true) by reflexivity.
  do 4 (split; [assumption|]).
  exact (up_to_reads_digits (fun _ => true) (fun _ => true) always clock "20251108001546"
           "postgres://db" "0003" [] dir1234 db1 H1 H2 H3 H4).
Defined.

(** X19. An argument of [up-to] that starts with anything but white
    space, a sign or a digit is not refused: the scan fails, its error is
    dropped, and the command runs with the target 0. *)
Theorem up_to_unreadable_argument opens ensures accepts now ts dsn c s rest dir db :
  find (fun w => HasPrefix (String c s) w) spaces = None ->
  is_sign c = false -> is_digit c = false ->
  main opens ensures accepts now ts dsn ("up-to"%string :: String c s :: rest) dir db
  = main opens ensures accepts now ts dsn ["up-to"; "0"]%string dir db.
Proof.
  intros Hfind Hsign Hnum.
  assert (Hscan : Sscanf_d (String c s) = Sscanf_d "0").
  { unfold Sscanf_d at 1. cbn [String.length]. rewrite (skipSpace_none _ _ Hfind), Hsign.
    cbn [span_digits]. by rewrite Hnum. }
  unfold main. by rewrite Hscan.
Qed.

(** X19, on the argument [v3]. *)
Lemma up_to_unreadable_argument_witness :
  find (fun w => HasPrefix "v3" w) spaces = None /\
  is_sign "v" = false /\ is_digit "v" = false /\
  main (fun _ => true) (fun _ => true) always clock "20251108001546" "postgres://db"
       ["up-to"; "v3"]%string dir1234 db1
  = main (fun _ => true) (fun _ => true) always clock "20251108001546" "postgres://db"
         ["up-to"; "0"]%string dir1234 db1.
Proof.
  assert (H1 : find (fun w => HasPrefix "v3" w) spaces = None) by reflexivity.
  assert (H2 : is_sign "v" = false) by reflexivity.
  assert (H3 : is_digit "v" = false) by reflexivity.
  do 3 (split; [assumption|]).
  exact (up_to_unreadable_argument (fun _ => true) (fun _ => true) always clock
           "20251108001546" "postgres://db" "v" "3" [] dir1234 db1 H1 H2 H3).
Defined.

(** ** [down] after [up] *)

Lemma loadMigrations_In dir ms m :
  loadMigrations dir = Ok ms -> In m ms ->
  exists e, In e dir /\ isMigrationEntry e = true /\
            parseMigrationFile dir (entryName e) = Ok m.
Proof.
  unfold loadMigrations. destruct (parseEntries dir dir) as [ms0|] eqn:Hp; [|done].
  intros [= <-] Hin. apply parseEntries_Ok in Hp.
  apply (Permutation_in _ (sortSlice_perm ms0)) in Hin.
  destruct (Forall2_In_r _ _ _ _ Hp Hin) as (e & [He Hmig]%filter_In & Hm).
  by exists e.
Qed.

(** X20. On a database without history, after [up] has returned over
    files whose version tokens are the decimal renderings of their
    versions, [down] finds the file of the highest version by the name it
    makes up from the row, executes the reverse script of that file and
    deletes its row, and the rows of the other migrations stay. *)
Theorem down_after_up accepts now dir ms db db1 m :
  history db = ∅ ->
  loadMigrations dir = Ok ms ->
  up accepts now dir db = (Returned MigrationsApplied, db1) ->
  (forall e, In e dir -> isMigrationEntry e = true ->
             canonical (span_digits (entryName e)).1) ->
  In m ms -> (forall m', In m' ms -> (Version m' <= Version m)%Z) ->
  accepts db1 (Script (DownSQL m)) = true ->
  (forall d, accepts d (DeleteRow (Version m)) = true) ->
  exists db2,
    rollbackLastMigration accepts dir db1 = (Returned RollbackSuccessful, db2) /\
    trace db2 = trace db1 ++ [Script (DownSQL m); DeleteRow (Version m)] /\
    history db2 = delete (Version m) (history db1) /\
    (forall m', In m' ms -> m' <> m -> is_Some (history db2 !! Version m')).
Proof.
  intros Hempty Hload Hrun Hcanon Hm Hmax Hdown Hdel.
  destruct (applyMigrations_spec accepts now _ _ _ _ _ _ _ Hload Hrun)
    as (completed & extra & sts & Hpre & Htr & Hsts & Hnd & Hrows & Hkeep & Hex & Hok).
  destruct (Hok eq_refl) as (_ & Hsel & _). rewrite selected_up in Hsel.
  assert (Hall : forall m', In m' ms <-> In m' completed).
  { intros m'. rewrite Hsel, filter_In, pendingIn_true, Hempty, lookup_empty. tauto. }
  destruct (Hrows m) as (r & Hr & Hname & _); [by apply Hall|].
  assert (Hhigh : highest (history db1) (Version m) r).
  { split; [done|]. intros v' [r' Hr'].
    destruct (in_dec Z.eq_dec v' (versions completed)) as [Hin|Hnotin].
    - apply in_map_iff in Hin as (m' & <- & Hin). by apply Hmax, Hall.
    - rewrite (Hkeep _ Hnotin), Hempty, lookup_empty in Hr'. done. }
  destruct (loadMigrations_In _ _ _ Hload Hm) as (e & He & Hmig & Hparse).
  assert (Hpath : migrationFilename (Version m) (rowName r) = entryName e).
  { rewrite Hname. apply (migrationFilename_canonical dir); [done|]. by apply Hcanon. }
  unfold rollbackLastMigration, Exec, ExecDelete.
  rewrite (highest_lastRow _ _ _ Hhigh), Hpath, Hparse, Hdown, Hdel.
  eexists. split; [done|]. simpl. split; [by rewrite <- app_assoc|]. split; [done|].
  intros m' Hm' Hne. destruct (Hrows m') as (r' & Hr' & _); [by apply Hall|].
  exists r'. rewrite lookup_delete_ne; [done|]. intros Heq. apply Hne. symmetry.
  apply (NoDup_map_inj Version completed); try done; by apply Hall.
Qed.

(** X20, on the files enumerated as 3, 1, 2. *)
Lemma down_after_up_witness :
  history emptyDB = ∅ /\
  loadMigrations dir312 = Ok (loaded dir312) /\
  up always clock dir312 emptyDB = (Returned MigrationsApplied, db312) /\
  (forall e, In e dir312 -> isMigrationEntry e = true ->
             canonical (span_digits (entryName e)).1) /\
  In migrationC (loaded dir312) /\
  (forall m', In m' (loaded dir312) -> (Version m' <= Version migrationC)%Z) /\
  always db312 (Script (DownSQL migrationC)) = true /\
  (forall d, always d (DeleteRow (Version migrationC)) = true) /\
  exists db2,
    rollbackLastMigration always dir312 db312 = (Returned RollbackSuccessful, db2) /\
    trace db2 = trace db312 ++ [Script (DownSQL migrationC); DeleteRow (Version migrationC)] /\
    history db2 = delete (Version migrationC) (history db312) /\
    (forall m', In m' (loaded dir312) -> m' <> migrationC ->
                is_Some (history db2 !! Version m')).
Proof.
  assert (H1 : history emptyDB = ∅) by reflexivity.
  assert (H2 : loadMigrations dir312 = Ok (loaded dir312)) by (vm_compute; reflexivity).
  assert (H3 : up always clock dir312 emptyDB = (Returned MigrationsApplied, db312))
    by (vm_compute; reflexivity).
  assert (H4 : forall e, In e dir312 -> isMigrationEntry e = true ->
                         canonical (span_digits (entryName e)).1).
  { intros e [<-|[<-|[<-|[]]]] _.
    all: split; [right; eexists _, _; split; [reflexivity|discriminate]|reflexivity]. }
  assert (H5 : In migrationC (loaded dir312)).
  { vm_compute. do 2 right. by left. }
  assert (H6 : forall m', In m' (loaded dir312) -> (Version m' <= Version migrationC)%Z).
  { intros m' Hin. vm_compute in Hin.
    repeat (destruct Hin as [<-|Hin]; [vm_compute; discriminate|]). destruct Hin. }
  assert (H7 : always db312 (Script (DownSQL migrationC)) = true) by reflexivity.
  assert (H8 : forall d, always d (DeleteRow (Version migrationC)) = true) by reflexivity.
  do 8 (split; [assumption|]).
  exact (down_after_up always clock dir312 (loaded dir312) emptyDB db312 migrationC
           H1 H2 H3 H4 H5 H6 H7 H8).
Defined.

(** ** [up] after [down] *)

Lemma filter_single {A} (p : A -> bool) (l : list A) (x : A) :
  List.NoDup l -> In x l -> (forall y, In y l -> p y = true <-> y = x) ->
  List.filter p l = [x].
Proof.
  induction l as [|a l IH]; simpl; [done|].
  intros [Hnotin Hnd]%NoDup_cons_iff Hin Hp.
  destruct (p a) eqn:Ha.
  - apply (Hp a) in Ha as ->; [|by left]. f_equal. apply filter_none.
    intros y Hy. destruct (p y) eqn:Hpy; [|done].
    apply Hp in Hpy as ->; [done|by right].
  - destruct Hin as [->|Hin].
    + assert (p x = true) by (by apply Hp; [left|]). congruence.
    + apply IH; try done. intros y Hy. apply Hp. by right.
Qed.

Lemma NoDup_versions (ms : list Migration) : List.NoDup (versions ms) -> List.NoDup ms.
Proof. apply NoDup_map_inv. Qed.

(** The loop over a slice in which one migration is pending. *)
Lemma applyPending_single accepts now applied ms m db :
  List.NoDup ms -> In m ms ->
  (forall m', In m' ms -> pendingIn applied m' = true <-> m' = m) ->
  applyPending accepts now applied false [] ms db
  = match Exec accepts db (UpSQL m) with
    | None => (Some (ApplyFailed (Version m)), db)
    | Some db1 =>
        match ExecInsert accepts db1 (Version m) (rowOf m (now db1)) with
        | None => (Some (RecordFailed (Version m)), db1)
        | Some db2 => (None, db2)
        end
    end.
Proof.
  revert db. induction ms as [|m0 ms IH]; intros db; cbn [applyPending]; [done|].
  intros [Hnotin Hnd]%NoDup_cons_iff Hin Hp.
  pose proof (Hp m0 (or_introl eq_refl)) as Hm0. unfold pendingIn in Hm0.
  destruct (applied !! Version m0) as [c|] eqn:Hc.
  - destruct Hin as [->|Hin]; [by destruct Hm0 as [_ Hm0]; specialize (Hm0 eq_refl)|].
    apply IH; try done. intros m' Hm'. apply Hp. by right.
  - destruct Hm0 as [Hm0 _]. specialize (Hm0 eq_refl) as ->.
    cbn [beyondTarget andb].
    destruct (Exec accepts db (UpSQL m)) as [d1|]; [|done].
    fold (rowOf m (now d1)).
    destruct (ExecInsert accepts d1 (Version m) (rowOf m (now d1))) as [d2|]; [|done].
    apply applyPending_skip. intros m' Hm'.
    destruct (pendingIn applied m') eqn:Hp'; [|done].
    apply Hp in Hp' as ->; [done|by right].
Qed.

(** X21. [down] and then [up] come back to where they started, but for
    the time of the row. On a database that is up to date with files of
    pairwise distinct versions, after [down] has rolled back the migration
    of the highest version, that migration is the only one pending, and
    [up], if the database accepts its statements, applies it and nothing
    else: the history is again the one before [down], with a new row for
    that version. *)
Theorem up_after_down accepts now dir ms db db2 m r :
  loadMigrations dir = Ok ms -> List.NoDup (versions ms) ->
  upToDate db ms ->
  In m ms -> highest (history db) (Version m) r ->
  rollbackLastMigration accepts dir db = (Returned RollbackSuccessful, db2) ->
  pending db2 ms = [m] /\
  (accepts db2 (Script (UpSQL m)) = true ->
   (forall d row, accepts d (InsertRow (Version m) row) = true) ->
   exists db3 row,
     up accepts now dir db2 = (Returned MigrationsApplied, db3) /\
     trace db3 = trace db2 ++ [Script (UpSQL m); InsertRow (Version m) row] /\
     recorded m row /\
     history db3 = <[Version m := row]> (history db) /\
     upToDate db3 ms).
Proof.
  intros Hload Hdistinct Hup Hm Hhigh Hdown.
  assert (Hhist : history db2 = delete (Version m) (history db)).
  { unfold rollbackLastMigration in Hdown. rewrite (highest_lastRow _ _ _ Hhigh) in Hdown.
    destruct (parseMigrationFile dir _) as [m0|]; [|done].
    destruct (Exec accepts db (DownSQL m0)) as [d1|] eqn:Hexec; [|done].
    destruct (ExecDelete accepts d1 (Version m)) as [d2|] eqn:Hdel; [|done].
    injection Hdown as <-. unfold Exec in Hexec. unfold ExecDelete in Hdel.
    destruct (accepts db _); [|done]. injection Hexec as <-.
    destruct (accepts _ _); [|done]. by injection Hdel as <-. }
  assert (Hpend : forall m', In m' ms ->
            pendingIn (appliedMigrations db2) m' = true <-> m' = m).
  { intros m' Hm'. rewrite pendingIn_true, Hhist, lookup_delete_None. split.
    - intros [Heq|Hno].
      + by apply (NoDup_map_inj Version ms).
      + destruct (Hup m' Hm') as (r' & Hr' & _). congruence.
    - intros ->. by left. }
  assert (Hval : validateChecksums (appliedMigrations db2) ms = None).
  { apply validateChecksums_None. intros m' Hm' c Hc.
    apply applied_Some in Hc as (r' & Hr' & <-).
    rewrite Hhist in Hr'. apply lookup_delete_Some in Hr' as [_ Hr'].
    destruct (Hup m' Hm') as (r'' & Hr'' & Hsum). congruence. }
  split.
  { unfold pending. apply filter_single; [by apply NoDup_versions|done|done]. }
  intros Hscript Hrow.
  assert (Hrun : up accepts now dir db2
                 = (Returned MigrationsApplied,
                    executed (executed db2 (Script (UpSQL m)) (history db2))
                      (InsertRow (Version m)
                         (rowOf m (now (executed db2 (Script (UpSQL m)) (history db2)))))
                      (<[Version m :=
                           rowOf m (now (executed db2 (Script (UpSQL m)) (history db2)))]>
                         (history db2)))).
  { unfold up, applyMigrations. rewrite Hload, Hval.
    rewrite (applyPending_single accepts now _ ms m); [|by apply NoDup_versions|done|done].
    unfold Exec. rewrite Hscript. unfold ExecInsert. rewrite Hrow. cbn [history executed].
    by rewrite Hhist, lookup_delete_eq. }
  eexists _, _. split; [exact Hrun|]. cbn [trace history executed].
  split; [by rewrite <- app_assoc|]. split; [done|].
  split; [by rewrite Hhist, insert_delete_eq|].
  by apply (up_brings_up_to_date accepts now dir ms db2).
Qed.

(** X21, on the files enumerated as 3, 1, 2. *)
Lemma up_after_down_witness :
  loadMigrations dir312 = Ok (loaded dir312) /\ List.NoDup (versions (loaded dir312)) /\
  upToDate db312 (loaded dir312) /\
  In migrationC (loaded dir312) /\
  highest (history db312) (Version migrationC) (rowOf migrationC 5) /\
  rollbackLastMigration always dir312 db312 = (Returned RollbackSuccessful, dbDown) /\
  pending dbDown (loaded dir312) = [migrationC] /\
  (always dbDown (Script (UpSQL migrationC)) = true ->
   (forall d row, always d (InsertRow (Version migrationC) row) = true) ->
   exists db3 row,
     up always clock dir312 dbDown = (Returned MigrationsApplied, db3) /\
     trace db3 = trace dbDown ++ [Script (UpSQL migrationC); InsertRow (Version migrationC) row] /\
     recorded migrationC row /\
     history db3 = <[Version migrationC := row]> (history db312) /\
     upToDate db3 (loaded dir312)).
Proof.
  assert (H1 : loadMigrations dir312 = Ok (loaded dir312)) by (vm_compute; reflexivity).
  assert (H2 : List.NoDup (versions (loaded dir312))).
  { apply NoDup_ListNoDup, (bool_decide_unpack _). vm_compute. reflexivity. }
  assert (H3 : upToDate db312 (loaded dir312)).
  { apply (up_brings_up_to_date always clock dir312 _ emptyDB); [exact H1|].
    vm_compute. reflexivity. }
  assert (H4 : In migrationC (loaded dir312)).
  { vm_compute. do 2 right. by left. }
  assert (H5 : highest (history db312) (Version migrationC) (rowOf migrationC 5)).
  { apply lastRow_Some. vm_compute. reflexivity. }
  assert (H6 : rollbackLastMigration always dir312 db312
               = (Returned RollbackSuccessful, dbDown)) by (vm_compute; reflexivity).
  do 6 (split; [assumption|]).
  exact (up_after_down always clock dir312 (loaded dir312) db312 dbDown migrationC _
           H1 H2 H3 H4 H5 H6).
Defined.
